(** * sphinx-spice: gated directives, label registry and title resolution

    A shallow embedding of [sphinx_spice/directive.py],
    [sphinx_spice/transforms.py] and [sphinx_spice/post_transforms.py].

    Python objects that the code shares between the label registry and the
    document are cells of an object store; the document tree itself is a
    value.  Exceptions are results, the logger is a list of records in the
    build environment. *)

From Stdlib Require Import Ascii String ZArith Lia.
From stdpp Require Import gmap strings list fin_maps pretty.

Set Warnings "-register-all".

Open Scope string_scope.
Open Scope list_scope.

(** ** Python built-ins used by the code *)

Module Py.

Definition nl : string := String (ascii_of_nat 10) "".

(** [sep.join(l)] *)
Definition join (sep : string) (l : list string) : string := String.concat sep l.

(** [str(n)] of a non-negative integer, as an f-string prints it. *)
Definition str_of_nat (n : nat) : string := pretty n.

Fixpoint rfind_from (c : ascii) (s : string) (i : nat) (last : Z) : Z :=
  match s with
  | EmptyString => last
  | String a r => rfind_from c r (S i) (if Ascii.eqb a c then Z.of_nat i else last)
  end.

(** [s.rfind(c)]: the highest index of [c], [-1] when there is none. *)
Definition rfind (c : ascii) (s : string) : Z := rfind_from c s 0 (-1)%Z.

(** [s[:k]], [k] possibly negative. *)
Definition slice_to (s : string) (k : Z) : string :=
  if (0 <=? k)%Z then String.substring 0 (Z.to_nat k) s
  else String.substring 0 (Z.to_nat (Z.of_nat (String.length s) + k)) s.

(** [s.replace(old, new)] for a non-empty [old]: occurrences are replaced
    left to right and do not overlap; [skip] counts the characters of a
    match that are still to be dropped. *)
Fixpoint replace_from (old new : string) (skip : nat) (s : string) : string :=
  match s with
  | EmptyString => EmptyString
  | String c r =>
      match skip with
      | S k => replace_from old new k r
      | O =>
          if String.prefix old s
          then new +:+ replace_from old new (String.length old - 1) r
          else String c (replace_from old new 0 r)
      end
  end.

Definition replace (old new s : string) : string := replace_from old new 0 s.

(** [len(re.findall("(SE)", s))]: the scan restarts after each match. *)
Fixpoint findall_SE (s : string) : nat :=
  match s with
  | String "S" (String "E" r) => S (findall_SE r)
  | String _ r => findall_SE r
  | EmptyString => 0
  end.

(** [l[a:b]] for [0 <= a]. *)
Definition slice {A} (l : list A) (a b : nat) : list A := take (b - a) (drop a l).

End Py.

(** ** Exceptions and results *)

Inductive exn :=
| KeyError (key : string)
| IndexError
| ValueError
| TypeError
| AttributeError
| RecursionError
| ExtensionError (message : string).

Inductive result (A : Type) :=
| Ok (a : A)
| Raise (e : exn)
| OutOfFuel.
Arguments Ok {A} a.
Arguments Raise {A} e.
Arguments OutOfFuel {A}.

(** ** docutils nodes *)

(** Modelled from the spec: the node classes of [nodes.py], which is not
    among the sources.  Each block kind and each marker is a variant of its
    own; no class is a subclass of another of the extension's classes, so an
    [isinstance] test is a test of the variant.  The docutils classes the
    code names stand beside them, [other_element] is any other class. *)
Inductive node_class :=
| document
| section
| title
| reference
| inline
| literal
| math
| pending_xref
| spice_file_node
| spice_file_enumerable_node
| spice_file_end_node
| spice_simulation_node
| spice_simulation_start_node
| spice_simulation_end_node
| spice_file_title
| spice_file_subtitle
| spice_simulation_title
| spice_file_latex_number_reference
| other_element (name : string).

Global Instance node_class_eq_dec : EqDecision node_class.
Proof. solve_decision. Defined.

(** The keys of [Element.attributes] that the extension reads or writes.
    [None] is an absent key. *)
Record attributes := {
  ids : list string;
  classes : list string;
  names : list string;
  label : option string;
  docname : option string;
  title_attr : option string;
  type : option string;
  hidden : option bool;
  serial_number : option nat;
  target_label : option string;
  reftype : option string;
  reftarget : option string;
  refexplicit : option bool;
  refid : option string;
  refuri : option string;
  internal : option bool;
  anchorname : option string;
}.

Global Instance attributes_eq_dec : EqDecision attributes.
Proof. solve_decision. Defined.

Definition no_attributes : attributes :=
  {| ids := []; classes := []; names := []; label := None; docname := None;
     title_attr := None; type := None; hidden := None; serial_number := None;
     target_label := None; reftype := None; reftarget := None;
     refexplicit := None; refid := None; refuri := None; internal := None;
     anchorname := None |}.

Definition set_ids (v : list string) (a : attributes) : attributes :=
  {| ids := v; classes := classes a; names := names a; label := label a;
     docname := docname a; title_attr := title_attr a; type := type a;
     hidden := hidden a; serial_number := serial_number a;
     target_label := target_label a; reftype := reftype a;
     reftarget := reftarget a; refexplicit := refexplicit a; refid := refid a;
     refuri := refuri a; internal := internal a; anchorname := anchorname a |}.

Definition set_classes (v : list string) (a : attributes) : attributes :=
  {| ids := ids a; classes := v; names := names a; label := label a;
     docname := docname a; title_attr := title_attr a; type := type a;
     hidden := hidden a; serial_number := serial_number a;
     target_label := target_label a; reftype := reftype a;
     reftarget := reftarget a; refexplicit := refexplicit a; refid := refid a;
     refuri := refuri a; internal := internal a; anchorname := anchorname a |}.

Definition set_names (v : list string) (a : attributes) : attributes :=
  {| ids := ids a; classes := classes a; names := v; label := label a;
     docname := docname a; title_attr := title_attr a; type := type a;
     hidden := hidden a; serial_number := serial_number a;
     target_label := target_label a; reftype := reftype a;
     reftarget := reftarget a; refexplicit := refexplicit a; refid := refid a;
     refuri := refuri a; internal := internal a; anchorname := anchorname a |}.

Definition set_label (v : string) (a : attributes) : attributes :=
  {| ids := ids a; classes := classes a; names := names a; label := Some v;
     docname := docname a; title_attr := title_attr a; type := type a;
     hidden := hidden a; serial_number := serial_number a;
     target_label := target_label a; reftype := reftype a;
     reftarget := reftarget a; refexplicit := refexplicit a; refid := refid a;
     refuri := refuri a; internal := internal a; anchorname := anchorname a |}.

Definition set_docname (v : string) (a : attributes) : attributes :=
  {| ids := ids a; classes := classes a; names := names a; label := label a;
     docname := Some v; title_attr := title_attr a; type := type a;
     hidden := hidden a; serial_number := serial_number a;
     target_label := target_label a; reftype := reftype a;
     reftarget := reftarget a; refexplicit := refexplicit a; refid := refid a;
     refuri := refuri a; internal := internal a; anchorname := anchorname a |}.

Definition set_title_attr (v : string) (a : attributes) : attributes :=
  {| ids := ids a; classes := classes a; names := names a; label := label a;
     docname := docname a; title_attr := Some v; type := type a;
     hidden := hidden a; serial_number := serial_number a;
     target_label := target_label a; reftype := reftype a;
     reftarget := reftarget a; refexplicit := refexplicit a; refid := refid a;
     refuri := refuri a; internal := internal a; anchorname := anchorname a |}.

Definition set_type (v : string) (a : attributes) : attributes :=
  {| ids := ids a; classes := classes a; names := names a; label := label a;
     docname := docname a; title_attr := title_attr a; type := Some v;
     hidden := hidden a; serial_number := serial_number a;
     target_label := target_label a; reftype := reftype a;
     reftarget := reftarget a; refexplicit := refexplicit a; refid := refid a;
     refuri := refuri a; internal := internal a; anchorname := anchorname a |}.

Definition set_hidden (v : bool) (a : attributes) : attributes :=
  {| ids := ids a; classes := classes a; names := names a; label := label a;
     docname := docname a; title_attr := title_attr a; type := type a;
     hidden := Some v; serial_number := serial_number a;
     target_label := target_label a; reftype := reftype a;
     reftarget := reftarget a; refexplicit := refexplicit a; refid := refid a;
     refuri := refuri a; internal := internal a; anchorname := anchorname a |}.

Definition set_serial_number (v : nat) (a : attributes) : attributes :=
  {| ids := ids a; classes := classes a; names := names a; label := label a;
     docname := docname a; title_attr := title_attr a; type := type a;
     hidden := hidden a; serial_number := Some v;
     target_label := target_label a; reftype := reftype a;
     reftarget := reftarget a; refexplicit := refexplicit a; refid := refid a;
     refuri := refuri a; internal := internal a; anchorname := anchorname a |}.

Definition set_target_label (v : string) (a : attributes) : attributes :=
  {| ids := ids a; classes := classes a; names := names a; label := label a;
     docname := docname a; title_attr := title_attr a; type := type a;
     hidden := hidden a; serial_number := serial_number a;
     target_label := Some v; reftype := reftype a;
     reftarget := reftarget a; refexplicit := refexplicit a; refid := refid a;
     refuri := refuri a; internal := internal a; anchorname := anchorname a |}.

Definition set_reftype (v : string) (a : attributes) : attributes :=
  {| ids := ids a; classes := classes a; names := names a; label := label a;
     docname := docname a; title_attr := title_attr a; type := type a;
     hidden := hidden a; serial_number := serial_number a;
     target_label := target_label a; reftype := Some v;
     reftarget := reftarget a; refexplicit := refexplicit a; refid := refid a;
     refuri := refuri a; internal := internal a; anchorname := anchorname a |}.

Inductive node :=
| Text (data : string)
| Element (cls : node_class) (attrs : attributes)
          (gated resolved_title : bool) (children : list node).

(** A freshly constructed element: the class attributes [gated] and
    [resolved_title] default to [False]. *)
Definition new_element (c : node_class) (a : attributes) (cs : list node) : node :=
  Element c a false false cs.

Definition node_cls (n : node) : option node_class :=
  match n with Text _ => None | Element c _ _ _ _ => Some c end.

Definition is_instance (c : node_class) (n : node) : bool :=
  bool_decide (node_cls n = Some c).

Definition node_attrs (n : node) : attributes :=
  match n with Text _ => no_attributes | Element _ a _ _ _ => a end.

Definition node_children (n : node) : list node :=
  match n with Text _ => [] | Element _ _ _ _ cs => cs end.

Definition node_gated (n : node) : bool :=
  match n with Text _ => false | Element _ _ g _ _ => g end.

Definition node_resolved_title (n : node) : bool :=
  match n with Text _ => false | Element _ _ _ r _ => r end.

Definition set_attrs (a : attributes) (n : node) : node :=
  match n with Text _ => n | Element c _ g r cs => Element c a g r cs end.

Definition set_children (cs : list node) (n : node) : node :=
  match n with Text _ => n | Element c a g r _ => Element c a g r cs end.

Definition set_gated (g : bool) (n : node) : node :=
  match n with Text _ => n | Element c a _ r cs => Element c a g r cs end.

Definition set_resolved_title (r : bool) (n : node) : node :=
  match n with Text _ => n | Element c a g _ cs => Element c a g r cs end.

(** [node += child] *)
Definition append_child (child : node) (n : node) : node :=
  set_children (node_children n ++ [child]) n.

Definition extend_children (l : list node) (n : node) : node :=
  set_children (node_children n ++ l) n.

(** [TextElement.child_text_separator] is empty, [Element]'s is a blank line. *)
Definition is_text_element (c : node_class) : bool :=
  match c with
  | title | reference | inline | literal | math | spice_file_title
  | spice_file_subtitle | spice_simulation_title
  | spice_file_latex_number_reference => true
  | _ => false
  end.

Definition child_text_separator (c : node_class) : string :=
  if is_text_element c then "" else Py.nl +:+ Py.nl.

Fixpoint astext (n : node) : string :=
  match n with
  | Text s => s
  | Element c _ _ _ cs => Py.join (child_text_separator c) (map astext cs)
  end.

(** [Element.deepcopy()]: the class is instantiated anew from the attributes
    and the copies of the children, so attributes set on the instance
    ([gated], [resolved_title]) fall back to the class defaults. *)
Fixpoint deepcopy (n : node) : node :=
  match n with
  | Text s => Text s
  | Element c a _ _ cs => Element c a false false (map deepcopy cs)
  end.

(** ** The build environment *)

Inductive log_level := LogError | LogWarning.

Record log_record := {
  level : log_level;
  message : string;
  location : option string;
}.

(** One document's record in [env.sphinx_spice_file_gated_registry]. *)
Record gated_record := {
  g_start : list nat;
  g_end : list nat;
  g_sequence : list string;
  g_msg : list string;
  g_type : string;
}.

(** One label's record in [env.sphinx_spice_file_registry]; [e_node] is a
    reference into the object store. *)
Record entry := {
  e_type : string;
  e_docname : string;
  e_node : nat;
}.

Record env := {
  env_docname : string;
  serialno : nat;
  hide_spice_simulations : bool;
  sphinx_spice_file_registry : option (gmap string entry);
  sphinx_spice_file_gated_registry : option (gmap string gated_record);
  objects : list node;
  has_equations : gset string;
  log : list log_record;
}.

Definition set_serialno (v : nat) (e : env) : env :=
  {| env_docname := env_docname e; serialno := v;
     hide_spice_simulations := hide_spice_simulations e;
     sphinx_spice_file_registry := sphinx_spice_file_registry e;
     sphinx_spice_file_gated_registry := sphinx_spice_file_gated_registry e;
     objects := objects e; has_equations := has_equations e; log := log e |}.

Definition set_registry (v : option (gmap string entry)) (e : env) : env :=
  {| env_docname := env_docname e; serialno := serialno e;
     hide_spice_simulations := hide_spice_simulations e;
     sphinx_spice_file_registry := v;
     sphinx_spice_file_gated_registry := sphinx_spice_file_gated_registry e;
     objects := objects e; has_equations := has_equations e; log := log e |}.

Definition set_gated_registry (v : option (gmap string gated_record)) (e : env) : env :=
  {| env_docname := env_docname e; serialno := serialno e;
     hide_spice_simulations := hide_spice_simulations e;
     sphinx_spice_file_registry := sphinx_spice_file_registry e;
     sphinx_spice_file_gated_registry := v;
     objects := objects e; has_equations := has_equations e; log := log e |}.

Definition set_objects (v : list node) (e : env) : env :=
  {| env_docname := env_docname e; serialno := serialno e;
     hide_spice_simulations := hide_spice_simulations e;
     sphinx_spice_file_registry := sphinx_spice_file_registry e;
     sphinx_spice_file_gated_registry := sphinx_spice_file_gated_registry e;
     objects := v; has_equations := has_equations e; log := log e |}.

Definition set_has_equations (v : gset string) (e : env) : env :=
  {| env_docname := env_docname e; serialno := serialno e;
     hide_spice_simulations := hide_spice_simulations e;
     sphinx_spice_file_registry := sphinx_spice_file_registry e;
     sphinx_spice_file_gated_registry := sphinx_spice_file_gated_registry e;
     objects := objects e; has_equations := v; log := log e |}.

Definition set_log (v : list log_record) (e : env) : env :=
  {| env_docname := env_docname e; serialno := serialno e;
     hide_spice_simulations := hide_spice_simulations e;
     sphinx_spice_file_registry := sphinx_spice_file_registry e;
     sphinx_spice_file_gated_registry := sphinx_spice_file_gated_registry e;
     objects := objects e; has_equations := has_equations e; log := v |}.

(** What the host (Sphinx, the builder, [utils.py]) provides. *)
Record host := {
  doc2path : string -> string;
  get_relative_uri : string -> string -> string;
  get_node_number : node -> string;
  find_parent : node -> string;
  fully_normalize_name : string -> string;
  numfig_format : string;
  percent_format : string -> string -> string;
  builder_format : string;
  is_latex_builder : bool;
  current_docname : option string;
}.

(** ** Computations over the environment that may raise *)

Definition M (A : Type) : Type := env -> result A * env.

Definition ret {A} (a : A) : M A := fun e => (Ok a, e).

Definition bind {A B} (m : M A) (k : A -> M B) : M B :=
  fun e =>
    match m e with
    | (Ok a, e') => k a e'
    | (Raise x, e') => (Raise x, e')
    | (OutOfFuel, e') => (OutOfFuel, e')
    end.

Definition raise {A} (x : exn) : M A := fun e => (Raise x, e).
Definition out_of_fuel {A} : M A := fun e => (OutOfFuel, e).
Definition get_env : M env := fun e => (Ok e, e).
Definition modify_env (f : env -> env) : M unit := fun e => (Ok tt, f e).

Declare Scope M_scope.
Delimit Scope M_scope with M.
Notation "x <- m ;; k" := (bind m (fun x => k))
  (at level 100, m at next level, right associativity) : M_scope.
Notation "m ;;; k" := (bind m (fun _ => k))
  (at level 100, right associativity) : M_scope.
Open Scope M_scope.

(** [logger.error(msg)] and [logger.warning(msg, location=path)] *)
Definition logger_error (msg : string) : M unit :=
  modify_env (fun e =>
    set_log (log e ++ [{| level := LogError; message := msg; location := None |}]) e).

Definition logger_warning (msg : string) (path : string) : M unit :=
  modify_env (fun e =>
    set_log (log e ++ [{| level := LogWarning; message := msg; location := Some path |}]) e).

(** [env.new_serialno()] *)
Definition new_serialno : M nat :=
  fun e => (Ok (serialno e), set_serialno (S (serialno e)) e).

(** Object store: allocation, dereference, update in place. *)
Definition alloc (n : node) : M nat :=
  fun e => (Ok (length (objects e)), set_objects (objects e ++ [n]) e).

Definition deref (e : env) (r : nat) : option node := objects e !! r.

Definition mutate (r : nat) (f : node -> node) (e : env) : env :=
  match objects e !! r with
  | Some n => set_objects (<[r := f n]> (objects e)) e
  | None => e
  end.

(** ** directive.py: the gated directives' bookkeeping *)

Definition empty_gated_record (nodetype : string) : gated_record :=
  {| g_start := []; g_end := []; g_sequence := []; g_msg := []; g_type := nodetype |}.

Definition record_start (lineno : nat) (msg : string) (r : gated_record) : gated_record :=
  {| g_start := g_start r ++ [lineno]; g_end := g_end r;
     g_sequence := g_sequence r ++ ["S"]; g_msg := g_msg r ++ [msg];
     g_type := g_type r |}.

Definition record_end (lineno : nat) (msg : string) (r : gated_record) : gated_record :=
  {| g_start := g_start r; g_end := g_end r ++ [lineno];
     g_sequence := g_sequence r ++ ["E"]; g_msg := g_msg r ++ [msg];
     g_type := g_type r |}.

(** The first lines of each gated directive's [run], [spice_fileStartDirective],
    [spice_fileEndDirective], [spice_simulationStartDirective] and
    [spice_simulationEndDirective]: the registry is created when the
    environment has none, the document's record when the registry has none,
    then the occurrence is appended. *)
Definition gated_init (nodetype : string) (e : env) : gmap string gated_record :=
  let gated_registry := default ∅ (sphinx_spice_file_gated_registry e) in
  match gated_registry !! env_docname e with
  | Some _ => gated_registry
  | None => <[env_docname e := empty_gated_record nodetype]> gated_registry
  end.

Definition spice_fileStartDirective_record (name : string) (lineno : nat) : M unit :=
  modify_env (fun e =>
    let gated_registry := gated_init "spice_file" e in
    set_gated_registry
      (Some (alter (record_start lineno (name +:+ " at line: " +:+ Py.str_of_nat lineno))
                   (env_docname e) gated_registry)) e).

Definition spice_fileEndDirective_record (name : string) (lineno : nat) : M unit :=
  modify_env (fun e =>
    let gated_registry := gated_init "spice_file" e in
    set_gated_registry
      (Some (alter (record_end lineno (name +:+ " at line: " +:+ Py.str_of_nat lineno))
                   (env_docname e) gated_registry)) e).

Definition spice_simulationStartDirective_record (lineno : nat) : M unit :=
  modify_env (fun e =>
    let gated_registry := gated_init "spice_simulation" e in
    set_gated_registry
      (Some (alter (record_start lineno
                      ("spice_simulation-start at line: " +:+ Py.str_of_nat lineno))
                   (env_docname e) gated_registry)) e).

Definition spice_simulationEndDirective_record (lineno : nat) : M unit :=
  modify_env (fun e =>
    let gated_registry := gated_init "spice_simulation" e in
    set_gated_registry
      (Some (alter (record_end lineno
                      ("spice_simulation-end at line: " +:+ Py.str_of_nat lineno))
                   (env_docname e) gated_registry)) e).

(** ** transforms.py: [CheckGatedDirectives] *)

Definition missing_end_msg (docname nodetype structure : string) : string :=
  "The document (" +:+ docname +:+ ") is missing a " +:+ nodetype
  +:+ "-end directive" +:+ Py.nl +:+ "  " +:+ structure.

Definition missing_start_msg (docname nodetype structure : string) : string :=
  "The document (" +:+ docname +:+ ") is missing a " +:+ nodetype
  +:+ "-start directive" +:+ Py.nl +:+ "  " +:+ structure.

Definition nested_msg (docname nodetype structure : string) : string :=
  "The document (" +:+ docname +:+ ") contains nested " +:+ nodetype
  +:+ "-start and " +:+ nodetype +:+ "-end directives" +:+ Py.nl +:+ "  " +:+ structure.

Definition gated_error_msg : string :=
  "[sphinx-spice_file] An error has occured when parsing gated directives."
  +:+ Py.nl +:+ "Please check warning messages above".

Definition when (b : bool) (m : M bool) : M bool :=
  if b then m else ret false.

Definition check_structure (registry : gmap string gated_record) : M unit :=
  e <- get_env ;;
  let docname := env_docname e in
  error <-
    match registry !! docname with
    | Some r =>
        let start := g_start r in
        let end_ := g_end r in
        let sequence := Py.join "" (g_sequence r) in
        let structure := Py.join (Py.nl +:+ "  ") (g_msg r) in
        let nodetype := g_type r in
        e1 <- when (length end_ <? length start)%nat
                (logger_error (missing_end_msg docname nodetype structure) ;;; ret true) ;;
        e2 <- when (length start <? length end_)%nat
                (logger_error (missing_start_msg docname nodetype structure) ;;; ret true) ;;
        e3 <- when (length start =? length end_)%nat
                (let groups := Py.findall_SE sequence in
                 when (negb (groups =? length start)%nat)
                   (logger_error (nested_msg docname nodetype structure) ;;; ret true)) ;;
        ret (e1 || e2 || e3)
    | None => ret false
    end ;;
  if error then raise (ExtensionError gated_error_msg) else ret tt.

Definition CheckGatedDirectives_apply : M unit :=
  e <- get_env ;;
  match sphinx_spice_file_gated_registry e with
  | Some registry => check_structure registry
  | None => ret tt
  end.

(** ** directive.py *)

(** What the parser hands to a directive: its options and arguments, the
    line it stands on, and the nodes the state machine parses from its body
    ([nested_parse]) and from its first argument ([inline_text]). *)
Record directive := {
  opt_label : option string;
  opt_class : option (list string);
  opt_nonumber : bool;
  opt_hidden : bool;
  arguments : list string;
  lineno : nat;
  content : list node;
  subtitle_nodes : list node;
}.

Definition init_registry : M unit :=
  modify_env (fun e =>
    match sphinx_spice_file_registry e with
    | Some _ => e
    | None => set_registry (Some ∅) e
    end).

Definition registry_of (e : env) : gmap string entry :=
  default ∅ (sphinx_spice_file_registry e).

(** [docpath[: docpath.rfind(".")]] *)
Definition strip_suffix (docpath : string) : string :=
  Py.slice_to docpath (Py.rfind "." docpath).

Definition duplicate_label_msg (label other_path : string) : string :=
  "duplicate label: " +:+ label +:+ "; other instance in " +:+ other_path.

(** [Sphinxspice_fileBaseDirective.duplicate_labels] *)
Definition duplicate_labels (h : host) (label : string) : M bool :=
  e <- get_env ;;
  match registry_of e !! label with
  | Some other =>
      if bool_decide (label = "") then ret false
      else
        let docpath := doc2path h (env_docname e) in
        let path := strip_suffix docpath in
        let other_path := doc2path h (e_docname other) in
        logger_warning (duplicate_label_msg label other_path) path ;;;
        ret true
  | None => ret false
  end.

(** [self.options["name"] = label; self.add_name(node)] *)
Definition add_name (h : host) (label : string) (a : attributes) : attributes :=
  set_names (names a ++ [fully_normalize_name h label]) a.

Definition registry_insert (label : string) (v : entry) : M unit :=
  modify_env (fun e => set_registry (Some (<[label := v]> (registry_of e))) e).

Definition class_option (d : directive) : list string :=
  match opt_class d with
  | Some (c :: cs) => c :: cs
  | _ => []
  end.

(** [label = self.options.get("label", ""); if label: ... else: label =
    f"{self.env.docname}-<kind>-{self.serial_number}"] *)
Definition directive_label (kind : string) (d : directive) (docname : string)
    (serial : nat) : string :=
  match opt_label d with
  | Some l => if bool_decide (l = "") then
                docname +:+ "-" +:+ kind +:+ "-" +:+ Py.str_of_nat serial
              else l
  | None => docname +:+ "-" +:+ kind +:+ "-" +:+ Py.str_of_nat serial
  end.

(** The title [spice_fileDirective.run] constructs, with the subtitle parsed
    from the first argument when there is one. *)
Definition file_title_of (d : directive) : node :=
  let title0 := new_element spice_file_title no_attributes [Text "spice_file"] in
  match arguments d with
  | [] => title0
  | _ :: _ =>
      append_child (new_element spice_file_subtitle no_attributes (subtitle_nodes d)) title0
  end.

(** The node [spice_fileDirective.run] has built when it registers it. *)
Definition spice_file_build (h : host) (name : string) (d : directive)
    (docname : string) (serial : nat) : node :=
  let title_text := "spice_file" in
  let node0 :=
    if opt_nonumber d then new_element spice_file_node no_attributes []
    else new_element spice_file_enumerable_node no_attributes [] in
  let node1 :=
    if bool_decide (name = "spice_file-start") then set_gated true node0 else node0 in
  let title1 := file_title_of d in
  let section_ :=
    new_element section (set_ids ["spice_file-content"] no_attributes) (content d) in
  let label := directive_label "spice_file" d docname serial in
  let classes_ := name :: class_option d in
  let node2 := append_child section_ (append_child title1 node1) in
  let a := node_attrs node2 in
  let a := set_classes (classes a ++ classes_) a in
  let a := set_ids (ids a ++ [label]) a in
  let a := set_label label a in
  let a := set_docname docname a in
  let a := set_title_attr title_text a in
  let a := set_type name a in
  let a := set_hidden (opt_hidden d) a in
  let a := set_serial_number serial a in
  let a := add_name h label a in
  set_attrs a node2.

(** [spice_fileDirective.run]; [name] is the directive's class attribute
    [name], ["spice_file"] or ["spice_file-start"]. *)
Definition spice_fileDirective_run (h : host) (name : string) (d : directive)
  : M (list nat) :=
  serial <- new_serialno ;;
  init_registry ;;;
  e <- get_env ;;
  let label := directive_label "spice_file" d (env_docname e) serial in
  dup <- duplicate_labels h label ;;
  if dup then ret []
  else
    let node_ := spice_file_build h name d (env_docname e) serial in
    live <- alloc node_ ;;
    copy <- alloc (deepcopy node_) ;;
    registry_insert label
      {| e_type := name; e_docname := env_docname e; e_node := copy |} ;;;
    if opt_hidden d then ret [] else ret [live].

(** The node [spice_simulationDirective.run] has built when it registers
    it. *)
Definition spice_simulation_build (h : host) (name : string)
    (node_class_ : node_class) (d : directive) (target docname : string)
    (serial : nat) : node :=
  let title_text := "spice_simulation to" in
  let title_ := new_element spice_simulation_title no_attributes [Text title_text] in
  let section_ :=
    new_element section (set_ids ["spice_simulation-content"] no_attributes)
                (content d) in
  let label := directive_label "spice_simulation" d docname serial in
  let classes_ := name :: class_option d in
  let node0 := new_element node_class_ no_attributes [] in
  let node1 := append_child section_ (append_child title_ node0) in
  let a := node_attrs node1 in
  let a := set_target_label target a in
  let a := set_classes (classes a ++ classes_) a in
  let a := set_ids (ids a ++ [label]) a in
  let a := set_label label a in
  let a := set_docname docname a in
  let a := set_title_attr (astext title_) a in
  let a := set_type name a in
  let a := set_hidden (opt_hidden d) a in
  let a := set_serial_number serial a in
  let a := add_name h label a in
  set_attrs a node1.

(** [spice_simulationDirective.run]; [name] and [node_class_] are the class
    attributes [name] and [spice_simulation_node] of the directive. *)
Definition spice_simulationDirective_run (h : host) (name : string)
    (node_class_ : node_class) (d : directive) : M (list nat) :=
  match arguments d with
  | [] => raise IndexError
  | target :: _ =>
      serial <- new_serialno ;;
      init_registry ;;;
      e <- get_env ;;
      if hide_spice_simulations e then ret []
      else
        let label := directive_label "spice_simulation" d (env_docname e) serial in
        dup <- duplicate_labels h label ;;
        if dup then ret []
        else
          let node_ :=
            spice_simulation_build h name node_class_ d target (env_docname e) serial in
          live <- alloc node_ ;;
          registry_insert label
            {| e_type := name; e_docname := env_docname e; e_node := live |} ;;;
          if opt_hidden d then ret [] else ret [live]
  end.

(** [spice_fileStartDirective.run] *)
Definition spice_fileStartDirective_run (h : host) (d : directive) : M (list nat) :=
  spice_fileStartDirective_record "spice_file-start" (lineno d) ;;;
  spice_fileDirective_run h "spice_file-start" d.

(** [spice_fileEndDirective.run] *)
Definition spice_fileEndDirective_run (d : directive) : M (list nat) :=
  spice_fileEndDirective_record "spice_file-end" (lineno d) ;;;
  r <- alloc (new_element spice_file_end_node no_attributes []) ;;
  ret [r].

(** [spice_simulationStartDirective.run] *)
Definition spice_simulationStartDirective_run (h : host) (d : directive)
  : M (list nat) :=
  spice_simulationStartDirective_record (lineno d) ;;;
  spice_simulationDirective_run h "spice_simulation-start" spice_simulation_start_node d.

(** [spice_simulationEndDirective.run] *)
Definition spice_simulationEndDirective_run (d : directive) : M (list nat) :=
  spice_simulationEndDirective_record (lineno d) ;;;
  r <- alloc (new_element spice_simulation_end_node no_attributes []) ;;
  ret [r].

(** ** Pure computations that may raise *)

Definition rbind {A B} (m : result A) (k : A -> result B) : result B :=
  match m with
  | Ok a => k a
  | Raise x => Raise x
  | OutOfFuel => OutOfFuel
  end.

Notation "'let*' x := m 'in' k" := (rbind m (fun x => k))
  (at level 10, x pattern, m at level 100, k at level 200).

Fixpoint rmap {A B} (f : A -> result B) (l : list A) : result (list B) :=
  match l with
  | [] => Ok []
  | x :: r => let* y := f x in let* ys := rmap f r in Ok (y :: ys)
  end.

(** ** Tree measures *)

Fixpoint node_size (n : node) : nat :=
  match n with
  | Text _ => 1
  | Element _ _ _ _ cs => S (list_sum (map node_size cs))
  end.

Fixpoint node_height (n : node) : nat :=
  match n with
  | Text _ => 1
  | Element _ _ _ _ cs => S (foldr Nat.max 0 (map node_height cs))
  end.

(** The depth to which a traversal follows a tree that merging may deepen. *)
Definition traversal_depth (n : node) : nat := 2 * node_size n + 2.

(** ** transforms.py: the merge passes

    Modelled from the spec: [_compat.findall], which is not among the
    sources; blocks are processed in document order.  It is docutils' lazy
    pre-order traversal: a node is handed to the loop body before its
    children are looked at, and the walk over a child list goes by index
    over the list as the body has left it.  [loop] is that walk over one
    child list, [rec] the walk below one child, [k] bounds the number of
    steps by the length of the list. *)

Fixpoint index_where {A} (p : A -> bool) (l : list A) : option nat :=
  match l with
  | [] => None
  | x :: r => if p x then Some 0 else S <$> index_where p r
  end.

Definition is_element (n : node) : bool :=
  match n with Text _ => false | Element _ _ _ _ _ => true end.

(** [child == Text(s)]: a [Text] is a [str] and compares by its characters;
    an element is equal to no object but itself. *)
Definition text_eq (s : string) (child : node) : bool :=
  match child with
  | Text t => bool_decide (s = t)
  | Element _ _ _ _ _ => false
  end.

(** [for child in children[p : p + k]: parent.remove(child)], on the list
    [parent.children]: [list.remove] takes out the first item equal to
    [child], which for an element is the element itself and for a [Text]
    the first [Text] of the same characters.  The child the loop has reached
    stands at index [p] of the list as the removals before it have left it;
    [i] is the index at which the node that is being merged stands. *)
Fixpoint remove_children (k p : nat) (children : list node) (i : nat)
  : list node * nat :=
  match k with
  | O => (children, i)
  | S k' =>
      let remove q :=
        remove_children k' p (delete q children) (if (q <? i)%nat then i - 1 else i) in
      match children !! p with
      | None => (children, i)
      | Some (Text s) =>
          match index_where (text_eq s) children with
          | Some q => remove q
          | None => (children, i)
          end
      | Some (Element _ _ _ _ _) => remove p
      end
  end.

Definition get_label (n : node) : option string := label (node_attrs n).

Module MergeGatedspice_simulations.

Definition find_nodes (label : option string) (children : list node)
  : option nat * option nat :=
  match index_where (fun child =>
          is_instance spice_simulation_start_node child
          && bool_decide (label = get_label child)) children with
  | Some idx1 =>
      (Some idx1,
       match index_where (is_instance spice_simulation_end_node) (drop idx1 children) with
       | Some idx2 => Some (idx1 + idx2)
       | None => None
       end)
  | None => (None, None)
  end.

(** The attribute dictionary after the body of [apply]; the new node and
    the start node share it. *)
Definition merged_attributes (a : attributes) : attributes :=
  set_type "spice_simulation"
    (set_classes
       (map (Py.replace "spice_simulation-start" "spice_simulation") (classes a)) a).

Definition content_section (between : list node) : node :=
  new_element section (set_ids ["spice_simulation-content"] no_attributes) between.

Definition new_node (a : attributes) (kept between : list node) : node :=
  new_element spice_simulation_node (merged_attributes a)
              (kept ++ [content_section between]).

Definition is_section (n : node) : bool := is_instance section n.

Fixpoint loop (rec : node -> result node) (k i : nat) (children : list node)
  : result (list node) :=
  match k with
  | O => Ok children
  | S k' =>
      match children !! i with
      | None => Ok children
      | Some node_ =>
          if is_instance spice_simulation_start_node node_ then
            match find_nodes (get_label node_) children with
            | (Some parent_start, Some (S _ as parent_end)) =>
                let* kept :=
                  rmap rec (List.filter (fun c => negb (is_section c)) (node_children node_)) in
                let* below := rec node_ in
                let start_now := set_attrs (merged_attributes (node_attrs node_)) below in
                let between :=
                  Py.slice (<[i := start_now]> children) (parent_start + 1) parent_end in
                let replaced :=
                  <[i := new_node (node_attrs node_) kept between]> children in
                loop rec k' (S i)
                     (fst (remove_children (parent_end - parent_start) (parent_start + 1)
                                           replaced i))
            | _ =>
                let* below := rec node_ in
                loop rec k' (S i) (<[i := below]> children)
            end
          else
            let* below := rec node_ in
            loop rec k' (S i) (<[i := below]> children)
      end
  end.

Fixpoint walk (depth : nat) (n : node) : result node :=
  match depth with
  | O => OutOfFuel
  | S depth' =>
      match n with
      | Text _ => Ok n
      | Element c a g r cs =>
          let* cs' := loop (walk depth') (length cs) 0 cs in
          Ok (Element c a g r cs')
      end
  end.

Definition apply (doc : node) : result node := walk (traversal_depth doc) doc.

End MergeGatedspice_simulations.

Module MergeGatedspice_files.

Definition is_file (n : node) : bool :=
  is_instance spice_file_node n || is_instance spice_file_enumerable_node n.

Definition find_nodes (label : option string) (children : list node)
  : option nat * option nat :=
  match index_where (fun child =>
          is_file child && bool_decide (label = get_label child)) children with
  | Some idx1 =>
      (Some idx1,
       match index_where (is_instance spice_file_end_node) (drop idx1 children) with
       | Some idx2 => Some (idx1 + idx2)
       | None => None
       end)
  | None => (None, None)
  end.

(** [merge_nodes] on the node at index [i] of its parent's [children]:
    the parent's new child list and the index the node now has in it.
    [content += child] appends to an element; on a [Text], a [str], it
    concatenates, which raises as soon as [child] is an element.  A node
    that lies between the two indices itself is moved into its own last
    child, and the traversal below it does not end. *)
Definition merge_nodes (i : nat) (node_ : node) (children : list node)
  : result (list node * nat) :=
  match find_nodes (get_label node_) children with
  | (Some parent_start, Some (S _ as parent_end)) =>
      let a := node_attrs node_ in
      match type a with
      | None => Raise (KeyError "type")
      | Some ty =>
          let updated :=
            set_type (Py.replace "-start" "" ty)
              (set_classes (map (Py.replace "-start" "") (classes a)) a) in
          let between := Py.slice children (parent_start + 1) parent_end in
          match List.rev (node_children node_) with
          | [] => Raise IndexError
          | content :: before =>
              if negb (is_element content) && existsb is_element between
              then Raise TypeError
              else if (parent_start <? i)%nat && (i <? parent_end)%nat
              then Raise RecursionError
              else
                let merged :=
                  set_children (List.rev before ++ [extend_children between content])
                               (set_attrs updated node_) in
                Ok (remove_children (parent_end - parent_start) (parent_start + 1)
                                    (<[i := merged]> children) i)
          end
      end
  | _ => Ok (children, i)
  end.

Fixpoint loop (cls : node_class) (rec : node -> result node) (k i : nat)
    (children : list node) : result (list node) :=
  match k with
  | O => Ok children
  | S k' =>
      match children !! i with
      | None => Ok children
      | Some node_ =>
          if is_instance cls node_ then
            let* (children1, j) :=
              if node_gated node_ then merge_nodes i node_ children
              else Ok (children, i) in
            match children1 !! j with
            | None => Raise IndexError
            | Some node1 =>
                let* below := rec (set_gated false node1) in
                loop cls rec k' (S i) (<[j := below]> children1)
            end
          else
            let* below := rec node_ in
            loop cls rec k' (S i) (<[i := below]> children)
      end
  end.

Fixpoint walk (cls : node_class) (depth : nat) (n : node) : result node :=
  match depth with
  | O => OutOfFuel
  | S depth' =>
      match n with
      | Text _ => Ok n
      | Element c a g r cs =>
          let* cs' := loop cls (walk cls depth') (length cs) 0 cs in
          Ok (Element c a g r cs')
      end
  end.

Definition apply (doc : node) : result node :=
  let* doc1 := walk spice_file_node (traversal_depth doc) doc in
  walk spice_file_enumerable_node (traversal_depth doc1) doc1.

End MergeGatedspice_files.

(** The two merge transforms share a priority; they run in the order of
    their classes in the module. *)
Definition merge_pass (doc : node) : result node :=
  let* doc1 := MergeGatedspice_simulations.apply doc in
  MergeGatedspice_files.apply doc1.

(** ** post_transforms.py *)

(** The node a label is registered with, read through the object store. *)
Definition registry_node (e : env) (label : option string) : option node :=
  l ← label; r ← registry_of e !! l; deref e (e_node r).

(** Modelled from the spec: [nodes.is_spice_file_node], the condition handed
    to [findall] by the file-block title pass; the module [nodes.py] is not
    among the sources.  A block is a file block when it is a [FileBlock] or
    a [FileBlockNumbered]. *)
Definition is_spice_file_node (n : node) : bool :=
  is_instance spice_file_node n || is_instance spice_file_enumerable_node n.

(** [l.remove(x)] *)
Fixpoint list_remove (x : string) (l : list string) : result (list string) :=
  match l with
  | [] => Raise ValueError
  | y :: r => if bool_decide (x = y) then Ok r
              else let* r' := list_remove x r in Ok (y :: r')
  end.

Definition truthy (b : option bool) : bool := default false b.

Fixpoint mmap {A B} (f : A -> M B) (l : list A) : M (list B) :=
  match l with
  | [] => ret []
  | x :: r => y <- f x ;; ys <- mmap f r ;; ret (y :: ys)
  end.

Definition lift {A} (r : result A) : M A := fun e => (r, e).

(** Traversals of the post-transforms follow trees that title resolution
    builds from registered nodes. *)
Definition store_height (e : env) : nat := foldr Nat.max 0 (map node_height (objects e)).
Definition post_depth (e : env) (doc : node) : nat := node_height doc + store_height e + 3.

Module UpdateReferencesToEnumerated.

(** The body of the loop of [run] for one [pending_xref] node. *)
Definition visit (e : env) (node_ : node) : result node :=
  let a := node_attrs node_ in
  if bool_decide (reftype a = Some "numref") then Ok node_
  else
    match registry_node e (reftarget a) with
    | Some target_node =>
        if is_instance spice_file_enumerable_node target_node then
          if truthy (refexplicit a) then Ok node_
          else
            match node_children node_ with
            | [] => Raise IndexError
            | Text _ :: _ => Raise TypeError
            | (Element _ ia _ _ ics) :: rest =>
                let* removed := list_remove "std-ref" (classes ia) in
                let classes_ := removed ++ ["std-numref"] in
                let literal_ :=
                  new_element literal (set_classes classes_ no_attributes) ics in
                Ok (set_children (literal_ :: rest)
                      (set_attrs (set_reftype "numref" a) node_))
            end
        else Ok node_
    | None => Ok node_
    end.

Fixpoint walk (e : env) (depth : nat) (n : node) : result node :=
  match depth with
  | O => OutOfFuel
  | S depth' =>
      let* n1 := if is_instance pending_xref n then visit e n else Ok n in
      match n1 with
      | Text _ => Ok n1
      | Element c a g r cs =>
          let* cs' := rmap (walk e depth') cs in
          Ok (Element c a g r cs')
      end
  end.

Definition run (doc : node) : M node :=
  e <- get_env ;;
  match sphinx_spice_file_registry e with
  | None => ret doc
  | Some _ => lift (walk e (S (node_height doc)) doc)
  end.

End UpdateReferencesToEnumerated.

Module ResolveTitlesInspice_files.

Definition subtitle_part (title_ : node) : list node :=
  match node_children title_ with
  | _ :: subtitle :: _ =>
      if is_instance spice_file_subtitle subtitle
      then [Text " ("] ++ node_children subtitle ++ [Text ")"]
      else []
  | _ => []
  end.

Definition resolve_title (h : host) (node_ : node) : result node :=
  match node_children node_ with
  | [] => Raise IndexError
  | title_ :: rest =>
      let* node1 :=
        if is_instance spice_file_title title_ then
          let* updated_title :=
            if is_instance spice_file_enumerable_node node_ then
              let numbered :=
                if bool_decide (builder_format h = "latex") then
                  [Text (percent_format h (numfig_format h)
                           (get_node_number h node_))]
                else [] in
              Ok (new_element title
                    (set_title_attr (numfig_format h) no_attributes) numbered)
            else
              match node_children title_ with
              | [] => Raise IndexError
              | first :: _ => Ok (new_element title no_attributes [first])
              end in
          Ok (set_children (extend_children (subtitle_part title_) updated_title :: rest)
                           node_)
        else Ok node_ in
      Ok (set_resolved_title true node1)
  end.

Fixpoint walk (h : host) (depth : nat) (n : node) : result node :=
  match depth with
  | O => OutOfFuel
  | S depth' =>
      let* n1 := if is_spice_file_node n then resolve_title h n else Ok n in
      match n1 with
      | Text _ => Ok n1
      | Element c a g r cs =>
          let* cs' := rmap (walk h depth') cs in
          Ok (Element c a g r cs')
      end
  end.

Definition run (h : host) (doc : node) : M node :=
  e <- get_env ;;
  match sphinx_spice_file_registry e with
  | None => ret doc
  | Some _ => lift (walk h (S (node_height doc)) doc)
  end.

End ResolveTitlesInspice_files.

(** [build_reference_node] *)
Definition build_reference_node (h : host) (e : env) (target_node : node) : result node :=
  let a := node_attrs target_node in
  match label a with
  | None => Raise TypeError
  | Some l =>
      let refuri_ := get_relative_uri h (env_docname e) (default "" (docname a)) +:+ "#" +:+ l in
      Ok (new_element reference
            {| ids := []; classes := []; names := []; label := None; docname := None;
               title_attr := None; type := None; hidden := None;
               serial_number := None; target_label := None; reftype := None;
               reftarget := None; refexplicit := None; refid := None;
               refuri := Some refuri_; internal := Some true;
               anchorname := Some "" |} [])
  end.

Definition first_child (n : node) : result node :=
  match node_children n with
  | [] => Raise IndexError
  | c :: _ => Ok c
  end.

(** [resolve_spice_simulation_title] *)
Definition resolve_spice_simulation_title (h : host) (node_ file_node : node) : M node :=
  title_ <- lift (first_child node_) ;;
  file_title <- lift (first_child file_node) ;;
  node1 <-
    (if is_instance spice_simulation_title title_ then
       e <- get_env ;;
       let entry_title_text := title_attr (node_attrs node_) in
       prefix <- lift (first_child file_title) ;;
       let updated_title_text :=
         " " +:+ astext prefix +:+
         (if is_instance spice_file_enumerable_node file_node
          then " " +:+ get_node_number h file_node else "") in
       wrap_reference <- lift (build_reference_node h e file_node) ;;
       match entry_title_text with
       | None => raise TypeError
       | Some entry_title_text =>
           let wrap1 := append_child (Text updated_title_text) wrap_reference in
           let a := set_title_attr (entry_title_text +:+ updated_title_text)
                                   (node_attrs node_) in
           wrap2 <-
             match node_children file_title with
             | _ :: subtitle :: _ =>
                 if is_instance spice_file_subtitle subtitle then
                   (if existsb (is_instance math) (node_children subtitle)
                    then modify_env (fun e =>
                           set_has_equations ({[env_docname e]} ∪ has_equations e) e)
                    else ret tt) ;;;
                   ret (extend_children
                          ([Text " ("] ++ node_children subtitle ++ [Text ")"]) wrap1)
                 else ret wrap1
             | _ => ret wrap1
             end ;;
           let updated_title :=
             new_element title no_attributes [Text entry_title_text; wrap2] in
           ret (set_children (updated_title :: tail (node_children node_))
                             (set_attrs a node_))
       end
     else ret node_) ;;
  ret (set_resolved_title true node1).

Definition registry_set_node (label : option string) (n : node) : M unit :=
  e <- get_env ;;
  match label with
  | None => raise (KeyError "None")
  | Some l =>
      match registry_of e !! l with
      | None => raise (KeyError l)
      | Some r =>
          cell <- alloc n ;;
          registry_insert l {| e_type := e_type r; e_docname := e_docname r; e_node := cell |}
      end
  end.

Definition registry_get_node (label : option string) : M node :=
  e <- get_env ;;
  match registry_node e label with
  | Some n => ret n
  | None => raise (KeyError (default "None" label))
  end.

Module ResolveTitlesInspice_simulations.

Definition undefined_label_msg (target_label : option string) : string :=
  "undefined label: " +:+ default "None" target_label.

(** The body of the loop of [run] for one simulation node: the node as the
    body leaves it, and whether [run] has returned. *)
Definition visit (h : host) (node_ : node) : M (node * bool) :=
  let label := get_label node_ in
  let target_label := target_label (node_attrs node_) in
  fun e =>
    match (target_node <- registry_get_node target_label ;;
           resolved <- resolve_spice_simulation_title h node_ target_node ;;
           ret resolved) e with
    | (Ok resolved, e1) =>
        match registry_set_node label resolved e1 with
        | (Ok _, e2) => (Ok (resolved, false), e2)
        | (_, e2) =>
            let docname :=
              if is_latex_builder h then find_parent h resolved
              else default (env_docname e2) (current_docname h) in
            let path := strip_suffix (doc2path h docname) in
            (logger_warning (undefined_label_msg target_label) path ;;;
             ret (resolved, true)) e2
        end
    | (Raise _, e1) =>
        let docname :=
          if is_latex_builder h then find_parent h node_
          else default (env_docname e1) (current_docname h) in
        let path := strip_suffix (doc2path h docname) in
        (logger_warning (undefined_label_msg target_label) path ;;;
         ret (node_, true)) e1
    | (OutOfFuel, e1) => (OutOfFuel, e1)
    end.

Fixpoint walk_children (rec : node -> M (node * bool)) (cs : list node)
  : M (list node * bool) :=
  match cs with
  | [] => ret ([], false)
  | c :: r =>
      p <- rec c ;;
      if snd p then ret (fst p :: r, true)
      else q <- walk_children rec r ;; ret (fst p :: fst q, snd q)
  end.

Fixpoint walk (h : host) (depth : nat) (n : node) : M (node * bool) :=
  match depth with
  | O => out_of_fuel
  | S depth' =>
      p <- (if is_instance spice_simulation_node n then visit h n else ret (n, false)) ;;
      if snd p then ret p
      else
        match fst p with
        | Text _ => ret p
        | Element c a g r cs =>
            q <- walk_children (walk h depth') cs ;;
            ret (Element c a g r (fst q), snd q)
        end
  end.

Definition run (h : host) (doc : node) : M node :=
  e <- get_env ;;
  match sphinx_spice_file_registry e with
  | None => ret doc
  | Some _ => p <- walk h (post_depth e doc) doc ;; ret (fst p)
  end.

End ResolveTitlesInspice_simulations.

Module ResolveLinkTextTospice_simulations.

(** The reference node after [inline.children = []; inline += Text(text);
    node.children[0] = inline].  A [Text] first child is a [str]: [+=]
    concatenates and leaves a plain [str] as the first child, on which the
    traversal, as it goes on below the reference, raises
    [AttributeError]. *)
Definition set_link_text (text : string) (node_ : node) : result node :=
  match node_children node_ with
  | [] => Raise IndexError
  | Text _ :: _ => Raise AttributeError
  | (Element _ _ _ _ _ as inline_) :: rest =>
      Ok (set_children (set_children [Text text] inline_ :: rest) node_)
  end.

(** The body of the loop of [run] for one [reference] node.  Where it
    resolves the target first, the registered object is rewritten in the
    store; the tree handed to the traversal is a value, so the change to a
    block of the tree that is the registered object is not part of the node
    returned here. *)
Definition visit (h : host) (node_ : node) : M node :=
  e <- get_env ;;
  let refid_ := refid (node_attrs node_) in
  match refid_ with
  | None => ret node_
  | Some l =>
      match registry_of e !! l with
      | None => ret node_
      | Some target =>
          match deref e (e_node target) with
          | None => ret node_
          | Some target_node =>
              let node1 :=
                if bool_decide (builder_format h = "latex")
                   && is_instance spice_file_enumerable_node target_node
                then new_element spice_file_latex_number_reference
                       (node_attrs node_) (node_children node_)
                else node_ in
              if is_instance spice_simulation_node target_node then
                target_node' <-
                  (if negb (node_resolved_title target_node) then
                     file_node <- registry_get_node (target_label (node_attrs target_node)) ;;
                     resolved <- resolve_spice_simulation_title h target_node file_node ;;
                     modify_env (mutate (e_node target) (fun _ => resolved)) ;;;
                     ret resolved
                   else ret target_node) ;;
                title_ <- lift (first_child target_node') ;;
                lift (set_link_text (astext title_) node1)
              else ret node1
          end
      end
  end.

Fixpoint walk (h : host) (depth : nat) (n : node) : M node :=
  match depth with
  | O => out_of_fuel
  | S depth' =>
      n1 <- (if is_instance reference n then visit h n else ret n) ;;
      match n1 with
      | Text _ => ret n1
      | Element c a g r cs =>
          cs' <- mmap (walk h depth') cs ;;
          ret (Element c a g r cs')
      end
  end.

Definition run (h : host) (doc : node) : M node :=
  e <- get_env ;;
  match sphinx_spice_file_registry e with
  | None => ret doc
  | Some _ => walk h (post_depth e doc) doc
  end.

End ResolveLinkTextTospice_simulations.

(** ** Predicates the properties are stated with *)

(** A token of the gated registry is ["S"] or ["E"]. *)
Definition is_token (t : string) : Prop := t = "S" \/ t = "E".

Definition count_token (t : string) (ts : list string) : nat :=
  length (List.filter (String.eqb t) ts).

(** [n] disjoint contiguous pairs: [S E S E ... S E]. *)
Definition flat_pairs (n : nat) : list string := concat (replicate n ["S"; "E"]).

(** What the gated directives maintain: every token is an ["S"] or an ["E"],
    one ["S"] per recorded start and one ["E"] per recorded end. *)
Record well_formed_record (r : gated_record) : Prop := {
  wf_tokens : Forall is_token (g_sequence r);
  wf_starts : length (g_start r) = count_token "S" (g_sequence r);
  wf_ends : length (g_end r) = count_token "E" (g_sequence r);
}.

Definition structure_of (r : gated_record) : string := Py.join (Py.nl +:+ "  ") (g_msg r).

Definition log_error (msg : string) (e : env) : env :=
  set_log (log e ++ [{| level := LogError; message := msg; location := None |}]) e.

Definition log_warning (msg path : string) (e : env) : env :=
  set_log (log e ++ [{| level := LogWarning; message := msg; location := Some path |}]) e.

(** [p] holds of no node of the tree. *)
Fixpoint free_of (p : node -> bool) (n : node) : bool :=
  match n with
  | Text _ => negb (p n)
  | Element _ _ _ _ cs => negb (p n) && forallb (free_of p) cs
  end.

Definition is_sim_start (n : node) : bool := is_instance spice_simulation_start_node n.
Definition is_sim_end (n : node) : bool := is_instance spice_simulation_end_node n.
Definition is_file_end (n : node) : bool := is_instance spice_file_end_node n.
Definition is_gated_file (n : node) : bool :=
  MergeGatedspice_files.is_file n && node_gated n.

(** The start and end markers of gated pairs: a simulation start node, a
    file block still flagged [gated], and the two end nodes. *)
Definition is_marker (n : node) : bool :=
  is_sim_start n || is_gated_file n || is_sim_end n || is_file_end n.

Definition marker_free (n : node) : bool := free_of is_marker n.

(** A file block of class [cls] still flagged [gated]. *)
Definition gated_of (cls : node_class) (n : node) : bool :=
  is_instance cls n && node_gated n.

(** The token the directive of a marker has recorded. *)
Definition token_of (n : node) : option string :=
  if is_sim_start n || is_gated_file n then Some "S"
  else if is_sim_end n || is_file_end n then Some "E"
  else None.

(** The tokens of the markers of a tree, in document order: a directive
    records its token before its body is parsed. *)
Fixpoint tokens (n : node) : list string :=
  match n with
  | Text _ => []
  | Element _ _ _ _ cs => option_list (token_of n) ++ concat (map tokens cs)
  end.

Definition tokens_of (cs : list node) : list string := concat (map tokens cs).

(** In a sibling list, every end marker is of the kind that the start
    marker last seen before it waits for, with no end marker between the
    two. *)
Fixpoint ends_follow (open : option node_class) (cs : list node) : bool :=
  match cs with
  | [] => true
  | c :: r =>
      if is_sim_start c then ends_follow (Some spice_simulation_end_node) r
      else if is_gated_file c then ends_follow (Some spice_file_end_node) r
      else if is_sim_end c || is_file_end c
           then bool_decide (node_cls c = open) && ends_follow None r
      else ends_follow open r
  end.

(** [p] holds of the child list of every element of the tree. *)
Fixpoint every_level (p : list node -> bool) (n : node) : bool :=
  match n with
  | Text _ => true
  | Element _ _ _ _ cs => p cs && forallb (every_level p) cs
  end.

(** A gated file block as [spice_fileDirective.run] builds it: it carries a
    ["type"] and its last child is an element (the content section). *)
Definition file_start_shape (n : node) : bool :=
  negb (is_gated_file n) ||
  match type (node_attrs n), last (node_children n) with
  | Some _, Some (Element _ _ _ _ _) => true
  | _, _ => false
  end.

(** An end marker as the end directives build it holds no marker. *)
Definition end_shape (n : node) : bool :=
  negb (is_sim_end n || is_file_end n) || forallb marker_free (node_children n).

Definition file_labels (cs : list node) : list (option string) :=
  map get_label (List.filter MergeGatedspice_files.is_file cs).

(** [Text] nodes are the children of text elements: the siblings of a
    marker are elements. *)
Definition apart (cs : list node) : bool :=
  forallb is_element cs || forallb (fun c => negb (is_marker c)) cs.

(** A sibling list as the parser and the directives build it: markers of
    the shape the directives give them, file blocks with distinct labels,
    no [Text] beside a marker. *)
Definition built_siblings (cs : list node) : bool :=
  forallb file_start_shape cs && forallb end_shape cs
  && bool_decide (NoDup (file_labels cs)) && apart cs.

(** The token sequence the environment holds for the current document. *)
Definition recorded (e : env) : option gated_record :=
  registry ← sphinx_spice_file_gated_registry e; registry !! env_docname e.

Definition recorded_sequence (e : env) : list string :=
  match recorded e with
  | Some r => g_sequence r
  | None => []
  end.

(** The children of a start node that the merged simulation block keeps. *)
Definition kept_children (s : node) : list node :=
  List.filter (fun c => negb (MergeGatedspice_simulations.is_section c)) (node_children s).

Definition file_updated (a : attributes) (ty : string) : attributes :=
  set_type (Py.replace "-start" "" ty)
    (set_classes (map (Py.replace "-start" "") (classes a)) a).

(** The gated file block [s], of type [ty] and children [before ++
    [content]], after [merge_nodes] has moved the siblings [mid] into it and
    [apply] has cleared its flag. *)
Definition file_merged (s : node) (ty : string) (before : list node) (content : node)
    (mid : list node) : node :=
  set_gated false
    (set_children (before ++ [extend_children mid content])
                  (set_attrs (file_updated (node_attrs s) ty) s)).

(** A sibling list in which gated pairs lie flat: nodes without any marker,
    elements that are no markers and whose children lie flat in turn, with
    distinct labels on the file blocks among them, and pairs of a start
    marker and an end marker of its kind with plain elements between
    them. *)
Inductive flat : list node -> Prop :=
| flat_nil : flat []
| flat_plain c cs :
    marker_free c = true -> flat cs -> flat (c :: cs)
| flat_nested c a g r kids cs :
    is_marker (Element c a g r kids) = false ->
    NoDup (file_labels kids) ->
    flat kids -> flat cs -> flat (Element c a g r kids :: cs)
| flat_sim s mid e cs :
    is_sim_start s = true ->
    Forall (fun c => marker_free c = true) (node_children s) ->
    Forall (fun c => marker_free c = true) mid ->
    Forall (fun c => is_element c = true) mid ->
    is_sim_end e = true ->
    Forall (fun c => marker_free c = true) (node_children e) ->
    flat cs -> flat (s :: mid ++ e :: cs)
| flat_file s ty before content mid e cs :
    is_gated_file s = true ->
    type (node_attrs s) = Some ty ->
    node_children s = before ++ [content] ->
    node_cls content <> None ->
    Forall (fun c => marker_free c = true) (node_children s) ->
    Forall (fun c => marker_free c = true) mid ->
    Forall (fun c => is_element c = true) mid ->
    is_file_end e = true ->
    Forall (fun c => marker_free c = true) (node_children e) ->
    flat cs -> flat (s :: mid ++ e :: cs).

(** The directive [d] with the nodes [c] as its parsed body. *)
Definition with_content (c : list node) (d : directive) : directive :=
  {| opt_label := opt_label d; opt_class := opt_class d;
     opt_nonumber := opt_nonumber d; opt_hidden := opt_hidden d;
     arguments := arguments d; lineno := lineno d; content := c;
     subtitle_nodes := subtitle_nodes d |}.

(** The elements above a sibling list, from the root down: each with the
    children before and after the one that leads to the list. *)
Record frame := {
  f_cls : node_class;
  f_attrs : attributes;
  f_gated : bool;
  f_resolved : bool;
  f_before : list node;
  f_after : list node;
}.

Fixpoint fill (fs : list frame) (n : node) : node :=
  match fs with
  | [] => n
  | f :: fs' =>
      Element (f_cls f) (f_attrs f) (f_gated f) (f_resolved f)
              (f_before f ++ fill fs' n :: f_after f)
  end.

(** A frame that is no marker and holds none beside the child it leads
    to. *)
Definition plain_frame (f : frame) : Prop :=
  is_marker (Element (f_cls f) (f_attrs f) (f_gated f) (f_resolved f) []) = false /\
  Forall (fun x => marker_free x = true) (f_before f) /\
  Forall (fun x => marker_free x = true) (f_after f).

(** The node [n] with [f] applied to each of its class tags. *)
Definition map_classes (f : string -> string) (n : node) : node :=
  set_attrs (set_classes (map f (classes (node_attrs n))) (node_attrs n)) n.

(** The nodes the end directives return. *)
Definition file_end : node := new_element spice_file_end_node no_attributes [].
Definition simulation_end : node := new_element spice_simulation_end_node no_attributes [].

(** What a resolved simulation title reads: the simulation's own title,
    the title text of the file block, its number when it is numbered, and
    its subtitle in parentheses when it has one. *)
Definition composed_title_text (h : host) (node_ file_node : node) : string :=
  let file_title := default (Text "") (head (node_children file_node)) in
  default "" (title_attr (node_attrs node_))
  +:+ " " +:+ astext (default (Text "") (head (node_children file_title)))
  +:+ (if is_instance spice_file_enumerable_node file_node
       then " " +:+ get_node_number h file_node else "")
  +:+ match node_children file_title with
      | _ :: subtitle :: _ =>
          if is_instance spice_file_subtitle subtitle
          then " (" +:+ Py.join "" (map astext (node_children subtitle)) +:+ ")"
          else ""
      | _ => ""
      end.

(** ** A small build, for the examples *)

Definition example_host : host :=
  {| doc2path := fun d => "/src/" +:+ d +:+ ".rst";
     get_relative_uri := fun _ to => to +:+ ".html";
     get_node_number := fun _ => "1";
     find_parent := fun _ => "index";
     fully_normalize_name := fun s => s;
     numfig_format := "File %s";
     percent_format := fun fmt arg => Py.replace "%s" arg fmt;
     builder_format := "html";
     is_latex_builder := false;
     current_docname := Some "index" |}.

Definition fresh_env : env :=
  {| env_docname := "index"; serialno := 0; hide_spice_simulations := false;
     sphinx_spice_file_registry := None; sphinx_spice_file_gated_registry := None;
     objects := []; has_equations := ∅; log := [] |}.

Definition example_directive (label target : string) (line : nat) : directive :=
  {| opt_label := Some label; opt_class := None; opt_nonumber := false;
     opt_hidden := false; arguments := [target]; lineno := line; content := [];
     subtitle_nodes := [] |}.

Definition example_file_directive (label : string) (line : nat) : directive :=
  {| opt_label := Some label; opt_class := None; opt_nonumber := false;
     opt_hidden := false; arguments := []; lineno := line; content := [];
     subtitle_nodes := [] |}.

Definition paragraph (text : string) : node :=
  new_element (other_element "paragraph") no_attributes [Text text].

Definition container (cs : list node) : node :=
  new_element (other_element "container") no_attributes cs.

(** The environment after [steps] have run in turn, each on the environment
    the one before has left. *)
Definition after (steps : list (M (list nat))) (e : env) : env :=
  foldl (fun e step => snd (step e)) e steps.

Definition object_at (e : env) (r : nat) : node := default (Text "") (deref e r).

(** A simulation start marker at the top of the document, its end marker
    inside a container. *)
Definition env_split_depth : env :=
  after [spice_simulationStartDirective_run example_host (example_directive "sim-a" "file-a" 3);
         spice_simulationEndDirective_run (example_file_directive "" 9)] fresh_env.

Definition doc_split_depth : node :=
  new_element document no_attributes
    [object_at env_split_depth 0;
     container [paragraph "body"; object_at env_split_depth 1]].

(** The same two markers as siblings, inside a container. *)
Definition doc_same_depth : list node :=
  [paragraph "before";
   container [object_at env_split_depth 0; paragraph "body"; object_at env_split_depth 1];
   paragraph "after"].

(** Markers of both kinds in one document, interleaved and one after the
    other. *)
Definition env_interleaved : env :=
  after [spice_fileStartDirective_run example_host (example_file_directive "file-a" 1);
         spice_simulationStartDirective_run example_host (example_directive "sim-a" "file-a" 2);
         spice_fileEndDirective_run (example_file_directive "" 3);
         spice_simulationEndDirective_run (example_file_directive "" 4)] fresh_env.

Definition env_in_turn : env :=
  after [spice_fileStartDirective_run example_host (example_file_directive "file-a" 1);
         spice_fileEndDirective_run (example_file_directive "" 2);
         spice_simulationStartDirective_run example_host (example_directive "sim-a" "file-a" 3);
         spice_simulationEndDirective_run (example_file_directive "" 4)] fresh_env.

(** A file block, a simulation of an unregistered label, and a simulation of
    the file block. *)
Definition env_ghost : env :=
  after [spice_fileDirective_run example_host "spice_file" (example_file_directive "file-a" 1);
         spice_simulationDirective_run example_host "spice_simulation" spice_simulation_node
           (example_directive "sim-ghost" "ghost" 5);
         spice_simulationDirective_run example_host "spice_simulation" spice_simulation_node
           (example_directive "sim-a" "file-a" 9)] fresh_env.

Definition doc_ghost : node :=
  new_element document no_attributes
    [object_at env_ghost 0; object_at env_ghost 2; object_at env_ghost 3].

Definition doc_without_ghost : node :=
  new_element document no_attributes [object_at env_ghost 0; object_at env_ghost 3].

(** A cross-reference as the standard domain resolves it. *)
Definition reference_to (target text : string) : node :=
  new_element reference
    {| ids := []; classes := []; names := []; label := None; docname := None;
       title_attr := None; type := None; hidden := None; serial_number := None;
       target_label := None; reftype := None; reftarget := None;
       refexplicit := None; refid := Some target; refuri := None;
       internal := Some true; anchorname := None |}
    [new_element inline (set_classes ["std"; "std-ref"] no_attributes) [Text text]].

(** A [pending_xref] with author-supplied text. *)
Definition explicit_xref (target text : string) : node :=
  new_element pending_xref
    {| ids := []; classes := []; names := []; label := None; docname := None;
       title_attr := None; type := None; hidden := None; serial_number := None;
       target_label := None; reftype := Some "ref"; reftarget := Some target;
       refexplicit := Some true; refid := None; refuri := None;
       internal := None; anchorname := None |}
    [new_element inline (set_classes ["xref"; "std"; "std-ref"] no_attributes) [Text text]].

(** The warning [duplicate_labels] logs for [label], registered before from
    the document of [other]. *)
Definition duplicate_warning (h : host) (label : string) (other : entry) (e : env)
  : log_record :=
  {| level := LogWarning;
     message := duplicate_label_msg label (doc2path h (e_docname other));
     location := Some (strip_suffix (doc2path h (env_docname e))) |}.

(** The environment a first registration of [label] leaves: the serial
    number is taken, [cells] are new objects, the registry maps [label] to
    [v]. *)
Definition registered (label : string) (v : entry) (cells : list node) (e : env) : env :=
  set_registry (Some (<[label := v]> (registry_of e)))
    (set_objects (objects e ++ cells) (set_serialno (S (serialno e)) e)).

Definition start_msg (kind : string) (line : nat) : string :=
  kind +:+ "-start at line: " +:+ Py.str_of_nat line.
Definition end_msg (kind : string) (line : nat) : string :=
  kind +:+ "-end at line: " +:+ Py.str_of_nat line.

(** The record of the current document, or the one a directive of [kind]
    creates when there is none. *)
Definition recorded_or_new (kind : string) (e : env) : gated_record :=
  default (empty_gated_record kind) (recorded e).

Definition file_section (c : list node) : node :=
  new_element section (set_ids ["spice_file-content"] no_attributes) c.

Definition file_class (d : directive) : node_class :=
  if opt_nonumber d then spice_file_node else spice_file_enumerable_node.

(** The reference node with [text] as the only content of its first child. *)
Definition with_link_text (text : string) (node_ inline_ : node) (rest : list node) : node :=
  set_children (set_children [Text text] inline_ :: rest) node_.

(** The in-place change the simulation merge makes to the attribute
    dictionary of a start node. *)
Definition merge_in_place (n : node) : node :=
  set_attrs (MergeGatedspice_simulations.merged_attributes (node_attrs n)) n.

(** The simulation of the unregistered label and a reference to it. *)
Definition doc_reference_to_ghost : node :=
  new_element document no_attributes
    [object_at env_ghost 2; container [reference_to "sim-ghost" "see"]].

(** Short names for the passes. *)
Module Sims := MergeGatedspice_simulations.
Module Files := MergeGatedspice_files.
Module Upgrade := UpdateReferencesToEnumerated.
Module FileTitles := ResolveTitlesInspice_files.
Module SimTitles := ResolveTitlesInspice_simulations.
Module LinkText := ResolveLinkTextTospice_simulations.

(** The environment after the simulation start and end directives have run
    in the order of [tokens], ["S"] for a start and anything else for an
    end, each on a line of its own. *)
Definition env_of_sequence (tokens : list string) : env :=
  after (imap (fun i t =>
           if String.eqb t "S"
           then spice_simulationStartDirective_run example_host
                  (example_directive ("sim-" +:+ Py.str_of_nat i) "file-a" (S i))
           else spice_simulationEndDirective_run (example_file_directive "" (S i)))
         tokens) fresh_env.

(** The entry the file directive of the example has registered. *)
Definition entry_file_a : entry :=
  {| e_type := "spice_file"; e_docname := "index"; e_node := 1 |}.

Definition entry_sim_a : entry :=
  {| e_type := "spice_simulation"; e_docname := "index"; e_node := 3 |}.

Definition example_document (cs : list node) : node :=
  Element document no_attributes false false cs.

(** ** Predicates and examples for the further properties *)

(** No character of [s] is a dot. *)
Fixpoint no_dot (s : string) : bool :=
  match s with
  | EmptyString => true
  | String c r => negb (Ascii.eqb c ".") && no_dot r
  end.

(** A directive with the [hidden] flag, for the examples. *)
Definition hidden_directive (label target : string) : directive :=
  {| opt_label := Some label; opt_class := None; opt_nonumber := true;
     opt_hidden := true; arguments := [target]; lineno := 1; content := [];
     subtitle_nodes := [] |}.

(** A file directive with the [hidden] flag and no subtitle. *)
Definition hidden_file_directive (label : string) : directive :=
  {| opt_label := Some label; opt_class := None; opt_nonumber := true;
     opt_hidden := true; arguments := []; lineno := 1; content := [];
     subtitle_nodes := [] |}.

(** A build that hides the simulation blocks. *)
Definition env_hiding : env :=
  {| env_docname := "index"; serialno := 0; hide_spice_simulations := true;
     sphinx_spice_file_registry := None; sphinx_spice_file_gated_registry := None;
     objects := []; has_equations := ∅; log := [] |}.

(** A directive without a [label] option, for the examples. *)
Definition unlabelled_directive (line : nat) : directive :=
  {| opt_label := None; opt_class := None; opt_nonumber := false;
     opt_hidden := false; arguments := []; lineno := line; content := [];
     subtitle_nodes := [] |}.

(** What [find_nodes] returns for the child list [cs]: the first child
    that is a start node, and the first end node from there on, which lies
    after it. *)
Definition found_pair (is_start is_end : node -> bool) (cs : list node)
    (r : option nat * option nat) : Prop :=
  match r with
  | (Some s, Some e) =>
      s < e < length cs /\
      (exists x, cs !! s = Some x /\ is_start x = true) /\
      (forall j x, j < s -> cs !! j = Some x -> is_start x = false) /\
      (exists y, cs !! e = Some y /\ is_end y = true) /\
      (forall j y, s <= j < e -> cs !! j = Some y -> is_end y = false)
  | (Some s, None) =>
      (exists x, cs !! s = Some x /\ is_start x = true) /\
      (forall j x, j < s -> cs !! j = Some x -> is_start x = false) /\
      (forall j y, s <= j -> cs !! j = Some y -> is_end y = false)
  | (None, Some _) => False
  | (None, None) => Forall (fun x => is_start x = false) cs
  end.

(** The tree with the [gated] flag cleared on the nodes of which [p]
    holds. *)
Fixpoint clear_where (p : node -> bool) (n : node) : node :=
  match n with
  | Text _ => n
  | Element c a g r cs =>
      Element c a (if p n then false else g) r (map (clear_where p) cs)
  end.

(** The [gated] flag of every file block of the tree cleared. *)
Definition clear_gated (n : node) : node := clear_where MergeGatedspice_files.is_file n.

(** The two directive runs of one gated pair: a file pair or a simulation
    pair. *)
Definition gated_pair (h : host) (of_file : bool) (s t : directive) : list (M (list nat)) :=
  if of_file
  then [spice_fileStartDirective_run h s; spice_fileEndDirective_run t]
  else [spice_simulationStartDirective_run h s; spice_simulationEndDirective_run t].

(** The directive runs of the pairs of a document, in their order. *)
Definition gated_pairs (h : host) (pairs : list (bool * directive * directive))
  : list (M (list nat)) :=
  flat_map (fun p => gated_pair h (fst (fst p)) (snd (fst p)) (snd p)) pairs.

(** A record of [n] pairs, each closed before the next begins. *)
Definition paired_record (n : nat) (r : gated_record) : Prop :=
  g_sequence r = flat_pairs n /\ length (g_start r) = n /\ length (g_end r) = n.

(** The first child of the node, when it is an element, is a text
    element (an [inline], a [literal]): its text is the text of its
    children, one after the other. *)
Definition has_text_head (n : node) : Prop :=
  match node_children n with
  | Element k _ _ _ _ :: _ => is_text_element k = true
  | _ => True
  end.

(** A [pending_xref] of the role [ref] without text of the author's. *)
Definition plain_xref (target text : string) : node :=
  new_element pending_xref
    {| ids := []; classes := []; names := []; label := None; docname := None;
       title_attr := None; type := None; hidden := None; serial_number := None;
       target_label := None; reftype := Some "ref"; reftarget := Some target;
       refexplicit := Some false; refid := None; refuri := None;
       internal := None; anchorname := None |}
    [new_element inline (set_classes ["xref"; "std"; "std-ref"] no_attributes) [Text text]].

(** A cross-reference of the role [term] to the label of a numbered file
    block. *)
Definition term_xref (target text : string) : node :=
  new_element pending_xref
    {| ids := []; classes := []; names := []; label := None; docname := None;
       title_attr := None; type := None; hidden := None; serial_number := None;
       target_label := None; reftype := Some "term"; reftarget := Some target;
       refexplicit := Some false; refid := None; refuri := None;
       internal := None; anchorname := None |}
    [new_element inline (set_classes ["xref"; "std"; "std-term"] no_attributes) [Text text]].

(** What the resolved title of a file block reads: the default text for a
    block without number, the formatted number for a numbered block under
    the LaTeX builder and nothing under another builder, then the subtitle
    in parentheses when the directive was given one. *)
Definition file_title_text (h : host) (d : directive) (n : node) : string :=
  (if opt_nonumber d then "spice_file"
   else if bool_decide (builder_format h = "latex")
        then percent_format h (numfig_format h) (get_node_number h n)
        else "")
  +:+ match arguments d with
      | [] => ""
      | _ :: _ => " (" +:+ Py.join "" (map astext (subtitle_nodes d)) +:+ ")"
      end.

(** The simulation block still has its placeholder title and the subtitle
    of the file block holds a [math] node. *)
Definition needs_mathjax (node_ file_node : node) : bool :=
  match node_children node_, node_children file_node with
  | title_ :: _, file_title :: _ =>
      is_instance spice_simulation_title title_ &&
      match node_children file_title with
      | _ :: subtitle :: _ =>
          is_instance spice_file_subtitle subtitle &&
          existsb (is_instance math) (node_children subtitle)
      | _ => false
      end
  | _, _ => false
  end.

(** A numbered file block whose subtitle holds a formula, and a simulation
    of it. *)
Definition math_directive : directive :=
  {| opt_label := Some "file-m"; opt_class := None; opt_nonumber := false;
     opt_hidden := false; arguments := ["E = mc2"]; lineno := 1; content := [];
     subtitle_nodes := [new_element math no_attributes [Text "E = mc2"]] |}.

(** The environment after the two directives have run. *)
Definition env_math : env :=
  after [spice_fileDirective_run example_host "spice_file" math_directive;
         spice_simulationDirective_run example_host "spice_simulation" spice_simulation_node
           (example_directive "sim-m" "file-m" 5)] fresh_env.

(** A file block that title resolution has not marked. *)
Definition unresolved_file (n : node) : bool :=
  is_spice_file_node n && negb (node_resolved_title n).

(** A simulation block that title resolution has not marked. *)
Definition unresolved_simulation (n : node) : bool :=
  is_instance spice_simulation_node n && negb (node_resolved_title n).

(** * Verified properties *)

(** ** Trees, lists and results *)

Lemma node_ind_children (P : node -> Prop) :
  (forall s, P (Text s)) ->
  (forall c a g r cs, Forall P cs -> P (Element c a g r cs)) ->
  forall n, P n.
Proof.
  intros HT HE. fix IH 1. intros [s|c a g r cs]; [apply HT|].
  apply HE. induction cs as [|x xs IHxs]; constructor; [apply IH|apply IHxs].
Qed.

Lemma rmap_id {A} (f : A -> result A) (l : list A) :
  Forall (fun x => f x = Ok x) l -> rmap f l = Ok l.
Proof.
  induction 1 as [|x xs Hx _ IH]; [done|]. simpl. by rewrite Hx, IH.
Qed.

Lemma height_child (c : node) (cs : list node) :
  c ∈ cs -> node_height c <= foldr Nat.max 0 (map node_height cs).
Proof.
  induction 1; simpl; lia.
Qed.

Lemma forallb_Forall_true {A} (f : A -> bool) (l : list A) :
  forallb f l = true <-> Forall (fun x => f x = true) l.
Proof.
  induction l as [|x xs IH]; simpl.
  - split; [constructor|done].
  - rewrite andb_true_iff, IH. split.
    + intros [? ?]. by constructor.
    + by inversion 1.
Qed.

Lemma free_of_children p c a g r cs :
  free_of p (Element c a g r cs) = true -> Forall (fun x => free_of p x = true) cs.
Proof.
  simpl. intros [_ H]%andb_prop. by apply forallb_Forall_true.
Qed.

Lemma free_of_here p n : free_of p n = true -> p n = false.
Proof.
  destruct n; simpl; [|intros [H _]%andb_prop]; intros; by apply negb_true_iff.
Qed.

Lemma free_of_weaken (p q : node -> bool) n :
  (forall x, q x = true -> p x = true) -> free_of p n = true -> free_of q n = true.
Proof.
  intros Hpq. induction n as [s|c a g r cs IH] using node_ind_children; simpl.
  - intros H%negb_true_iff. apply negb_true_iff.
    destruct (q (Text s)) eqn:E; [|done]. apply Hpq in E. congruence.
  - intros [H1%negb_true_iff H2]%andb_prop. apply andb_true_intro. split.
    + apply negb_true_iff. destruct (q (Element c a g r cs)) eqn:E; [|done].
      apply Hpq in E. congruence.
    + apply forallb_Forall_true. apply forallb_Forall_true in H2.
      clear H1. revert H2. induction IH as [|x xs Hx _ IHxs]; intros H2; [constructor|].
      inversion H2; subst. constructor; [by apply Hx|by apply IHxs].
Qed.

(** *** The simulation merge leaves trees without start nodes alone *)

Lemma sims_loop_id rec k i cs :
  Forall (fun c => is_sim_start c = false /\ rec c = Ok c) cs ->
  Sims.loop rec k i cs = Ok cs.
Proof.
  revert i cs. induction k as [|k IH]; intros i cs H; [done|].
  simpl. destruct (cs !! i) as [c|] eqn:E; [|done].
  assert (Hc : is_sim_start c = false /\ rec c = Ok c).
  { rewrite Forall_forall in H. apply H. by eapply list_elem_of_lookup_2. }
  destruct Hc as [Hs Hr]. unfold is_sim_start in Hs. rewrite Hs, Hr. simpl.
  rewrite list_insert_id by done. by apply IH.
Qed.

Lemma sims_walk_id d t :
  node_height t <= d -> free_of is_sim_start t = true -> Sims.walk d t = Ok t.
Proof.
  revert t. induction d as [|d IH]; intros t Hh Hf.
  - destruct t; simpl in Hh; lia.
  - destruct t as [s|c a g r cs]; [done|]. simpl.
    rewrite sims_loop_id; [done|].
    apply Forall_forall. intros x Hx.
    pose proof (free_of_children _ _ _ _ _ _ Hf) as Hcs.
    rewrite Forall_forall in Hcs. specialize (Hcs x Hx). split.
    + by apply free_of_here.
    + apply IH; [|done]. simpl in Hh. pose proof (height_child x cs Hx). lia.
Qed.

(** *** List surgery around a start node at index [length done] *)

Lemma insert_middle {A} (done : list A) x y tl :
  <[length done := x]> (done ++ y :: tl) = done ++ x :: tl.
Proof. induction done as [|d ds IH]; simpl; [done|]. by rewrite IH. Qed.

Lemma lookup_middle {A} (done : list A) x tl :
  (done ++ x :: tl) !! length done = Some x.
Proof. induction done; simpl; done. Qed.

Lemma slice_middle {A} (done : list A) x mid tl :
  Py.slice (done ++ x :: mid ++ tl) (length done + 1) (length done + S (length mid)) = mid.
Proof.
  unfold Py.slice.
  replace (length done + S (length mid) - (length done + 1)) with (length mid) by lia.
  rewrite drop_app_add. simpl. rewrite drop_0. by rewrite take_app_length.
Qed.

Lemma without_middle {A} (done : list A) x mid y tl :
  take (length done + 1) (done ++ x :: mid ++ y :: tl)
  ++ drop (length done + 1 + S (length mid)) (done ++ x :: mid ++ y :: tl)
  = done ++ x :: tl.
Proof.
  rewrite take_app_add. simpl. rewrite take_0.
  replace (length done + 1 + S (length mid)) with (length done + S (S (length mid))) by lia.
  rewrite drop_app_add. simpl.
  replace (S (length mid)) with (length mid + 1) by lia.
  rewrite drop_app_add. simpl. rewrite drop_0. by rewrite <- app_assoc.
Qed.

Lemma remove_children_elements k p l i :
  i < p ->
  Forall (fun c => is_element c = true) (take k (drop p l)) ->
  remove_children k p l i = (take p l ++ drop (p + k) l, i).
Proof.
  intros Hi. revert l. induction k as [|k IH]; intros l Hel.
  - simpl. by rewrite Nat.add_0_r, take_drop.
  - cbn [remove_children]. destruct (l !! p) as [x|] eqn:Hx.
    + rewrite (drop_S l x p Hx) in Hel. cbn [take] in Hel.
      apply Forall_cons in Hel as [Hxe Hrest].
      destruct x as [t|c a g r cs]; [done|].
      assert (Hlt : (p <? i)%nat = false) by (apply Nat.ltb_ge; lia).
      rewrite Hlt.
      assert (Hlen : p < length l) by (by eapply lookup_lt_Some).
      assert (Hdel : delete p l = take p l ++ drop (S p) l) by apply delete_take_drop.
      rewrite IH.
      * rewrite Hdel.
        rewrite take_app_length' by (rewrite length_take_le; lia).
        rewrite drop_app_ge by (rewrite length_take_le; lia).
        rewrite length_take_le by lia. rewrite drop_drop.
        by replace (S p + (p + k - p)) with (p + S k) by lia.
      * rewrite Hdel. by rewrite drop_app_length' by (rewrite length_take_le; lia).
    + apply lookup_ge_None in Hx.
      rewrite take_ge by lia. rewrite drop_ge by lia. by rewrite app_nil_r.
Qed.

Lemma remove_children_middle done x mid y tl :
  Forall (fun c => is_element c = true) mid ->
  is_element y = true ->
  remove_children (S (length mid)) (length done + 1) (done ++ x :: mid ++ y :: tl)
                  (length done)
  = (done ++ x :: tl, length done).
Proof.
  intros Hmid Hy. rewrite remove_children_elements.
  - by rewrite without_middle.
  - lia.
  - rewrite drop_app_add. simpl. rewrite drop_0.
    replace (mid ++ y :: tl) with ((mid ++ [y]) ++ tl) by (by rewrite <- app_assoc).
    replace (S (length mid)) with (length (mid ++ [y])) by (rewrite length_app; simpl; lia).
    rewrite take_app_length. apply Forall_app. split; [done|]. by constructor.
Qed.

Lemma index_where_middle {A} (p : A -> bool) done x tl :
  Forall (fun c => p c = false) done -> p x = true ->
  index_where p (done ++ x :: tl) = Some (length done).
Proof.
  induction 1 as [|d ds Hd _ IH]; intros Hx; simpl.
  - by rewrite Hx.
  - rewrite Hd. by rewrite IH.
Qed.

Lemma sims_find_nodes_pair done s mid e rest :
  Forall (fun c => is_sim_start c = false) done ->
  is_sim_start s = true ->
  Forall (fun c => is_sim_end c = false) mid ->
  is_sim_end e = true ->
  Sims.find_nodes (get_label s) (done ++ s :: mid ++ e :: rest)
  = (Some (length done), Some (length done + S (length mid))).
Proof.
  intros Hdone Hs Hmid He. unfold Sims.find_nodes.
  rewrite (index_where_middle _ done s).
  - rewrite drop_app_length.
    change (s :: mid ++ e :: rest) with ([s] ++ mid ++ e :: rest).
    rewrite app_assoc.
    rewrite (index_where_middle _ ([s] ++ mid) e); [by rewrite length_app| |done].
    constructor; [|done].
    unfold is_sim_start, is_sim_end, is_instance in *.
    apply bool_decide_eq_true in Hs. rewrite Hs. by apply bool_decide_eq_false.
  - eapply Forall_impl; [exact Hdone|]. intros c Hc. unfold is_sim_start in Hc. by rewrite Hc.
  - unfold is_sim_start in Hs. rewrite Hs. simpl. by apply bool_decide_eq_true.
Qed.

Lemma sims_loop_pair rec k done s mid e rest :
  Forall (fun c => is_sim_start c = false) done ->
  is_sim_start s = true ->
  Forall (fun c => rec c = Ok c) (node_children s) ->
  rec s = Ok s ->
  Forall (fun c => is_sim_end c = false) mid ->
  Forall (fun c => is_element c = true) mid ->
  is_sim_end e = true ->
  Sims.loop rec (S k) (length done) (done ++ s :: mid ++ e :: rest) =
  Sims.loop rec k (S (length done))
    (done ++ Sims.new_node (node_attrs s) (kept_children s) mid :: rest).
Proof.
  intros Hdone Hs Hkids Hrec Hmid Hel He.
  assert (Hee : is_element e = true) by (by destruct e).
  cbn [Sims.loop]. rewrite lookup_middle.
  pose proof Hs as Hs'. unfold is_sim_start in Hs'. rewrite Hs'.
  rewrite sims_find_nodes_pair by done.
  replace (length done + S (length mid)) with (S (length done + length mid)) by lia.
  rewrite rmap_id.
  2:{ apply Forall_forall. intros x Hx. rewrite Forall_forall in Hkids. apply Hkids.
      apply list_elem_of_In in Hx. apply filter_In in Hx as [Hx _].
      by apply list_elem_of_In. }
  cbn [rbind]. rewrite Hrec. cbn [rbind].
  rewrite !insert_middle.
  replace (S (length done + length mid) - length done) with (S (length mid)) by lia.
  replace (S (length done + length mid)) with (length done + S (length mid)) by lia.
  rewrite slice_middle, remove_children_middle by done. reflexivity.
Qed.

(** *** The file merge *)

Lemma set_gated_false_id n : node_gated n = false -> set_gated false n = n.
Proof. destruct n; simpl; [done|]. by intros ->. Qed.

Lemma files_loop_id cls rec k i cs :
  Forall (fun c => gated_of cls c = false /\ rec c = Ok c) cs ->
  Files.loop cls rec k i cs = Ok cs.
Proof.
  revert i cs. induction k as [|k IH]; intros i cs H; [done|].
  simpl. destruct (cs !! i) as [c|] eqn:E; [|done].
  assert (Hc : gated_of cls c = false /\ rec c = Ok c).
  { rewrite Forall_forall in H. apply H. by eapply list_elem_of_lookup_2. }
  destruct Hc as [Hg Hr]. unfold gated_of in Hg.
  destruct (is_instance cls c) eqn:Hi; simpl in Hg.
  - rewrite Hg. cbn [rbind]. rewrite E. rewrite set_gated_false_id by done.
    rewrite Hr. cbn [rbind]. rewrite list_insert_id by done. by apply IH.
  - rewrite Hr. cbn [rbind]. rewrite list_insert_id by done. by apply IH.
Qed.

Lemma files_walk_id cls d t :
  node_height t <= d -> free_of (gated_of cls) t = true -> Files.walk cls d t = Ok t.
Proof.
  revert t. induction d as [|d IH]; intros t Hh Hf.
  - destruct t; simpl in Hh; lia.
  - destruct t as [s|c a g r cs]; [done|]. simpl.
    rewrite files_loop_id; [done|].
    apply Forall_forall. intros x Hx.
    pose proof (free_of_children _ _ _ _ _ _ Hf) as Hcs.
    rewrite Forall_forall in Hcs. specialize (Hcs x Hx). split.
    + by apply free_of_here.
    + apply IH; [|done]. simpl in Hh. pose proof (height_child x cs Hx). lia.
Qed.

Lemma files_find_nodes_pair done s mid e rest :
  Forall (fun c => (Files.is_file c && bool_decide (get_label s = get_label c)) = false) done ->
  Files.is_file s = true ->
  Forall (fun c => is_file_end c = false) mid ->
  is_file_end e = true ->
  Files.find_nodes (get_label s) (done ++ s :: mid ++ e :: rest)
  = (Some (length done), Some (length done + S (length mid))).
Proof.
  intros Hdone Hs Hmid He. unfold Files.find_nodes.
  rewrite (index_where_middle _ done s); [|done|].
  - rewrite drop_app_length.
    change (s :: mid ++ e :: rest) with ([s] ++ mid ++ e :: rest).
    rewrite app_assoc.
    rewrite (index_where_middle _ ([s] ++ mid) e); [by rewrite length_app| |done].
    constructor; [|done].
    unfold Files.is_file, is_file_end, is_instance in *.
    apply orb_true_iff in Hs as [Hs|Hs]; apply bool_decide_eq_true in Hs;
      rewrite Hs; by apply bool_decide_eq_false.
  - rewrite Hs. simpl. by apply bool_decide_eq_true.
Qed.

Lemma files_loop_pair cls rec k done s ty before content mid e rest :
  Forall (fun c => (Files.is_file c && bool_decide (get_label s = get_label c)) = false) done ->
  is_instance cls s = true ->
  Files.is_file s = true ->
  node_gated s = true ->
  type (node_attrs s) = Some ty ->
  node_children s = before ++ [content] ->
  node_cls content <> None ->
  rec (file_merged s ty before content mid) = Ok (file_merged s ty before content mid) ->
  Forall (fun c => is_file_end c = false) mid ->
  Forall (fun c => is_element c = true) mid ->
  is_file_end e = true ->
  Files.loop cls rec (S k) (length done) (done ++ s :: mid ++ e :: rest) =
  Files.loop cls rec k (S (length done))
    (done ++ file_merged s ty before content mid :: rest).
Proof.
  intros Hdone Hcls Hs Hg Hty Hkids Hcontent Hrec Hmid Hel He.
  assert (Hee : is_element e = true) by (by destruct e).
  cbn [Files.loop]. rewrite lookup_middle. rewrite Hcls, Hg.
  unfold Files.merge_nodes.
  rewrite files_find_nodes_pair by done.
  replace (length done + S (length mid)) with (S (length done + length mid)) by lia.
  rewrite Hty, Hkids. rewrite rev_unit.
  replace (S (length done + length mid)) with (length done + S (length mid)) by lia.
  rewrite slice_middle.
  assert (Hno : (length done <? length done)%nat = false) by (apply Nat.ltb_ge; lia).
  rewrite Hno. cbn [andb].
  replace (length done + S (length mid) - length done) with (S (length mid)) by lia.
  rewrite insert_middle, remove_children_middle by done. rewrite rev_involutive.
  destruct content as [t|cc ca cg cr ccs]; [done|].
  cbn [is_element negb andb rbind]. rewrite lookup_middle.
  unfold file_merged, file_updated in *.
  rewrite Hrec. cbn [rbind]. by rewrite insert_middle.
Qed.

Lemma sims_loop_step rec k done c c' rest :
  is_sim_start c = false ->
  rec c = Ok c' ->
  Sims.loop rec (S k) (length done) (done ++ c :: rest)
  = Sims.loop rec k (S (length done)) (done ++ c' :: rest).
Proof.
  intros Hs Hr. cbn [Sims.loop]. rewrite lookup_middle.
  unfold is_sim_start in Hs. rewrite Hs, Hr. cbn [rbind]. by rewrite insert_middle.
Qed.

Lemma files_loop_step cls rec k done c c' rest :
  gated_of cls c = false ->
  rec c = Ok c' ->
  Files.loop cls rec (S k) (length done) (done ++ c :: rest)
  = Files.loop cls rec k (S (length done)) (done ++ c' :: rest).
Proof.
  intros Hg Hr. cbn [Files.loop]. rewrite lookup_middle.
  unfold gated_of in Hg. destruct (is_instance cls c); simpl in Hg.
  - rewrite Hg. cbn [rbind]. rewrite lookup_middle.
    rewrite set_gated_false_id by done. rewrite Hr. cbn [rbind]. by rewrite insert_middle.
  - rewrite Hr. cbn [rbind]. by rewrite insert_middle.
Qed.

(** *** Sizes *)

Lemma height_le_size n : node_height n <= node_size n.
Proof.
  induction n as [s|c a g r cs IH] using node_ind_children; simpl; [done|].
  apply le_n_S. induction IH as [|x xs Hx _ IHxs]; simpl; [done|]. lia.
Qed.

Lemma node_size_pos n : 1 <= node_size n.
Proof. destruct n; simpl; lia. Qed.

Lemma filter_size (f : node -> bool) l :
  list_sum (map node_size (List.filter f l)) <= list_sum (map node_size l).
Proof. induction l as [|x xs IH]; simpl; [done|]. destruct (f x); simpl; lia. Qed.

Lemma size_child (c : node) (cs : list node) :
  c ∈ cs -> node_size c <= list_sum (map node_size cs).
Proof. induction 1; simpl; lia. Qed.

Lemma file_labels_app l1 l2 : file_labels (l1 ++ l2) = file_labels l1 ++ file_labels l2.
Proof. unfold file_labels. by rewrite List.filter_app, map_app. Qed.

(** *** Marker-free trees under each pass *)

Lemma marker_free_no_sim_start n :
  marker_free n = true -> free_of is_sim_start n = true.
Proof.
  apply free_of_weaken. intros x Hx. unfold is_marker. by rewrite Hx.
Qed.

Lemma marker_free_no_gated cls n :
  cls = spice_file_node \/ cls = spice_file_enumerable_node ->
  marker_free n = true -> free_of (gated_of cls) n = true.
Proof.
  intros Hcls. apply free_of_weaken. intros x Hx. unfold is_marker, is_gated_file.
  unfold gated_of in Hx. apply andb_true_iff in Hx as [H1 H2].
  unfold Files.is_file. destruct Hcls as [-> | ->]; rewrite H1, H2; simpl;
    rewrite ?orb_true_r; done.
Qed.

Lemma sims_walk_below d t :
  node_height t <= d ->
  Forall (fun c => free_of is_sim_start c = true) (node_children t) ->
  Sims.walk d t = Ok t.
Proof.
  intros Hh Hf. destruct d as [|d]; [destruct t; simpl in Hh; lia|].
  destruct t as [s|c a g r cs]; [done|]. simpl in *.
  rewrite sims_loop_id; [done|].
  apply Forall_forall. intros x Hx. rewrite Forall_forall in Hf. split.
  - apply free_of_here. by apply Hf.
  - apply sims_walk_id; [|by apply Hf]. pose proof (height_child x cs Hx). lia.
Qed.

Lemma files_walk_below cls d t :
  node_height t <= d ->
  Forall (fun c => free_of (gated_of cls) c = true) (node_children t) ->
  Files.walk cls d t = Ok t.
Proof.
  intros Hh Hf. destruct d as [|d]; [destruct t; simpl in Hh; lia|].
  destruct t as [s|c a g r cs]; [done|]. simpl in *.
  rewrite files_loop_id; [done|].
  apply Forall_forall. intros x Hx. rewrite Forall_forall in Hf. split.
  - apply free_of_here. by apply Hf.
  - apply files_walk_id; [|by apply Hf]. pose proof (height_child x cs Hx). lia.
Qed.

Lemma sims_loop_end rec k done : Sims.loop rec k (length done) (done ++ []) = Ok (done ++ []).
Proof.
  destruct k; [done|]. simpl. rewrite app_nil_r.
  by rewrite lookup_ge_None_2.
Qed.

Lemma sims_loop_skip rec skip : forall done rest k,
  Forall (fun c => is_sim_start c = false /\ rec c = Ok c) skip ->
  Sims.loop rec (length skip + k) (length done) (done ++ skip ++ rest) =
  Sims.loop rec k (length (done ++ skip)) ((done ++ skip) ++ rest).
Proof.
  induction skip as [|c skip IH]; intros done rest k H.
  - simpl. by rewrite !app_nil_r.
  - inversion H as [|? ? [Hs Hr] H']; subst.
    cbn [length Nat.add app]. cbn [Sims.loop]. rewrite lookup_middle.
    unfold is_sim_start in Hs. rewrite Hs, Hr. cbn [rbind].
    rewrite list_insert_id by apply lookup_middle.
    specialize (IH (done ++ [c]) rest k H').
    rewrite length_app in IH. simpl in IH. rewrite Nat.add_1_r in IH.
    rewrite <- !app_assoc in IH. simpl in IH.
    rewrite IH. by rewrite <- !app_assoc, length_app.
Qed.

Lemma marker_free_element c a g r cs :
  is_marker (Element c a g r cs) = false ->
  Forall (fun x => marker_free x = true) cs ->
  marker_free (Element c a g r cs) = true.
Proof.
  intros Hm Hcs. unfold marker_free. simpl. fold marker_free.
  rewrite Hm. simpl. by apply forallb_Forall_true.
Qed.

Lemma marker_free_children n :
  marker_free n = true -> Forall (fun x => marker_free x = true) (node_children n).
Proof.
  destruct n as [s|c a g r cs]; [constructor|]. apply free_of_children.
Qed.

Lemma marker_free_not_marker n : marker_free n = true -> is_marker n = false.
Proof. apply free_of_here. Qed.

Lemma not_marker_parts n :
  is_marker n = false ->
  is_sim_start n = false /\ is_gated_file n = false /\
  is_sim_end n = false /\ is_file_end n = false.
Proof.
  unfold is_marker. intros H. repeat (apply orb_false_iff in H as [H ?]). done.
Qed.

Lemma sim_new_node_marker_free s mid :
  Forall (fun c => marker_free c = true) (node_children s) ->
  Forall (fun c => marker_free c = true) mid ->
  marker_free (Sims.new_node (node_attrs s) (kept_children s) mid) = true.
Proof.
  intros Hs Hmid. apply marker_free_element; [done|].
  apply Forall_app. split.
  - apply Forall_forall. intros x Hx. rewrite Forall_forall in Hs. apply Hs.
    apply list_elem_of_In in Hx. apply filter_In in Hx as [Hx _]. by apply list_elem_of_In.
  - constructor; [|done]. by apply marker_free_element.
Qed.

Lemma class_of_instance c n : is_instance c n = true -> node_cls n = Some c.
Proof. unfold is_instance. by intros ?%bool_decide_eq_true. Qed.

Lemma instance_other c c' n : is_instance c n = true -> c <> c' -> is_instance c' n = false.
Proof.
  intros H%class_of_instance Hne. unfold is_instance. apply bool_decide_eq_false.
  rewrite H. congruence.
Qed.

Lemma gated_file_not_sim_start s : is_gated_file s = true -> is_sim_start s = false.
Proof.
  unfold is_gated_file, Files.is_file, is_sim_start.
  intros [[H|H]%orb_true_iff _]%andb_true_iff; eapply instance_other; eauto; done.
Qed.

Lemma file_end_not_sim_start s : is_file_end s = true -> is_sim_start s = false.
Proof. unfold is_file_end, is_sim_start. intros H. eapply instance_other; eauto; done. Qed.

Lemma free_of_element p c a g r cs :
  p (Element c a g r cs) = false ->
  Forall (fun x => free_of p x = true) cs ->
  free_of p (Element c a g r cs) = true.
Proof. intros Hp Hcs. simpl. rewrite Hp. simpl. by apply forallb_Forall_true. Qed.

Lemma is_marker_children c a g r cs cs' :
  is_marker (Element c a g r cs) = is_marker (Element c a g r cs').
Proof. reflexivity. Qed.

Lemma file_labels_children c a g r cs cs' :
  file_labels [Element c a g r cs] = file_labels [Element c a g r cs'].
Proof.
  unfold file_labels, Files.is_file, is_instance. simpl. by destruct (_ || _).
Qed.

Lemma sims_walk_S d c a g r cs :
  Sims.walk (S d) (Element c a g r cs) =
  let* cs' := Sims.loop (Sims.walk d) (length cs) 0 cs in Ok (Element c a g r cs').
Proof. reflexivity. Qed.

Lemma files_walk_S cls d c a g r cs :
  Files.walk cls (S d) (Element c a g r cs) =
  let* cs' := Files.loop cls (Files.walk cls d) (length cs) 0 cs in Ok (Element c a g r cs').
Proof. reflexivity. Qed.

Lemma sims_loop_flat todo :
  flat todo ->
  forall d done k,
    length todo <= k ->
    list_sum (map node_size todo) <= d ->
    Forall (fun c => is_sim_start c = false) done ->
    exists todo',
      Sims.loop (Sims.walk d) k (length done) (done ++ todo) = Ok (done ++ todo') /\
      flat todo' /\
      Forall (fun c => free_of is_sim_start c = true) todo' /\
      file_labels todo' `sublist_of` file_labels todo.
Proof.
  induction 1 as [|c cs Hc _ IH|c a g r kids cs Hm Hnd _ IHkids _ IH
                  |s mid e cs Hs Hkids Hmid Hel He Hekids _ IH
                  |s ty before content mid e cs Hs Hty Hch Hcont Hkids Hmid Hel He Hekids _ IH];
    intros d done k Hk Hsize Hdone.
  - exists []. rewrite sims_loop_end. repeat split; [constructor|constructor|done].
  - simpl in Hk, Hsize.
    pose proof (not_marker_parts _ (marker_free_not_marker _ Hc)) as (Hns & _).
    destruct (IH d (done ++ [c]) (k - 1)) as (todo' & Hrun & Hflat & Hno & Hsub);
      [lia|lia|apply Forall_app; split; [done|by constructor]|].
    exists (c :: todo'). repeat split.
    + replace k with (length [c] + (k - 1)) by (simpl; lia).
      rewrite (sims_loop_skip _ [c] done cs).
      * rewrite Hrun. by rewrite <- !app_assoc.
      * constructor; [|done]. split; [done|].
        apply sims_walk_id; [|by apply marker_free_no_sim_start].
        pose proof (height_le_size c). lia.
    + by constructor.
    + constructor; [by apply marker_free_no_sim_start|done].
    + change (c :: todo') with ([c] ++ todo'). change (c :: cs) with ([c] ++ cs).
      rewrite !file_labels_app. by apply sublist_app.
  - (* an element that is no marker: the walk goes on below it *)
    cbn [length] in Hk. simpl in Hsize.
    destruct d as [|d]; [lia|].
    pose proof (not_marker_parts _ Hm) as (Hns & _).
    destruct (IHkids d [] (length kids)) as (kids' & Hbelow & Hflatk & Hnok & Hsubk);
      [done|lia|done|].
    change (length (@nil node)) with 0 in Hbelow. change ([] ++ kids) with kids in Hbelow.
    change ([] ++ kids') with kids' in Hbelow.
    set (c' := Element c a g r kids').
    assert (Hwalk : Sims.walk (S d) (Element c a g r kids) = Ok c').
    { rewrite sims_walk_S, Hbelow. reflexivity. }
    destruct (IH (S d) (done ++ [c']) (k - 1)) as (todo' & Hrun & Hflat & Hno & Hsub);
      [lia|lia|apply Forall_app; split; [done|by constructor]|].
    exists (c' :: todo'). repeat split.
    + replace k with (S (k - 1)) by lia.
      rewrite (sims_loop_step _ _ done _ c') by done.
      rewrite length_app in Hrun. simpl in Hrun. rewrite Nat.add_1_r in Hrun.
      rewrite <- !app_assoc in Hrun. exact Hrun.
    + apply flat_nested; [done| |done|done]. by eapply sublist_NoDup.
    + constructor; [|done]. by apply free_of_element.
    + change (c' :: todo') with ([c'] ++ todo').
      change (Element c a g r kids :: cs) with ([Element c a g r kids] ++ cs).
      rewrite !file_labels_app. apply sublist_app; [|done].
      unfold c'. by rewrite (file_labels_children _ _ _ _ kids' kids).
  - rewrite !length_cons, !length_app, !length_cons in Hk.
    simpl in Hsize. rewrite map_app, list_sum_app in Hsize. simpl in Hsize.
    set (new := Sims.new_node (node_attrs s) (kept_children s) mid).
    assert (Hnew : marker_free new = true) by by apply sim_new_node_marker_free.
    destruct (IH d (done ++ [new]) (k - 1)) as (todo' & Hrun & Hflat & Hno & Hsub);
      [lia|lia|apply Forall_app; split; [done|by constructor]|].
    exists (new :: todo'). repeat split.
    + replace k with (S (k - 1)) by lia.
      rewrite sims_loop_pair; try done.
      * rewrite length_app in Hrun. simpl in Hrun. rewrite Nat.add_1_r in Hrun.
        rewrite <- !app_assoc in Hrun. exact Hrun.
      * apply Forall_forall. intros x Hx. rewrite Forall_forall in Hkids.
        apply sims_walk_id; [|by apply marker_free_no_sim_start, Hkids].
        pose proof (height_le_size x). pose proof (size_child x _ Hx).
        destruct s; simpl in *; [by apply elem_of_nil in Hx|]. lia.
      * apply sims_walk_below; [pose proof (height_le_size s); lia|].
        eapply Forall_impl; [exact Hkids|]. intros x. apply marker_free_no_sim_start.
      * eapply Forall_impl; [exact Hmid|]. intros x Hx.
        by apply not_marker_parts, marker_free_not_marker.
    + by constructor.
    + constructor; [by apply marker_free_no_sim_start|done].
    + change (new :: todo') with ([new] ++ todo').
      change (s :: mid ++ e :: cs) with ([s] ++ mid ++ [e] ++ cs).
      rewrite !file_labels_app.
      change (file_labels [new]) with (@nil (option string)). simpl.
      by do 3 apply sublist_inserts_l.
  - rewrite !length_cons, !length_app, !length_cons in Hk.
    simpl in Hsize. rewrite map_app, list_sum_app in Hsize. simpl in Hsize.
    set (skip := s :: mid ++ [e]).
    assert (Hlen : length skip = S (length mid + 1)) by (unfold skip; simpl; by rewrite length_app).
    assert (Hfree : Forall (fun c => free_of is_sim_start c = true) skip).
    { unfold skip. constructor; [|apply Forall_app; split; [|constructor; [|done]]].
      - destruct s as [t|sc sa sg sr scs]; [done|]. apply free_of_element.
        + by apply gated_file_not_sim_start.
        + eapply Forall_impl; [exact Hkids|]. intros x. apply marker_free_no_sim_start.
      - eapply Forall_impl; [exact Hmid|]. intros x. apply marker_free_no_sim_start.
      - destruct e as [t|ec ea eg er ecs]; [done|]. apply free_of_element.
        + by apply file_end_not_sim_start.
        + eapply Forall_impl; [exact Hekids|]. intros x. apply marker_free_no_sim_start. }
    assert (Hskip : Forall (fun c => is_sim_start c = false /\ Sims.walk d c = Ok c) skip).
    { apply Forall_forall. intros x Hx. rewrite Forall_forall in Hfree. split.
      - apply free_of_here. by apply Hfree.
      - apply sims_walk_id; [|by apply Hfree].
        pose proof (height_le_size x). pose proof (size_child x _ Hx).
        assert (list_sum (map node_size skip) <= d); [|lia].
        unfold skip. simpl. rewrite map_app, list_sum_app. simpl. lia. }
    destruct (IH d (done ++ skip) (k - length skip)) as (todo' & Hrun & Hflat & Hno & Hsub);
      [lia|lia|apply Forall_app; split; [done|]|].
    { eapply Forall_impl; [exact Hskip|]. by intros x [? _]. }
    exists (s :: mid ++ e :: todo'). repeat split.
    + replace k with (length skip + (k - length skip)) by lia.
      replace (s :: mid ++ e :: cs) with (skip ++ cs)
        by (unfold skip; simpl; by rewrite <- app_assoc).
      rewrite sims_loop_skip by done. rewrite Hrun.
      unfold skip. f_equal. rewrite <- app_assoc. simpl. by rewrite <- app_assoc.
    + by econstructor.
    + replace (s :: mid ++ e :: todo') with (skip ++ todo')
        by (unfold skip; simpl; by rewrite <- app_assoc).
      apply Forall_app. by split.
    + change (s :: mid ++ e :: todo') with ([s] ++ mid ++ [e] ++ todo').
      change (s :: mid ++ e :: cs) with ([s] ++ mid ++ [e] ++ cs).
      rewrite !file_labels_app. by repeat apply sublist_app.
Qed.

Lemma files_loop_end cls rec k done :
  Files.loop cls rec k (length done) (done ++ []) = Ok (done ++ []).
Proof.
  destruct k; [done|]. simpl. rewrite app_nil_r.
  by rewrite lookup_ge_None_2.
Qed.

Lemma files_loop_skip cls rec skip : forall done rest k,
  Forall (fun c => gated_of cls c = false /\ rec c = Ok c) skip ->
  Files.loop cls rec (length skip + k) (length done) (done ++ skip ++ rest) =
  Files.loop cls rec k (length (done ++ skip)) ((done ++ skip) ++ rest).
Proof.
  induction skip as [|c skip IH]; intros done rest k H.
  - simpl. by rewrite !app_nil_r.
  - inversion H as [|? ? [Hg Hr] H']; subst.
    cbn [length Nat.add app]. cbn [Files.loop]. rewrite lookup_middle.
    assert (Hstep :
      (if is_instance cls c
       then let* (children1, j) :=
              if node_gated c then Files.merge_nodes (length done) c (done ++ c :: skip ++ rest)
              else Ok (done ++ c :: skip ++ rest, length done) in
            match children1 !! j with
            | Some node1 =>
                let* below := rec (set_gated false node1) in
                Files.loop cls rec (length skip + k) (S (length done)) (<[j:=below]> children1)
            | None => Raise IndexError
            end
       else let* below := rec c in
            Files.loop cls rec (length skip + k) (S (length done))
              (<[length done:=below]> (done ++ c :: skip ++ rest)))
      = Files.loop cls rec (length skip + k) (S (length done)) (done ++ c :: skip ++ rest)).
    { unfold gated_of in Hg. destruct (is_instance cls c); simpl in Hg.
      - rewrite Hg. cbn [rbind]. rewrite lookup_middle.
        rewrite set_gated_false_id by done. rewrite Hr. cbn [rbind].
        by rewrite list_insert_id by apply lookup_middle.
      - rewrite Hr. cbn [rbind]. by rewrite list_insert_id by apply lookup_middle. }
    rewrite Hstep.
    specialize (IH (done ++ [c]) rest k H').
    rewrite length_app in IH. simpl in IH. rewrite Nat.add_1_r in IH.
    rewrite <- !app_assoc in IH. simpl in IH.
    rewrite IH. by rewrite <- !app_assoc, length_app.
Qed.

Lemma file_merged_size s ty before content mid :
  node_children s = before ++ [content] ->
  node_cls content <> None ->
  node_cls s <> None ->
  node_size (file_merged s ty before content mid)
  = node_size s + list_sum (map node_size mid).
Proof.
  intros Hch Hc Hs. destruct s as [t|c a g r cs]; [done|].
  destruct content as [t|cc ca cg cr ccs]; [done|].
  simpl in Hch. subst cs. simpl.
  rewrite !map_app, !list_sum_app. simpl. rewrite map_app, list_sum_app. lia.
Qed.

Lemma file_merged_marker_free s ty before content mid :
  Files.is_file s = true ->
  node_children s = before ++ [content] ->
  Forall (fun c => marker_free c = true) (node_children s) ->
  Forall (fun c => marker_free c = true) mid ->
  marker_free (file_merged s ty before content mid) = true.
Proof.
  intros Hs Hch Hkids Hmid. rewrite Hch in Hkids.
  apply Forall_app in Hkids as [Hbefore Hcontent].
  inversion Hcontent as [|? ? Hc _]; subst.
  destruct s as [t|c a g r cs]; [done|].
  unfold file_merged. simpl. apply marker_free_element.
  - unfold is_marker, is_gated_file, is_sim_start, is_sim_end, is_file_end.
    simpl. rewrite andb_false_r.
    unfold Files.is_file in Hs.
    apply orb_true_iff in Hs as [Hs|Hs]; apply class_of_instance in Hs; simpl in Hs;
      injection Hs as ->; reflexivity.
  - apply Forall_app. split; [done|]. constructor; [|done].
    destruct content as [t|cc ca cg cr ccs]; [done|]. simpl.
    apply marker_free_element.
    + by apply marker_free_not_marker in Hc.
    + apply Forall_app. split; [|done]. by apply marker_free_children in Hc.
Qed.

Lemma file_merged_label s ty before content mid :
  get_label (file_merged s ty before content mid) = get_label s.
Proof. by destruct s. Qed.

Lemma file_merged_is_file s ty before content mid :
  Files.is_file (file_merged s ty before content mid) = Files.is_file s.
Proof. by destruct s. Qed.

Lemma file_end_not_file e : is_file_end e = true -> Files.is_file e = false.
Proof.
  unfold is_file_end, Files.is_file. intros H.
  apply orb_false_iff. split; eapply instance_other; eauto; done.
Qed.

Lemma file_labels_file c : Files.is_file c = true -> file_labels [c] = [get_label c].
Proof. unfold file_labels. simpl. by intros ->. Qed.

Lemma labels_before done s rest :
  Files.is_file s = true ->
  NoDup (file_labels (done ++ s :: rest)) ->
  Forall (fun c => (Files.is_file c && bool_decide (get_label s = get_label c)) = false) done.
Proof.
  intros Hs Hnd. change (s :: rest) with ([s] ++ rest) in Hnd.
  rewrite !file_labels_app, file_labels_file in Hnd by done.
  apply NoDup_app in Hnd as (_ & Hnot & _).
  apply Forall_forall. intros c Hc.
  destruct (Files.is_file c) eqn:Hf; [|done]. simpl.
  apply bool_decide_eq_false. intros Heq.
  apply (Hnot (get_label c)).
  - unfold file_labels. apply list_elem_of_fmap. exists c. split; [done|].
    apply list_elem_of_In, filter_In. split; [by apply list_elem_of_In|done].
  - rewrite <- Heq. simpl. apply list_elem_of_here.
Qed.

Lemma gated_file_class s :
  is_gated_file s = true ->
  Files.is_file s = true /\ node_gated s = true.
Proof. unfold is_gated_file. by intros [? ?]%andb_true_iff. Qed.

Lemma not_marker_not_gated cls x :
  cls = spice_file_node \/ cls = spice_file_enumerable_node ->
  is_marker x = false -> gated_of cls x = false.
Proof.
  intros Hcls Hm. apply not_marker_parts in Hm as (_ & Hg & _).
  unfold is_gated_file, Files.is_file in Hg. unfold gated_of.
  destruct (node_gated x); [|by rewrite andb_false_r].
  rewrite andb_true_r in *. apply orb_false_iff in Hg as [? ?].
  by destruct Hcls as [-> | ->].
Qed.

Lemma files_loop_flat cls todo :
  cls = spice_file_node \/ cls = spice_file_enumerable_node ->
  flat todo ->
  forall d done k,
    length todo <= k ->
    list_sum (map node_size todo) <= d ->
    Forall (fun c => free_of is_sim_start c = true) todo ->
    NoDup (file_labels (done ++ todo)) ->
    exists todo',
      Files.loop cls (Files.walk cls d) k (length done) (done ++ todo) = Ok (done ++ todo') /\
      flat todo' /\
      Forall (fun c => free_of is_sim_start c = true) todo' /\
      Forall (fun c => free_of (gated_of cls) c = true) todo' /\
      (forall cls', cls' = spice_file_node \/ cls' = spice_file_enumerable_node ->
                    Forall (fun c => free_of (gated_of cls') c = true) todo ->
                    Forall (fun c => free_of (gated_of cls') c = true) todo') /\
      NoDup (file_labels (done ++ todo')).
Proof.
  intros Hcls.
  induction 1 as [|c cs Hc _ IH|c a g r kids cs Hm Hndk _ IHkids _ IH
                  |s mid e cs Hs Hkids Hmid Hel He Hekids _ IH
                  |s ty before content mid e cs Hs Hty Hch Hcont Hkids Hmid Hel He Hekids _ IH];
    intros d done k Hk Hsize Hsim Hnd.
  - exists []. rewrite files_loop_end. repeat split; try constructor; done.
  - simpl in Hk, Hsize. inversion Hsim as [|? ? Hsc Hsim']; subst.
    assert (Hgc : forall cls', cls' = spice_file_node \/ cls' = spice_file_enumerable_node ->
                               free_of (gated_of cls') c = true).
    { intros cls' Hcls'. by apply marker_free_no_gated. }
    destruct (IH d (done ++ [c]) (k - 1)) as (todo' & Hrun & Hflat & Hno & Hg & Hpres & Hnd');
      [lia|lia|done|by rewrite <- app_assoc|].
    exists (c :: todo'). repeat split.
    + replace k with (length [c] + (k - 1)) by (simpl; lia).
      rewrite (files_loop_skip _ _ [c] done cs).
      * rewrite Hrun. by rewrite <- !app_assoc.
      * constructor; [|done]. split; [by apply free_of_here, Hgc|].
        apply files_walk_id; [|by apply Hgc].
        pose proof (height_le_size c). lia.
    + by constructor.
    + by constructor.
    + constructor; [by apply Hgc|done].
    + intros cls' Hcls' Hall. inversion Hall; subst. constructor; [by apply Hgc|by apply Hpres].
    + by rewrite <- app_assoc in Hnd'.
  - (* an element that is no marker: the walk goes on below it *)
    cbn [length] in Hk. simpl in Hsize.
    destruct d as [|d]; [lia|].
    inversion Hsim as [|? ? Hsc Hsim']; subst.
    pose proof (free_of_children _ _ _ _ _ _ Hsc) as Hsk.
    destruct (IHkids d [] (length kids))
      as (kids' & Hbelow & Hflatk & Hnok & Hgk & Hpresk & Hndk'); [done|lia|done|done|].
    change (length (@nil node)) with 0 in Hbelow. change ([] ++ kids) with kids in Hbelow.
    change ([] ++ kids') with kids' in Hbelow, Hndk'.
    set (c' := Element c a g r kids').
    assert (Hwalk : Files.walk cls (S d) (Element c a g r kids) = Ok c').
    { rewrite files_walk_S, Hbelow. reflexivity. }
    assert (Hlab : file_labels ((done ++ [c']) ++ cs)
                   = file_labels (done ++ Element c a g r kids :: cs)).
    { rewrite <- app_assoc. rewrite !file_labels_app.
      change (Element c a g r kids :: cs) with ([Element c a g r kids] ++ cs).
      rewrite !file_labels_app. unfold c'.
      by rewrite (file_labels_children _ _ _ _ kids' kids). }
    destruct (IH (S d) (done ++ [c']) (k - 1))
      as (todo' & Hrun & Hflat & Hno & Hg & Hpres & Hnd'); [lia|lia|done|by rewrite Hlab|].
    exists (c' :: todo'). repeat split.
    + replace k with (S (k - 1)) by lia.
      rewrite (files_loop_step _ _ _ done _ c'); [|by apply not_marker_not_gated|done].
      rewrite length_app in Hrun. simpl in Hrun. rewrite Nat.add_1_r in Hrun.
      rewrite <- !app_assoc in Hrun. exact Hrun.
    + by apply flat_nested.
    + constructor; [|done]. apply free_of_element; [|done].
      by apply free_of_here in Hsc.
    + constructor; [|done]. apply free_of_element; [|done].
      by apply not_marker_not_gated.
    + intros cls' Hcls' Hall. inversion Hall as [|? ? Hx Hall']; subst.
      constructor; [|by apply Hpres].
      apply free_of_element; [by apply free_of_here in Hx|].
      apply Hpresk; [done|]. by apply free_of_children in Hx.
    + by rewrite <- app_assoc in Hnd'.
  - inversion Hsim as [|? ? Hsc _]; subst. apply free_of_here in Hsc. congruence.
  - rewrite !length_cons, !length_app, !length_cons in Hk.
    simpl in Hsize. rewrite map_app, list_sum_app in Hsize. simpl in Hsize.
    destruct (gated_file_class _ Hs) as [Hfile Hgated].
    inversion Hsim as [|? ? Hss Hsim']; subst.
    apply Forall_app in Hsim' as [Hsmid Hsim'].
    inversion Hsim' as [|? ? Hse Hscs]; subst.
    assert (Hplain : forall cls' l,
              cls' = spice_file_node \/ cls' = spice_file_enumerable_node ->
              Forall (fun x => marker_free x = true) l ->
              Forall (fun x => free_of (gated_of cls') x = true) l).
    { intros cls' l Hcls' Hl. eapply Forall_impl; [exact Hl|].
      intros x. by apply marker_free_no_gated. }
    destruct (is_instance cls s) eqn:Hinst.
    + (* the pair is merged *)
      set (m := file_merged s ty before content mid).
      assert (Hsne : node_cls s <> None) by (apply class_of_instance in Hinst; congruence).
      assert (Hm : marker_free m = true) by by apply file_merged_marker_free.
      assert (Hmsize : node_size m = node_size s + list_sum (map node_size mid))
        by by apply file_merged_size.
      assert (Hnd2 : NoDup (file_labels ((done ++ [m]) ++ cs))).
      { eapply sublist_NoDup; [exact Hnd|].
        change (s :: mid ++ e :: cs) with ([s] ++ mid ++ [e] ++ cs).
        rewrite <- app_assoc. rewrite !file_labels_app.
        rewrite (file_labels_file m), (file_labels_file s);
          [|done|unfold m; by rewrite file_merged_is_file].
        unfold m. rewrite file_merged_label.
        apply sublist_app; [done|]. apply sublist_app; [done|].
        by do 2 apply sublist_inserts_l. }
      destruct (IH d (done ++ [m]) (k - 1)) as (todo' & Hrun & Hflat & Hno & Hg & Hpres & Hnd');
        [lia|lia|done|done|].
      exists (m :: todo'). repeat split.
      * replace k with (S (k - 1)) by lia.
        rewrite (files_loop_pair cls _ (k - 1) done s ty before content mid e cs); try done.
        -- rewrite length_app in Hrun. simpl in Hrun. rewrite Nat.add_1_r in Hrun.
           rewrite <- !app_assoc in Hrun. exact Hrun.
        -- by eapply labels_before.
        -- fold m. apply files_walk_id; [|by apply marker_free_no_gated].
           pose proof (height_le_size m). lia.
        -- eapply Forall_impl; [exact Hmid|]. intros x Hx.
           by apply not_marker_parts, marker_free_not_marker.
      * by constructor.
      * constructor; [|done]. by apply marker_free_no_sim_start.
      * constructor; [|done]. by apply marker_free_no_gated.
      * intros cls' Hcls' Hall. constructor; [by apply marker_free_no_gated|].
        apply Hpres; [done|]. inversion Hall as [|? ? _ Hall']; subst.
        apply Forall_app in Hall' as [_ Hall']. by inversion Hall'.
      * by rewrite <- app_assoc in Hnd'.
    + (* a pair of the other file class is passed over *)
      set (skip := s :: mid ++ [e]).
      assert (Hlen : length skip = S (length mid + 1))
        by (unfold skip; simpl; by rewrite length_app).
      assert (Hfree : Forall (fun c => free_of (gated_of cls) c = true) skip).
      { unfold skip. constructor; [|apply Forall_app; split; [|constructor; [|done]]].
        - destruct s as [t|sc sa sg sr scs]; [done|]. apply free_of_element.
          + unfold gated_of. by rewrite Hinst.
          + by apply Hplain.
        - by apply Hplain.
        - destruct e as [t|ec ea eg er ecs]; [done|]. apply free_of_element.
          + unfold gated_of. pose proof (file_end_not_file _ He) as Hnf.
            unfold Files.is_file in Hnf. apply orb_false_iff in Hnf as [H1 H2].
            destruct Hcls as [-> | ->]; by rewrite ?H1, ?H2.
          + by apply Hplain. }
      assert (Hskip : Forall (fun c => gated_of cls c = false /\ Files.walk cls d c = Ok c) skip).
      { apply Forall_forall. intros x Hx. rewrite Forall_forall in Hfree. split.
        - apply free_of_here. by apply Hfree.
        - apply files_walk_id; [|by apply Hfree].
          pose proof (height_le_size x). pose proof (size_child x _ Hx).
          assert (list_sum (map node_size skip) <= d); [|lia].
          unfold skip. simpl. rewrite map_app, list_sum_app. simpl. lia. }
      destruct (IH d (done ++ skip) (k - length skip))
        as (todo' & Hrun & Hflat & Hno & Hg & Hpres & Hnd'); [lia|lia|done| |].
      { unfold skip. rewrite <- app_assoc. simpl. by rewrite <- app_assoc. }
      exists (s :: mid ++ e :: todo'). repeat split.
      * replace k with (length skip + (k - length skip)) by lia.
        replace (s :: mid ++ e :: cs) with (skip ++ cs)
          by (unfold skip; simpl; by rewrite <- app_assoc).
        rewrite files_loop_skip by done. rewrite Hrun.
        unfold skip. f_equal. rewrite <- app_assoc. simpl. by rewrite <- app_assoc.
      * by econstructor.
      * constructor; [done|]. apply Forall_app. split; [done|]. by constructor.
      * replace (s :: mid ++ e :: todo') with (skip ++ todo')
          by (unfold skip; simpl; by rewrite <- app_assoc).
        apply Forall_app. by split.
      * intros cls' Hcls' Hall. inversion Hall as [|? ? H1 Hall']; subst.
        apply Forall_app in Hall' as [H2 Hall']. inversion Hall' as [|? ? H3 H4]; subst.
        constructor; [done|]. apply Forall_app. split; [done|].
        constructor; [done|by apply Hpres].
      * unfold skip in Hnd'. rewrite <- app_assoc in Hnd'. simpl in Hnd'.
        by rewrite <- app_assoc in Hnd'.
Qed.

(** *** After the three traversals *)

Lemma flat_all_plain cs :
  flat cs ->
  Forall (fun c => free_of is_sim_start c = true) cs ->
  Forall (fun c => free_of (gated_of spice_file_node) c = true) cs ->
  Forall (fun c => free_of (gated_of spice_file_enumerable_node) c = true) cs ->
  Forall (fun c => marker_free c = true) cs.
Proof.
  induction 1 as [|c cs Hc _ IH|c a g r kids cs Hm Hndk _ IHkids _ IH
                  |s mid e cs Hs Hkids Hmid Hel He Hekids _ IH
                  |s ty before content mid e cs Hs Hty Hch Hcont Hkids Hmid Hel He Hekids _ IH];
    intros H1 H2 H3.
  - constructor.
  - inversion H1; inversion H2; inversion H3; subst. constructor; [done|by apply IH].
  - inversion H1 as [|? ? Ha H1']; inversion H2 as [|? ? Hb H2'];
      inversion H3 as [|? ? Hc H3']; subst.
    constructor; [|by apply IH].
    apply marker_free_element; [done|].
    apply IHkids; by eapply free_of_children.
  - inversion H1 as [|? ? Ha _]; subst. apply free_of_here in Ha. congruence.
  - inversion H2 as [|? ? Ha _]; inversion H3 as [|? ? Hb _]; subst.
    apply free_of_here in Ha, Hb.
    unfold is_gated_file, Files.is_file, gated_of in *.
    destruct (node_gated s); [|by rewrite andb_false_r in Hs].
    rewrite andb_true_r in *. rewrite Ha, Hb in Hs. done.
Qed.

Lemma merge_pass_flat c a g r cs :
  is_marker (Element c a g r cs) = false ->
  flat cs ->
  NoDup (file_labels cs) ->
  exists cs',
    merge_pass (Element c a g r cs) = Ok (Element c a g r cs') /\
    marker_free (Element c a g r cs') = true.
Proof.
  intros Hroot Hflat Hnd.
  unfold merge_pass, Sims.apply, traversal_depth.
  assert (Hd0 : exists d0, 2 * node_size (Element c a g r cs) + 2 = S d0 /\
                           list_sum (map node_size cs) <= d0).
  { exists (2 * node_size (Element c a g r cs) + 1). simpl. lia. }
  destruct Hd0 as (d0 & -> & Hd0).
  rewrite sims_walk_S.
  destruct (sims_loop_flat cs Hflat d0 [] (length cs)) as (t1 & Hrun1 & Hflat1 & Hsim1 & Hsub1);
    [done|done|done|].
  change (length []) with 0 in Hrun1. change ([] ++ cs) with cs in Hrun1.
  change ([] ++ t1) with t1 in Hrun1.
  rewrite Hrun1. cbn [rbind].
  unfold Files.apply, traversal_depth.
  assert (Hd1 : exists d1, 2 * node_size (Element c a g r t1) + 2 = S d1 /\
                           list_sum (map node_size t1) <= d1).
  { exists (2 * node_size (Element c a g r t1) + 1). simpl. lia. }
  destruct Hd1 as (d1 & -> & Hd1).
  rewrite files_walk_S.
  destruct (files_loop_flat spice_file_node t1 (or_introl eq_refl) Hflat1 d1 [] (length t1))
    as (t2 & Hrun2 & Hflat2 & Hsim2 & Hg2 & Hpres2 & Hnd2);
    [done|done|done|simpl; by eapply sublist_NoDup|].
  change (length []) with 0 in Hrun2. change ([] ++ t1) with t1 in Hrun2.
  change ([] ++ t2) with t2 in Hrun2, Hnd2.
  rewrite Hrun2. cbn [rbind].
  assert (Hd2 : exists d2, 2 * node_size (Element c a g r t2) + 2 = S d2 /\
                           list_sum (map node_size t2) <= d2).
  { exists (2 * node_size (Element c a g r t2) + 1). simpl. lia. }
  destruct Hd2 as (d2 & -> & Hd2).
  rewrite files_walk_S.
  destruct (files_loop_flat spice_file_enumerable_node t2 (or_intror eq_refl) Hflat2 d2 []
              (length t2))
    as (t3 & Hrun3 & Hflat3 & Hsim3 & Hg3 & Hpres3 & Hnd3);
    [done|done|done|done|].
  change (length []) with 0 in Hrun3. change ([] ++ t2) with t2 in Hrun3.
  change ([] ++ t3) with t3 in Hrun3.
  rewrite Hrun3. cbn [rbind].
  exists t3. split; [done|].
  apply marker_free_element.
  - unfold is_marker, is_sim_start, is_gated_file, is_sim_end, is_file_end in *.
    exact Hroot.
  - apply flat_all_plain; try done. apply Hpres3; [by left|done].
Qed.

(** *** From the recorded sequence to flat pairs *)

Lemma token_none c :
  token_of c = None -> is_marker c = false.
Proof.
  unfold token_of, is_marker.
  destruct (is_sim_start c), (is_gated_file c), (is_sim_end c), (is_file_end c); done.
Qed.

Lemma token_start c :
  token_of c = Some "S" -> is_sim_start c = true \/
                           (is_sim_start c = false /\ is_gated_file c = true).
Proof.
  unfold token_of.
  destruct (is_sim_start c), (is_gated_file c), (is_sim_end c), (is_file_end c);
    simpl; intros; try discriminate; auto.
Qed.

Lemma token_end c :
  token_of c = Some "E" ->
  is_sim_start c = false /\ is_gated_file c = false /\
  (is_sim_end c || is_file_end c) = true.
Proof.
  unfold token_of.
  destruct (is_sim_start c), (is_gated_file c), (is_sim_end c), (is_file_end c);
    simpl; intros; try discriminate; auto.
Qed.

Lemma flat_pairs_S n : flat_pairs (S n) = "S" :: "E" :: flat_pairs n.
Proof. reflexivity. Qed.

Lemma tokens_of_cons c cs : tokens_of (c :: cs) = tokens c ++ tokens_of cs.
Proof. reflexivity. Qed.

Lemma tokens_element c a g r cs :
  tokens (Element c a g r cs)
  = option_list (token_of (Element c a g r cs)) ++ tokens_of cs.
Proof. reflexivity. Qed.

Lemma every_level_element p c a g r cs :
  every_level p (Element c a g r cs) = true ->
  p cs = true /\ Forall (fun x => every_level p x = true) cs.
Proof.
  simpl. intros [H1 H2]%andb_prop. split; [done|]. by apply forallb_Forall_true.
Qed.

(** A tree without tokens holds no marker. *)
Lemma no_tokens_free n : tokens n = [] -> marker_free n = true.
Proof.
  induction n as [s|c a g r cs IH] using node_ind_children; [done|].
  rewrite tokens_element. intros [Ht Hcs]%app_eq_nil.
  apply marker_free_element.
  - apply token_none. by destruct (token_of _).
  - clear Ht. induction IH as [|x xs Hx _ IHxs]; [constructor|].
    rewrite tokens_of_cons in Hcs. apply app_eq_nil in Hcs as [H1 H2].
    constructor; [by apply Hx|by apply IHxs].
Qed.

Lemma no_tokens_free_all cs :
  tokens_of cs = [] -> Forall (fun c => marker_free c = true) cs.
Proof.
  induction cs as [|c cs IH]; [constructor|].
  rewrite tokens_of_cons. intros [H1 H2]%app_eq_nil.
  constructor; [by apply no_tokens_free|by apply IH].
Qed.

Lemma free_no_tokens n : marker_free n = true -> tokens n = [].
Proof.
  induction n as [s|c a g r cs IH] using node_ind_children; [done|].
  intros Hf. rewrite tokens_element.
  pose proof (marker_free_not_marker _ Hf) as Hm.
  pose proof (marker_free_children _ Hf) as Hk. cbn [node_children] in Hk.
  assert (Ht : token_of (Element c a g r cs) = None).
  { unfold token_of. apply not_marker_parts in Hm as (-> & -> & -> & ->). done. }
  rewrite Ht. simpl. clear Ht Hm Hf.
  induction IH as [|x xs Hx _ IHxs]; [done|].
  inversion Hk; subst. rewrite tokens_of_cons, Hx by done. simpl. by apply IHxs.
Qed.

Lemma free_no_tokens_all cs :
  Forall (fun c => marker_free c = true) cs -> tokens_of cs = [].
Proof.
  induction 1 as [|c cs Hc _ IH]; [done|].
  by rewrite tokens_of_cons, free_no_tokens, IH.
Qed.

Lemma token_cases c :
  token_of c = None \/ token_of c = Some "S" \/ token_of c = Some "E".
Proof.
  unfold token_of.
  destruct (is_sim_start c || is_gated_file c); [auto|].
  destruct (is_sim_end c || is_file_end c); auto.
Qed.

Lemma ends_follow_plain open c r :
  is_marker c = false -> ends_follow open (c :: r) = ends_follow open r.
Proof.
  intros Hm. apply not_marker_parts in Hm as (H1 & H2 & H3 & H4).
  simpl. by rewrite H1, H2, H3, H4.
Qed.

Lemma ends_follow_end open c r :
  token_of c = Some "E" ->
  ends_follow open (c :: r) = bool_decide (node_cls c = open) && ends_follow None r.
Proof.
  intros (H1 & H2 & H3)%token_end. simpl. by rewrite H1, H2, H3.
Qed.

(** Where every end marker follows a start marker among its siblings, the
    first token in document order is no ["E"]. *)
Lemma tokens_begin : forall m cs,
  list_sum (map node_size cs) <= m ->
  ends_follow None cs = true ->
  Forall (fun c => every_level (ends_follow None) c = true) cs ->
  tokens_of cs = [] \/ exists more, tokens_of cs = "S" :: more.
Proof.
  induction m as [|m IH]; intros cs Hsize Hends Hdeep.
  { destruct cs as [|c r]; [by left|]. simpl in Hsize. pose proof (node_size_pos c). lia. }
  destruct cs as [|c r]; [by left|].
  inversion Hdeep as [|? ? Hc Hr]; subst. simpl in Hsize.
  rewrite tokens_of_cons.
  destruct c as [t|c a g r0 kids].
  - rewrite ends_follow_plain in Hends by done. cbn [node_size] in Hsize.
    change (tokens (Text t) ++ tokens_of r) with (tokens_of r).
    apply (IH r); [lia|done|done].
  - rewrite tokens_element. cbn [node_size] in Hsize.
    destruct (token_cases (Element c a g r0 kids)) as [Hn|[Hs|He]].
    + rewrite Hn. rewrite ends_follow_plain in Hends by (by apply token_none).
      apply every_level_element in Hc as [Hk Hks].
      destruct (IH kids) as [Hnil|[more Hmore]]; [lia|done|done| |].
      * simpl. rewrite Hnil. simpl. apply (IH r); [lia|done|done].
      * right. simpl. rewrite Hmore. eexists. reflexivity.
    + rewrite Hs. right. eexists. reflexivity.
    + rewrite ends_follow_end in Hends by done.
      apply andb_prop in Hends as [Hk _]. by apply bool_decide_eq_true in Hk.
Qed.

Lemma tokens_begin_all cs :
  ends_follow None cs = true ->
  Forall (fun c => every_level (ends_follow None) c = true) cs ->
  tokens_of cs = [] \/ exists more, tokens_of cs = "S" :: more.
Proof. by apply (tokens_begin (list_sum (map node_size cs))). Qed.

(** The siblings up to the end marker that has recorded the first token. *)
Lemma tokens_end_split : forall r open more,
  ends_follow open r = true ->
  Forall (fun c => every_level (ends_follow None) c = true) r ->
  tokens_of r = "E" :: more ->
  exists mid e r',
    r = mid ++ e :: r' /\
    Forall (fun c => marker_free c = true) mid /\
    token_of e = Some "E" /\ node_cls e = open /\
    more = tokens_of (node_children e) ++ tokens_of r' /\
    ends_follow None r' = true.
Proof.
  induction r as [|c r IH]; intros open more Hends Hdeep Htok; [done|].
  inversion Hdeep as [|? ? Hc Hr]; subst.
  rewrite tokens_of_cons in Htok.
  destruct c as [t|c a g r0 kids].
  - rewrite ends_follow_plain in Hends by done. simpl in Htok.
    destruct (IH open more Hends Hr Htok) as (mid & e & r' & -> & Hmid & He & Hcls & Hmore & Hrest).
    exists (Text t :: mid), e, r'. repeat split; try done. by constructor.
  - rewrite tokens_element in Htok.
    destruct (token_cases (Element c a g r0 kids)) as [Hn|[Hs|He]].
    + rewrite Hn in Htok. simpl in Htok.
      rewrite ends_follow_plain in Hends by (by apply token_none).
      apply every_level_element in Hc as [Hk Hks].
      destruct (tokens_begin_all kids Hk Hks) as [Hnil|[more' Hmore']].
      * rewrite Hnil in Htok. simpl in Htok.
        destruct (IH open more Hends Hr Htok)
          as (mid & e & r' & -> & Hmid & He & Hcls & Hmore & Hrest).
        exists (Element c a g r0 kids :: mid), e, r'. repeat split; try done.
        constructor; [|done]. apply no_tokens_free. rewrite tokens_element, Hn, Hnil. done.
      * rewrite Hmore' in Htok. discriminate.
    + rewrite Hs in Htok. discriminate.
    + rewrite He in Htok. injection Htok as <-.
      rewrite ends_follow_end in Hends by done.
      apply andb_prop in Hends as [Hk Hrest]. apply bool_decide_eq_true in Hk.
      exists [], (Element c a g r0 kids), r. by repeat split.
Qed.

Lemma flat_pairs_split : forall n p q,
  p ++ q = flat_pairs n ->
  (q = [] \/ exists more, q = "S" :: more) ->
  exists j k, p = flat_pairs j /\ q = flat_pairs k.
Proof.
  induction n as [|n IH]; intros p q Hpq Hq.
  - apply app_eq_nil in Hpq as [-> ->]. by exists 0, 0.
  - rewrite flat_pairs_S in Hpq.
    destruct p as [|x [|y p]].
    + exists 0, (S n). split; [done|]. by rewrite flat_pairs_S.
    + simpl in Hpq. injection Hpq as -> Hq'.
      destruct Hq as [->|[more ->]]; discriminate.
    + simpl in Hpq. injection Hpq as -> -> Hrest.
      destruct (IH p q Hrest Hq) as (j & k & -> & ->).
      exists (S j), k. by rewrite flat_pairs_S.
Qed.

Lemma apart_tail c cs : apart (c :: cs) = true -> apart cs = true.
Proof.
  unfold apart. simpl. intros [H|H]%orb_true_iff; apply orb_true_iff.
  - left. by apply andb_prop in H as [_ ?].
  - right. by apply andb_prop in H as [_ ?].
Qed.

Lemma apart_drop l cs : apart (l ++ cs) = true -> apart cs = true.
Proof. induction l as [|x l IH]; [done|]. intros H. by apply IH, (apart_tail x). Qed.

Lemma apart_marker c cs :
  is_marker c = true -> apart (c :: cs) = true ->
  Forall (fun x => is_element x = true) cs.
Proof.
  unfold apart. simpl. intros Hm [H|H]%orb_true_iff.
  - apply andb_prop in H as [_ H]. by apply forallb_Forall_true.
  - by rewrite Hm in H.
Qed.

Lemma built_siblings_parts cs :
  built_siblings cs = true ->
  forallb file_start_shape cs = true /\ forallb end_shape cs = true /\
  NoDup (file_labels cs) /\ apart cs = true.
Proof.
  unfold built_siblings. intros H.
  apply andb_prop in H as [H H4]. apply andb_prop in H as [H H3].
  apply andb_prop in H as [H1 H2]. apply bool_decide_eq_true in H3. done.
Qed.

Lemma start_is_marker c : token_of c = Some "S" -> is_marker c = true.
Proof.
  intros [H|[_ H]]%token_start; unfold is_marker; rewrite H; by rewrite ?orb_true_r.
Qed.

Lemma flat_of_tokens : forall m cs n,
  list_sum (map node_size cs) <= m ->
  tokens_of cs = flat_pairs n ->
  ends_follow None cs = true ->
  Forall (fun c => every_level (ends_follow None) c = true) cs ->
  forallb file_start_shape cs = true ->
  forallb end_shape cs = true ->
  apart cs = true ->
  Forall (fun c => every_level built_siblings c = true) cs ->
  flat cs.
Proof.
  induction m as [|m IH]; intros cs n Hsize Htok Hends Hdeep Hshape Hend Hapart Hbuilt.
  { destruct cs as [|c r]; [constructor|]. simpl in Hsize. pose proof (node_size_pos c). lia. }
  destruct cs as [|c r]; [constructor|].
  inversion Hdeep as [|? ? Hc Hr]; subst.
  inversion Hbuilt as [|? ? Hbc Hbr]; subst.
  change (node_size c + list_sum (map node_size r) <= S m) in Hsize.
  cbn [forallb] in Hshape, Hend.
  apply andb_prop in Hshape as [Hshc Hshr]. apply andb_prop in Hend as [Henc Henr].
  rewrite tokens_of_cons in Htok.
  destruct c as [t|c a g r0 kids].
  - (* a Text *)
    rewrite ends_follow_plain in Hends by done. cbn [node_size] in Hsize.
    change (tokens (Text t) ++ tokens_of r) with (tokens_of r) in Htok.
    apply flat_plain; [done|].
    apply (IH r n ltac:(lia) Htok Hends Hr Hshr Henr); [|done].
    by apply (apart_tail (Text t)).
  - rewrite tokens_element in Htok. cbn [node_size] in Hsize.
    apply every_level_element in Hc as [Hk Hks].
    apply every_level_element in Hbc as [Hbk Hbks].
    destruct (built_siblings_parts _ Hbk) as (Hkshape & Hkend & Hknd & Hkapart).
    destruct (token_cases (Element c a g r0 kids)) as [Hn|[Hs|He]].
    + (* an element that is no marker *)
      rewrite Hn in Htok. simpl in Htok.
      rewrite ends_follow_plain in Hends by (by apply token_none).
      destruct (flat_pairs_split n _ _ Htok (tokens_begin_all r Hends Hr))
        as (j & k & Hj & Hk').
      apply flat_nested; [by apply token_none|done| |].
      * by apply (IH kids j ltac:(lia) Hj Hk Hks Hkshape Hkend).
      * apply (IH r k ltac:(lia) Hk' Hends Hr Hshr Henr); [|done].
        by eapply apart_tail.
    + (* a start marker *)
      rewrite Hs in Htok. destruct n as [|n]; [done|]. rewrite flat_pairs_S in Htok.
      simpl in Htok. injection Htok as Htok.
      assert (Hnil : tokens_of kids = []).
      { destruct (tokens_begin_all kids Hk Hks) as [?|[more Hmore]]; [done|].
        rewrite Hmore in Htok. discriminate. }
      rewrite Hnil in Htok. simpl in Htok.
      pose proof (no_tokens_free_all kids Hnil) as Hkfree.
      pose proof (apart_marker _ _ (start_is_marker _ Hs) Hapart) as Helems.
      destruct (token_start _ Hs) as [Hsim|[Hnsim Hgated]].
      * (* of a simulation *)
        simpl in Hends. rewrite Hsim in Hends.
        destruct (tokens_end_split r _ _ Hends Hr Htok)
          as (mid & e & r' & -> & Hmid & Hte & Hcls & Hmore & Hrest).
        apply Forall_app in Hr as [_ Hr]. inversion Hr as [|? ? He Hr']; subst.
        apply Forall_app in Hbr as [_ Hbr]. inversion Hbr as [|? ? Hbe Hbr']; subst.
        apply Forall_app in Helems as [Helmid _].
        rewrite forallb_app in Hshr, Henr. cbn [forallb] in Hshr, Henr.
        apply andb_prop in Hshr as [_ [_ Hshr']%andb_prop].
        apply andb_prop in Henr as [_ [Hene Henr']%andb_prop].
        assert (Hise : is_sim_end e = true).
        { unfold is_sim_end, is_instance. by apply bool_decide_eq_true. }
        assert (Hekids : Forall (fun x => marker_free x = true) (node_children e)).
        { unfold end_shape in Hene. rewrite Hise in Hene. simpl in Hene.
          by apply forallb_Forall_true. }
        rewrite (free_no_tokens_all _ Hekids) in Hmore. simpl in Hmore.
        rewrite map_app, list_sum_app in Hsize. simpl in Hsize.
        apply flat_sim; try done.
        apply (IH r' n ltac:(lia) (eq_sym Hmore) Hrest Hr' Hshr' Henr'); [|done].
        apply (apart_drop (Element c a g r0 kids :: mid ++ [e])).
        cbn [app]. by rewrite <- app_assoc.
      * (* of a file *)
        simpl in Hends. rewrite Hnsim, Hgated in Hends.
        destruct (tokens_end_split r _ _ Hends Hr Htok)
          as (mid & e & r' & -> & Hmid & Hte & Hcls & Hmore & Hrest).
        apply Forall_app in Hr as [_ Hr]. inversion Hr as [|? ? He Hr']; subst.
        apply Forall_app in Hbr as [_ Hbr]. inversion Hbr as [|? ? Hbe Hbr']; subst.
        apply Forall_app in Helems as [Helmid _].
        rewrite forallb_app in Hshr, Henr. cbn [forallb] in Hshr, Henr.
        apply andb_prop in Hshr as [_ [_ Hshr']%andb_prop].
        apply andb_prop in Henr as [_ [Hene Henr']%andb_prop].
        assert (Hise : is_file_end e = true).
        { unfold is_file_end, is_instance. by apply bool_decide_eq_true. }
        assert (Hekids : Forall (fun x => marker_free x = true) (node_children e)).
        { unfold end_shape in Hene. rewrite Hise in Hene. rewrite orb_true_r in Hene.
          simpl in Hene. by apply forallb_Forall_true. }
        rewrite (free_no_tokens_all _ Hekids) in Hmore. simpl in Hmore.
        rewrite map_app, list_sum_app in Hsize. simpl in Hsize.
        unfold file_start_shape in Hshc. rewrite Hgated in Hshc. simpl in Hshc.
        destruct (type a) as [ty|] eqn:Hty; [|done].
        destruct (last kids) as [content|] eqn:Hlast; [|done].
        destruct content as [?|cc ca cg cr ccs]; [done|].
        apply last_Some in Hlast as [before Hbefore].
        eapply (flat_file _ ty before (Element cc ca cg cr ccs)); try done.
        apply (IH r' n ltac:(lia) (eq_sym Hmore) Hrest Hr' Hshr' Henr'); [|done].
        apply (apart_drop (Element c a g r0 kids :: mid ++ [e])).
        cbn [app]. by rewrite <- app_assoc.
    + (* an end marker with no start marker before it *)
      rewrite ends_follow_end in Hends by done.
      apply andb_prop in Hends as [Hcls _]. by apply bool_decide_eq_true in Hcls.
Qed.

(** ** The structural validator *)

Lemma join_token_cons t ts :
  is_token t -> Py.join "" (t :: ts) = t +:+ Py.join "" ts.
Proof.
  intros Ht. unfold Py.join. destruct ts as [|u us]; simpl.
  - destruct Ht as [-> | ->]; reflexivity.
  - reflexivity.
Qed.

Lemma findall_SE_bounds ts :
  Forall is_token ts ->
  Py.findall_SE (Py.join "" ts) <= count_token "S" ts /\
  Py.findall_SE (Py.join "" ts) <= count_token "E" ts.
Proof.
  intros H. 
  assert (G: forall n ts, length ts <= n -> Forall is_token ts ->
     Py.findall_SE (Py.join "" ts) <= count_token "S" ts /\
     Py.findall_SE (Py.join "" ts) <= count_token "E" ts).
  { clear. induction n as [|n IH]; intros ts Hl Hts.
    - destruct ts; [|simpl in Hl; lia]. simpl. split; apply Nat.le_refl.
    - destruct ts as [|t ts]; [simpl; split; apply Nat.le_refl|].
      inversion Hts as [|? ? Ht Hts']; subst.
      rewrite join_token_cons by done.
      destruct Ht as [-> | ->].
      + destruct ts as [|u us].
        * vm_compute. split; lia.
        * inversion Hts' as [|? ? Hu Hus]; subst.
          rewrite join_token_cons by done.
          destruct Hu as [-> | ->].
          -- (* S S *) 
             change (Py.findall_SE ("S" +:+ "S" +:+ Py.join "" us)) with (Py.findall_SE ("S" +:+ Py.join "" us)).
             rewrite <- join_token_cons by (left; done).
             destruct (IH ("S" :: us)) as [A B]; [simpl in *; lia|done|].
             unfold count_token in *. simpl in *. lia.
          -- change (Py.findall_SE ("S" +:+ "E" +:+ Py.join "" us)) with (S (Py.findall_SE (Py.join "" us))).
             destruct (IH us) as [A B]; [simpl in *; lia|done|].
             unfold count_token in *. simpl in *. lia.
      + change (Py.findall_SE ("E" +:+ Py.join "" ts)) with (Py.findall_SE (Py.join "" ts)).
        destruct (IH ts) as [A B]; [simpl in *; lia|done|].
        unfold count_token in *. simpl in *. lia. }
  apply (G (length ts)); auto.
Qed.

Lemma flat_pairs_counts n :
  Forall is_token (flat_pairs n) /\
  count_token "S" (flat_pairs n) = n /\ count_token "E" (flat_pairs n) = n /\
  Py.findall_SE (Py.join "" (flat_pairs n)) = n.
Proof.
  induction n as [|n (Ht & HS & HE & HF)]; [by repeat split|].
  change (flat_pairs (S n)) with ("S" :: "E" :: flat_pairs n).
  repeat split.
  - constructor; [by left|]. constructor; [by right|]. done.
  - unfold count_token in *. simpl in *. lia.
  - unfold count_token in *. simpl in *. lia.
  - rewrite join_token_cons by (left; done). rewrite join_token_cons by (right; done).
    change (Py.findall_SE ("S" +:+ "E" +:+ Py.join "" (flat_pairs n)))
      with (S (Py.findall_SE (Py.join "" (flat_pairs n)))).
    by rewrite HF.
Qed.

Lemma findall_SE_all_paired ts :
  Forall is_token ts ->
  count_token "S" ts = count_token "E" ts ->
  Py.findall_SE (Py.join "" ts) = count_token "S" ts ->
  ts = flat_pairs (count_token "S" ts).
Proof.
  remember (length ts) as n eqn:Hn. revert ts Hn.
  induction n as [n IH] using lt_wf_ind. intros ts Hn Hts Heq Hall.
  destruct ts as [|t ts]; [done|].
  inversion Hts as [|? ? Ht Hts']; subst.
  rewrite join_token_cons in Hall by done.
  destruct Ht as [-> | ->].
  - destruct ts as [|u us].
    + vm_compute in Hall. discriminate.
    + inversion Hts' as [|? ? Hu Hus]; subst.
      rewrite join_token_cons in Hall by done.
      destruct Hu as [-> | ->].
      * change (Py.findall_SE ("S" +:+ "S" +:+ Py.join "" us))
          with (Py.findall_SE ("S" +:+ Py.join "" us)) in Hall.
        rewrite <- join_token_cons in Hall by (left; done).
        destruct (findall_SE_bounds ("S" :: us)) as [A _]; [done|].
        unfold count_token in *. simpl in *. lia.
      * change (Py.findall_SE ("S" +:+ "E" +:+ Py.join "" us))
          with (S (Py.findall_SE (Py.join "" us))) in Hall.
        assert (Hus' : us = flat_pairs (count_token "S" us)).
        { apply (IH (length us)); [simpl; lia|done|done| |];
            unfold count_token in *; simpl in *; lia. }
        change (count_token "S" ("S" :: "E" :: us)) with (S (count_token "S" us)).
        change (flat_pairs (S (count_token "S" us)))
          with ("S" :: "E" :: flat_pairs (count_token "S" us)).
        by rewrite <- Hus'.
  - change (Py.findall_SE ("E" +:+ Py.join "" ts))
      with (Py.findall_SE (Py.join "" ts)) in Hall.
    destruct (findall_SE_bounds ts) as [_ B]; [done|].
    unfold count_token in *. simpl in *. lia.
Qed.

Lemma findall_SE_accepts r :
  well_formed_record r ->
  length (g_start r) = length (g_end r) ->
  (Py.findall_SE (Py.join "" (g_sequence r)) = length (g_start r)
   <-> exists n, g_sequence r = flat_pairs n).
Proof.
  intros [Ht HS HE] Heq. split.
  - intros Hall. exists (count_token "S" (g_sequence r)).
    apply findall_SE_all_paired; [done|lia|lia].
  - intros [n Hn]. destruct (flat_pairs_counts n) as (_ & A & _ & B).
    rewrite HS, Hn. lia.
Qed.

(** C1.  On a record the gated directives have built, the validator logs
    the missing-end error and raises when more starts than ends are recorded,
    logs the missing-start error and raises when fewer are, and with as many
    starts as ends returns normally exactly when the token sequence is a
    run of disjoint contiguous [S E] pairs, logging the nested error and
    raising otherwise.  Each failure is the fatal [ExtensionError], raised
    after the document's error has been logged. *)
Theorem check_structure_sound e registry r :
  sphinx_spice_file_gated_registry e = Some registry ->
  registry !! env_docname e = Some r ->
  well_formed_record r ->
  (length (g_end r) < length (g_start r) ->
     CheckGatedDirectives_apply e =
       (Raise (ExtensionError gated_error_msg),
        log_error (missing_end_msg (env_docname e) (g_type r) (structure_of r)) e)) /\
  (length (g_start r) < length (g_end r) ->
     CheckGatedDirectives_apply e =
       (Raise (ExtensionError gated_error_msg),
        log_error (missing_start_msg (env_docname e) (g_type r) (structure_of r)) e)) /\
  (length (g_start r) = length (g_end r) ->
     (CheckGatedDirectives_apply e = (Ok tt, e) <-> exists n, g_sequence r = flat_pairs n) /\
     ((~ exists n, g_sequence r = flat_pairs n) ->
      CheckGatedDirectives_apply e =
        (Raise (ExtensionError gated_error_msg),
         log_error (nested_msg (env_docname e) (g_type r) (structure_of r)) e))).
Proof.
  intros Hreg Hr Hwf.
  unfold CheckGatedDirectives_apply, check_structure, bind, get_env, when, ret,
    raise, logger_error, modify_env. rewrite Hreg. simpl. rewrite Hr. simpl.
  repeat split.
  - intros Hlt.
    destruct (Nat.ltb_spec (length (g_end r)) (length (g_start r))); [|lia].
    destruct (Nat.ltb_spec (length (g_start r)) (length (g_end r))); [lia|].
    destruct (Nat.eqb_spec (length (g_start r)) (length (g_end r))); [lia|].
    reflexivity.
  - intros Hlt.
    destruct (Nat.ltb_spec (length (g_end r)) (length (g_start r))); [lia|].
    destruct (Nat.ltb_spec (length (g_start r)) (length (g_end r))); [|lia].
    destruct (Nat.eqb_spec (length (g_start r)) (length (g_end r))); [lia|].
    reflexivity.
  - intros Hok. 
    destruct (Nat.ltb_spec (length (g_end r)) (length (g_start r))); [lia|].
    destruct (Nat.ltb_spec (length (g_start r)) (length (g_end r))); [lia|].
    destruct (Nat.eqb_spec (length (g_start r)) (length (g_end r))); [|lia].
    apply findall_SE_accepts; [done|done|].
    destruct (Nat.eqb_spec (Py.findall_SE (Py.join "" (g_sequence r))) (length (g_start r)));
      [done|]. simpl in Hok. discriminate.
  - intros Hflat.
    destruct (Nat.ltb_spec (length (g_end r)) (length (g_start r))); [lia|].
    destruct (Nat.ltb_spec (length (g_start r)) (length (g_end r))); [lia|].
    destruct (Nat.eqb_spec (length (g_start r)) (length (g_end r))); [|lia].
    apply findall_SE_accepts in Hflat; [|done|done].
    rewrite Hflat, Nat.eqb_refl. reflexivity.
  - intros Hflat.
    destruct (Nat.ltb_spec (length (g_end r)) (length (g_start r))); [lia|].
    destruct (Nat.ltb_spec (length (g_start r)) (length (g_end r))); [lia|].
    destruct (Nat.eqb_spec (length (g_start r)) (length (g_end r))); [|lia].
    destruct (Nat.eqb_spec (Py.findall_SE (Py.join "" (g_sequence r))) (length (g_start r)))
      as [Hall|Hall].
    + exfalso. apply Hflat. by apply findall_SE_accepts.
    + reflexivity.
Qed.

Lemma check_structure_sound_witness :
  well_formed_record (recorded_or_new "" env_split_depth) /\
  (CheckGatedDirectives_apply env_split_depth = (Ok tt, env_split_depth)
   <-> exists n, g_sequence (recorded_or_new "" env_split_depth) = flat_pairs n).
Proof.
  assert (Hwf : well_formed_record (recorded_or_new "" env_split_depth)).
  { split; [|reflexivity|reflexivity].
    constructor; [by left|]. constructor; [by right|]. constructor. }
  split; [exact Hwf|].
  apply (check_structure_sound env_split_depth
           (default ∅ (sphinx_spice_file_gated_registry env_split_depth))
           (recorded_or_new "" env_split_depth)); [reflexivity|reflexivity|exact Hwf|reflexivity].
Defined.

(** The five sequences of the specification, recorded by the directives. *)
Example validator_on_sample_sequences :
  fst (CheckGatedDirectives_apply (env_of_sequence ["S"; "E"])) = Ok tt /\
  fst (CheckGatedDirectives_apply (env_of_sequence ["S"; "E"; "S"; "E"])) = Ok tt /\
  (let e := env_of_sequence ["S"; "S"; "E"; "E"] in
   CheckGatedDirectives_apply e
   = (Raise (ExtensionError gated_error_msg),
      log_error (nested_msg "index" "spice_simulation"
                   (structure_of (recorded_or_new "" e))) e)) /\
  (let e := env_of_sequence ["S"; "E"; "E"] in
   CheckGatedDirectives_apply e
   = (Raise (ExtensionError gated_error_msg),
      log_error (missing_start_msg "index" "spice_simulation"
                   (structure_of (recorded_or_new "" e))) e)) /\
  (let e := env_of_sequence ["S"; "S"; "E"] in
   CheckGatedDirectives_apply e
   = (Raise (ExtensionError gated_error_msg),
      log_error (missing_end_msg "index" "spice_simulation"
                   (structure_of (recorded_or_new "" e))) e)).
Proof. vm_compute. repeat split. Qed.

(** *** The validator and the tree *)

Lemma accepted_sequence_flat e :
  (forall r, recorded e = Some r -> well_formed_record r) ->
  fst (CheckGatedDirectives_apply e) = Ok tt ->
  exists n, recorded_sequence e = flat_pairs n.
Proof.
  intros Hwf. unfold recorded_sequence, recorded in *.
  unfold CheckGatedDirectives_apply, check_structure, bind, get_env, when, ret,
    raise, logger_error, modify_env.
  destruct (sphinx_spice_file_gated_registry e) as [registry|]; simpl; [|by exists 0].
  destruct (registry !! env_docname e) as [r|] eqn:Hr; simpl; [|by exists 0].
  specialize (Hwf r Hr).
  destruct (Nat.ltb_spec (length (g_end r)) (length (g_start r)));
    [destruct (_ <? _)%nat, (_ =? _)%nat; simpl; try destruct (negb _); by intros [=]|].
  destruct (Nat.ltb_spec (length (g_start r)) (length (g_end r)));
    [destruct (_ =? _)%nat; simpl; try destruct (negb _); by intros [=]|].
  destruct (Nat.eqb_spec (length (g_start r)) (length (g_end r))); [|lia].
  destruct (Nat.eqb_spec (Py.findall_SE (Py.join "" (g_sequence r))) (length (g_start r)))
    as [Hall|Hall]; [|by intros [=]].
  intros _. by apply findall_SE_accepts.
Qed.

(** C2, as amended.  When the record of the document is as the gated
    directives build it and holds the tokens of the markers of the tree in
    document order, the validator accepts it, every end marker follows,
    among its own siblings, a start marker of its kind with no other end
    marker between them, and the sibling lists are as the parser and the
    directives build them, the merge pass returns a tree in which no start
    marker and no end marker is left at any depth. *)
Theorem merge_removes_paired_markers e a g r cs :
  (forall rec_, recorded e = Some rec_ -> well_formed_record rec_) ->
  recorded_sequence e = tokens (Element document a g r cs) ->
  fst (CheckGatedDirectives_apply e) = Ok tt ->
  every_level (ends_follow None) (Element document a g r cs) = true ->
  every_level built_siblings (Element document a g r cs) = true ->
  exists doc',
    merge_pass (Element document a g r cs) = Ok doc' /\ marker_free doc' = true.
Proof.
  intros Hwf Hseq Hok Hends Hbuilt.
  destruct (accepted_sequence_flat e Hwf Hok) as [n Hn].
  rewrite tokens_element in Hseq. change (tokens_of cs) with ([] ++ tokens_of cs) in Hn.
  apply every_level_element in Hends as [Hends Hdeep].
  apply every_level_element in Hbuilt as [Hroot Hbelow].
  destruct (built_siblings_parts _ Hroot) as (Hshape & Hend & Hnd & Hapart).
  assert (Hflat : flat cs).
  { apply (flat_of_tokens (list_sum (map node_size cs)) cs n); try done.
    rewrite <- Hn, Hseq. reflexivity. }
  destruct (merge_pass_flat document a g r cs) as (cs' & Hrun & Hfree); try done.
  by exists (Element document a g r cs').
Qed.

Lemma merge_removes_paired_markers_witness :
  exists doc', merge_pass (example_document doc_same_depth) = Ok doc' /\ marker_free doc' = true.
Proof.
  apply (merge_removes_paired_markers env_split_depth).
  - intros rec_ H. vm_compute in H. injection H as <-.
    split; [|reflexivity|reflexivity].
    constructor; [by left|]. constructor; [by right|]. constructor.
  - reflexivity.
  - reflexivity.
  - reflexivity.
  - vm_compute. reflexivity.
Defined.

(** C2, as stated, fails: the validator accepts the document, the start
    marker lies at the top and its end marker inside a container, and the
    merge pass returns the tree as it was, both markers still in it. *)
Lemma markers_survive_across_depths :
  fst (CheckGatedDirectives_apply env_split_depth) = Ok tt /\
  recorded_sequence env_split_depth = ["S"; "E"] /\
  merge_pass doc_split_depth = Ok doc_split_depth /\
  free_of is_sim_start doc_split_depth = false /\
  free_of is_sim_end doc_split_depth = false.
Proof. vm_compute. repeat split. Qed.

(** ** One gated pair *)

Lemma files_walk_one_pair cls d c a g r pre s ty before content mid e post :
  cls = spice_file_node \/ cls = spice_file_enumerable_node ->
  list_sum (map node_size (pre ++ s :: mid ++ e :: post)) <= d ->
  Forall (fun x => marker_free x = true) pre ->
  Forall (fun x => marker_free x = true) post ->
  Forall (fun x => marker_free x = true) mid ->
  Forall (fun x => marker_free x = true) (node_children s) ->
  Forall (fun x => (Files.is_file x && bool_decide (get_label s = get_label x)) = false) pre ->
  is_instance cls s = true ->
  node_gated s = true ->
  type (node_attrs s) = Some ty ->
  node_children s = before ++ [content] ->
  node_cls content <> None ->
  Forall (fun x => is_element x = true) mid ->
  is_file_end e = true ->
  Files.walk cls (S d) (Element c a g r (pre ++ s :: mid ++ e :: post)) =
  Ok (Element c a g r (pre ++ file_merged s ty before content mid :: post)).
Proof.
  intros Hcls Hsize Hpre Hpost Hmid Hkids Hlab Hinst Hgated Hty Hch Hcont Hel He.
  rewrite files_walk_S.
  rewrite !map_app, !list_sum_app in Hsize. simpl in Hsize.
  rewrite map_app, list_sum_app in Hsize. simpl in Hsize.
  assert (Hfile : Files.is_file s = true).
  { unfold Files.is_file. destruct Hcls as [-> | ->]; rewrite Hinst; by rewrite ?orb_true_r. }
  assert (Hplain : forall l, Forall (fun x => marker_free x = true) l ->
            list_sum (map node_size l) <= d ->
            Forall (fun x => gated_of cls x = false /\ Files.walk cls d x = Ok x) l).
  { intros l Hl Hsz. apply Forall_forall. intros x Hx. rewrite Forall_forall in Hl. split.
    - apply free_of_here. apply marker_free_no_gated; [done|by apply Hl].
    - apply files_walk_id; [|apply marker_free_no_gated; [done|by apply Hl]].
      pose proof (height_le_size x). pose proof (size_child x _ Hx). lia. }
  set (m := file_merged s ty before content mid).
  assert (Hsne : node_cls s <> None) by (apply class_of_instance in Hinst; congruence).
  assert (Hm : marker_free m = true) by by apply file_merged_marker_free.
  assert (Hmsize : node_size m = node_size s + list_sum (map node_size mid))
    by by apply file_merged_size.
  replace (length (pre ++ s :: mid ++ e :: post))
    with (length pre + S (length mid + S (length post)))
    by (rewrite !length_app; cbn [length]; rewrite ?length_app; cbn [length]; lia).
  change 0 with (length (@nil node)).
  change (pre ++ s :: mid ++ e :: post) with ([] ++ pre ++ s :: mid ++ e :: post).
  rewrite files_loop_skip by (apply Hplain; [done|lia]).
  change ([] ++ pre) with pre.
  rewrite (files_loop_pair cls _ _ pre s ty before content mid e post); try done.
  - rewrite files_loop_id; [done|].
    apply Forall_app. split; [apply Hplain; [done|lia]|].
    constructor; [|apply Hplain; [done|lia]]. split.
    + apply free_of_here. by apply marker_free_no_gated.
    + apply files_walk_id; [|by apply marker_free_no_gated].
      pose proof (height_le_size m). fold m. lia.
  - apply files_walk_id; [|by apply marker_free_no_gated].
    pose proof (height_le_size m). fold m. lia.
  - eapply Forall_impl; [exact Hmid|]. intros x Hx.
    by apply not_marker_parts, marker_free_not_marker.
Qed.

Lemma sims_walk_one_pair d c a g r pre s mid e post :
  list_sum (map node_size (pre ++ s :: mid ++ e :: post)) <= d ->
  Forall (fun x => marker_free x = true) pre ->
  Forall (fun x => marker_free x = true) post ->
  Forall (fun x => marker_free x = true) mid ->
  Forall (fun x => marker_free x = true) (node_children s) ->
  is_sim_start s = true ->
  Forall (fun x => is_element x = true) mid ->
  is_sim_end e = true ->
  Sims.walk (S d) (Element c a g r (pre ++ s :: mid ++ e :: post)) =
  Ok (Element c a g r (pre ++ Sims.new_node (node_attrs s) (kept_children s) mid :: post)).
Proof.
  intros Hsize Hpre Hpost Hmid Hkids Hs Hel He.
  rewrite sims_walk_S.
  rewrite !map_app, !list_sum_app in Hsize. simpl in Hsize.
  rewrite map_app, list_sum_app in Hsize. simpl in Hsize.
  assert (Hplain : forall l, Forall (fun x => marker_free x = true) l ->
            list_sum (map node_size l) <= d ->
            Forall (fun x => is_sim_start x = false /\ Sims.walk d x = Ok x) l).
  { intros l Hl Hsz. apply Forall_forall. intros x Hx. rewrite Forall_forall in Hl. split.
    - by apply not_marker_parts, marker_free_not_marker, Hl.
    - apply sims_walk_id; [|by apply marker_free_no_sim_start, Hl].
      pose proof (height_le_size x). pose proof (size_child x _ Hx). lia. }
  replace (length (pre ++ s :: mid ++ e :: post))
    with (length pre + S (length mid + S (length post)))
    by (rewrite !length_app; cbn [length]; rewrite ?length_app; cbn [length]; lia).
  change 0 with (length (@nil node)).
  change (pre ++ s :: mid ++ e :: post) with ([] ++ pre ++ s :: mid ++ e :: post).
  rewrite sims_loop_skip by (apply Hplain; [done|lia]).
  change ([] ++ pre) with pre.
  rewrite sims_loop_pair; try done.
  - rewrite sims_loop_id; [done|].
    apply Forall_app. split; [apply Hplain; [done|lia]|].
    constructor; [|apply Hplain; [done|lia]]. split; [done|].
    apply sims_walk_below.
    + pose proof (sim_new_node_marker_free s mid Hkids Hmid) as Hn.
      transitivity (node_size (Sims.new_node (node_attrs s) (kept_children s) mid));
        [apply height_le_size|].
      unfold Sims.new_node, new_element, Sims.content_section, new_element. simpl.
      rewrite map_app, list_sum_app. simpl.
      assert (list_sum (map node_size (kept_children s))
              <= list_sum (map node_size (node_children s))) by apply filter_size.
      pose proof (node_size_pos e).
      destruct s as [t|sc sa sg sr scs]; [done|]. simpl in *. lia.
    + eapply Forall_impl; [apply marker_free_children, sim_new_node_marker_free; done|].
      intros x. apply marker_free_no_sim_start.
  - eapply Forall_impl; [apply (Hplain pre); [done|lia]|]. by intros x [? _].
  - apply Forall_forall. intros x Hx. rewrite Forall_forall in Hkids.
    apply sims_walk_id; [|by apply marker_free_no_sim_start, Hkids].
    pose proof (height_le_size x). pose proof (size_child x _ Hx).
    destruct s; simpl in *; [by apply elem_of_nil in Hx|]. lia.
  - apply sims_walk_below; [pose proof (height_le_size s); lia|].
    eapply Forall_impl; [exact Hkids|]. intros x. apply marker_free_no_sim_start.
  - eapply Forall_impl; [exact Hmid|]. intros x Hx.
    by apply not_marker_parts, marker_free_not_marker.
Qed.

Lemma depth_covers_height n : node_height n <= traversal_depth n.
Proof. unfold traversal_depth. pose proof (height_le_size n). lia. Qed.

Lemma files_apply_id doc :
  Forall (fun x => marker_free x = true) (node_children doc) ->
  Files.apply doc = Ok doc.
Proof.
  intros H. unfold Files.apply.
  rewrite files_walk_below; [|apply depth_covers_height|].
  - cbn [rbind]. apply files_walk_below; [apply depth_covers_height|].
    eapply Forall_impl; [exact H|]. intros x. apply marker_free_no_gated. by right.
  - eapply Forall_impl; [exact H|]. intros x. apply marker_free_no_gated. by left.
Qed.

Lemma file_build_children h name d docname serial :
  node_children (spice_file_build h name d docname serial)
  = [file_title_of d] ++ [file_section (content d)].
Proof.
  unfold spice_file_build.
  destruct (opt_nonumber d), (bool_decide (name = "spice_file-start")); reflexivity.
Qed.

Lemma file_title_marker_free d :
  Forall (fun x => marker_free x = true) (subtitle_nodes d) ->
  marker_free (file_title_of d) = true.
Proof.
  intros Hsub. unfold file_title_of. destruct (arguments d); [done|].
  apply marker_free_element; [done|].
  constructor; [done|]. constructor; [|done]. by apply marker_free_element.
Qed.

Lemma file_start_facts h d docname serial :
  let s := spice_file_build h "spice_file-start" d docname serial in
  is_instance (file_class d) s = true /\
  node_gated s = true /\
  type (node_attrs s) = Some "spice_file-start" /\
  get_label s = Some (directive_label "spice_file" d docname serial).
Proof.
  unfold spice_file_build, file_class.
  destruct (opt_nonumber d), (arguments d); repeat split; reflexivity.
Qed.

Lemma file_merged_is_block h d docname serial mid :
  file_merged (spice_file_build h "spice_file-start" d docname serial) "spice_file-start"
    [file_title_of d] (file_section (content d)) mid
  = map_classes (Py.replace "-start" "")
      (spice_file_build h "spice_file" (with_content (content d ++ mid) d) docname serial).
Proof.
  unfold spice_file_build, file_merged, map_classes, file_updated, file_title_of.
  cbn [with_content arguments opt_nonumber content subtitle_nodes opt_hidden].
  destruct (opt_nonumber d), (arguments d); reflexivity.
Qed.

Lemma sim_new_node_is_block h d target docname serial mid :
  let s := spice_simulation_build h "spice_simulation-start" spice_simulation_start_node
             d target docname serial in
  Sims.new_node (node_attrs s) (kept_children s) mid
  = map_classes (Py.replace "spice_simulation-start" "spice_simulation")
      (spice_simulation_build h "spice_simulation" spice_simulation_node
         (with_content mid d) target docname serial).
Proof. reflexivity. Qed.

Lemma plain_walks_sims d l :
  Forall (fun x => marker_free x = true) l ->
  list_sum (map node_size l) <= d ->
  Forall (fun x => is_sim_start x = false /\ Sims.walk d x = Ok x) l.
Proof.
  intros Hl Hsz. apply Forall_forall. intros x Hx. rewrite Forall_forall in Hl. split.
  - by apply not_marker_parts, marker_free_not_marker, Hl.
  - apply sims_walk_id; [|by apply marker_free_no_sim_start, Hl].
    pose proof (height_le_size x). pose proof (size_child x _ Hx). lia.
Qed.

Lemma plain_walks_files cls d l :
  cls = spice_file_node \/ cls = spice_file_enumerable_node ->
  Forall (fun x => marker_free x = true) l ->
  list_sum (map node_size l) <= d ->
  Forall (fun x => gated_of cls x = false /\ Files.walk cls d x = Ok x) l.
Proof.
  intros Hcls Hl Hsz. apply Forall_forall. intros x Hx. rewrite Forall_forall in Hl. split.
  - apply free_of_here. apply marker_free_no_gated; [done|by apply Hl].
  - apply files_walk_id; [|apply marker_free_no_gated; [done|by apply Hl]].
    pose proof (height_le_size x). pose proof (size_child x _ Hx). lia.
Qed.

Lemma sims_walk_frame d c a g r pre x x' post :
  list_sum (map node_size (pre ++ x :: post)) <= d ->
  Forall (fun y => marker_free y = true) pre ->
  Forall (fun y => marker_free y = true) post ->
  is_sim_start x = false ->
  Sims.walk d x = Ok x' ->
  Sims.walk (S d) (Element c a g r (pre ++ x :: post))
  = Ok (Element c a g r (pre ++ x' :: post)).
Proof.
  intros Hsize Hpre Hpost Hx Hrun. rewrite sims_walk_S.
  rewrite map_app, list_sum_app in Hsize. simpl in Hsize.
  replace (length (pre ++ x :: post)) with (length pre + S (length post))
    by (rewrite length_app; simpl; lia).
  change 0 with (length (@nil node)).
  change (pre ++ x :: post) with ([] ++ pre ++ x :: post).
  rewrite sims_loop_skip by (apply plain_walks_sims; [done|lia]).
  change ([] ++ pre) with pre.
  rewrite (sims_loop_step _ _ pre x x') by done.
  replace (S (length pre)) with (length (pre ++ [x'])) by (rewrite length_app; simpl; lia).
  replace (pre ++ x' :: post) with ((pre ++ [x']) ++ post ++ [])
    by (rewrite <- app_assoc, app_nil_r; done).
  replace (length post) with (length post + 0) by lia.
  rewrite sims_loop_skip by (apply plain_walks_sims; [done|lia]).
  cbn [Sims.loop rbind]. by rewrite <- app_assoc.
Qed.

Lemma files_walk_frame cls d c a g r pre x x' post :
  cls = spice_file_node \/ cls = spice_file_enumerable_node ->
  list_sum (map node_size (pre ++ x :: post)) <= d ->
  Forall (fun y => marker_free y = true) pre ->
  Forall (fun y => marker_free y = true) post ->
  gated_of cls x = false ->
  Files.walk cls d x = Ok x' ->
  Files.walk cls (S d) (Element c a g r (pre ++ x :: post))
  = Ok (Element c a g r (pre ++ x' :: post)).
Proof.
  intros Hcls Hsize Hpre Hpost Hx Hrun. rewrite files_walk_S.
  rewrite map_app, list_sum_app in Hsize. simpl in Hsize.
  replace (length (pre ++ x :: post)) with (length pre + S (length post))
    by (rewrite length_app; simpl; lia).
  change 0 with (length (@nil node)).
  change (pre ++ x :: post) with ([] ++ pre ++ x :: post).
  rewrite files_loop_skip by (apply plain_walks_files; [done|done|lia]).
  change ([] ++ pre) with pre.
  rewrite (files_loop_step _ _ _ pre x x') by done.
  replace (S (length pre)) with (length (pre ++ [x'])) by (rewrite length_app; simpl; lia).
  replace (pre ++ x' :: post) with ((pre ++ [x']) ++ post ++ [])
    by (rewrite <- app_assoc, app_nil_r; done).
  replace (length post) with (length post + 0) by lia.
  rewrite files_loop_skip by (apply plain_walks_files; [done|done|lia]).
  cbn [Files.loop rbind]. by rewrite <- app_assoc.
Qed.

Lemma fill_marker_free fs n :
  Forall plain_frame fs -> marker_free n = true -> marker_free (fill fs n) = true.
Proof.
  induction 1 as [|f fs (Hm & Hpre & Hpost) _ IH]; intros Hn; simpl; [done|].
  apply marker_free_element; [exact Hm|].
  apply Forall_app. split; [done|]. constructor; [by apply IH|done].
Qed.

Lemma fill_free_of p fs n :
  (forall x, p x = true -> is_marker x = true) ->
  Forall plain_frame fs -> free_of p n = true -> free_of p (fill fs n) = true.
Proof.
  intros Hp. induction 1 as [|f fs (Hm & Hpre & Hpost) _ IH]; intros Hn; simpl; [done|].
  assert (Hplain : forall l, Forall (fun x => marker_free x = true) l ->
                             Forall (fun x => free_of p x = true) l).
  { intros l Hl. eapply Forall_impl; [exact Hl|]. intros x. by apply free_of_weaken. }
  apply andb_true_intro. split.
  - apply negb_true_iff.
    destruct (p (Element (f_cls f) (f_attrs f) (f_gated f) (f_resolved f)
                   (f_before f ++ fill fs n :: f_after f))) eqn:E; [|done].
    apply Hp in E. rewrite (is_marker_children _ _ _ _ _ []) in E. congruence.
  - apply forallb_Forall_true. apply Forall_app. split; [by apply Hplain|].
    constructor; [by apply IH|by apply Hplain].
Qed.

Lemma fill_not_marker f fs n :
  Forall plain_frame (f :: fs) -> is_marker (fill (f :: fs) n) = false.
Proof. intros H. inversion H as [|? ? (Hm & _) _]; subst. exact Hm. Qed.

Lemma sims_walk_fill fs n n' :
  Forall plain_frame fs ->
  is_sim_start n = false ->
  (forall d, node_size n <= d -> Sims.walk d n = Ok n') ->
  forall d, node_size (fill fs n) <= d -> Sims.walk d (fill fs n) = Ok (fill fs n').
Proof.
  intros Hfs Hn Hrun. induction Hfs as [|f fs (Hm & Hpre & Hpost) Hfs IH]; intros d Hd.
  - by apply Hrun.
  - cbn [fill] in *. destruct d as [|d]; [simpl in Hd; lia|].
    assert (Hsz : list_sum (map node_size (f_before f ++ fill fs n :: f_after f)) <= d)
      by (simpl in Hd; lia).
    apply sims_walk_frame; [done|done|done| |apply IH].
    + destruct fs as [|f' fs']; [done|].
      by apply not_marker_parts, fill_not_marker.
    + rewrite map_app, list_sum_app in Hsz. simpl in Hsz. lia.
Qed.

Lemma files_walk_fill cls fs n n' :
  cls = spice_file_node \/ cls = spice_file_enumerable_node ->
  Forall plain_frame fs ->
  gated_of cls n = false ->
  (forall d, node_size n <= d -> Files.walk cls d n = Ok n') ->
  forall d, node_size (fill fs n) <= d -> Files.walk cls d (fill fs n) = Ok (fill fs n').
Proof.
  intros Hcls Hfs Hn Hrun. induction Hfs as [|f fs (Hm & Hpre & Hpost) Hfs IH]; intros d Hd.
  - by apply Hrun.
  - cbn [fill] in *. destruct d as [|d]; [simpl in Hd; lia|].
    assert (Hsz : list_sum (map node_size (f_before f ++ fill fs n :: f_after f)) <= d)
      by (simpl in Hd; lia).
    apply files_walk_frame; [done|done|done|done| |apply IH].
    + destruct fs as [|f' fs']; [done|].
      by apply not_marker_not_gated, fill_not_marker.
    + rewrite map_app, list_sum_app in Hsz. simpl in Hsz. lia.
Qed.

Lemma size_le_depth n : node_size n <= traversal_depth n.
Proof. unfold traversal_depth. lia. Qed.

Lemma plain_parent_free p c a g r cs :
  (forall x, p x = true -> is_marker x = true) ->
  is_marker (Element c a g r []) = false ->
  Forall (fun x => free_of p x = true) cs ->
  free_of p (Element c a g r cs) = true.
Proof.
  intros Hp Hm Hcs. apply free_of_element; [|done].
  destruct (p (Element c a g r cs)) eqn:E; [|done].
  apply Hp in E. rewrite (is_marker_children _ _ _ _ _ []) in E. congruence.
Qed.

Lemma sim_round_trip_at h d target docname serial fs c a g r pre mid post :
  Forall plain_frame fs ->
  is_marker (Element c a g r []) = false ->
  Forall (fun x => marker_free x = true) pre ->
  Forall (fun x => marker_free x = true) mid ->
  Forall (fun x => is_element x = true) mid ->
  Forall (fun x => marker_free x = true) post ->
  Forall (fun x => marker_free x = true) (content d) ->
  merge_pass
    (fill fs (Element c a g r
       (pre ++ spice_simulation_build h "spice_simulation-start" spice_simulation_start_node
                 d target docname serial :: mid ++ simulation_end :: post)))
  = Ok (fill fs (Element c a g r
          (pre ++ map_classes (Py.replace "spice_simulation-start" "spice_simulation")
                    (spice_simulation_build h "spice_simulation" spice_simulation_node
                       (with_content mid d) target docname serial) :: post))).
Proof.
  intros Hfs Hparent Hpre Hmid Hel Hpost Hcontent.
  set (s := spice_simulation_build h "spice_simulation-start" spice_simulation_start_node
              d target docname serial).
  assert (Hkids : Forall (fun x => marker_free x = true) (node_children s)).
  { unfold s, spice_simulation_build. cbn [node_children set_attrs append_child
      new_element set_children app].
    constructor; [done|]. constructor; [|done]. by apply marker_free_element. }
  rewrite <- sim_new_node_is_block. fold s.
  set (new := Sims.new_node (node_attrs s) (kept_children s) mid).
  assert (Hnew : marker_free new = true) by (by apply sim_new_node_marker_free).
  assert (Hstart : is_sim_start (Element c a g r
            (pre ++ s :: mid ++ simulation_end :: post)) = false).
  { apply not_marker_parts. by rewrite (is_marker_children _ _ _ _ _ []). }
  assert (Hinner : forall dd,
            node_size (Element c a g r (pre ++ s :: mid ++ simulation_end :: post)) <= dd ->
            Sims.walk dd (Element c a g r (pre ++ s :: mid ++ simulation_end :: post))
            = Ok (Element c a g r (pre ++ new :: post))).
  { intros dd Hdd. destruct dd as [|dd]; [simpl in Hdd; lia|].
    apply sims_walk_one_pair; try done. simpl in Hdd. lia. }
  unfold merge_pass, Sims.apply.
  rewrite (sims_walk_fill fs _ _ Hfs Hstart Hinner) by apply size_le_depth.
  cbn [rbind]. apply files_apply_id. apply marker_free_children.
  apply fill_marker_free; [done|]. apply marker_free_element.
  - by rewrite (is_marker_children _ _ _ _ _ []).
  - apply Forall_app. split; [done|]. by constructor.
Qed.

Lemma file_round_trip_at h d docname serial fs c a g r pre mid post :
  Forall plain_frame fs ->
  is_marker (Element c a g r []) = false ->
  Forall (fun x => marker_free x = true) pre ->
  Forall (fun x => marker_free x = true) mid ->
  Forall (fun x => is_element x = true) mid ->
  Forall (fun x => marker_free x = true) post ->
  Forall (fun x => marker_free x = true) (content d) ->
  Forall (fun x => marker_free x = true) (subtitle_nodes d) ->
  Forall (fun x => (Files.is_file x
                    && bool_decide (Some (directive_label "spice_file" d docname serial)
                                    = get_label x)) = false) pre ->
  merge_pass
    (fill fs (Element c a g r
       (pre ++ spice_file_build h "spice_file-start" d docname serial
            :: mid ++ file_end :: post)))
  = Ok (fill fs (Element c a g r
          (pre ++ map_classes (Py.replace "-start" "")
                    (spice_file_build h "spice_file" (with_content (content d ++ mid) d)
                                      docname serial) :: post))).
Proof.
  intros Hfs Hparent Hpre Hmid Hel Hpost Hcontent Hsub Hlab.
  set (s := spice_file_build h "spice_file-start" d docname serial).
  pose proof (file_build_children h "spice_file-start" d docname serial) as Hch.
  destruct (file_start_facts h d docname serial) as (Hinst & Hgated & Hty & Hlabel).
  fold s in Hch, Hinst, Hgated, Hty, Hlabel.
  assert (Hkids : Forall (fun x => marker_free x = true) (node_children s)).
  { rewrite Hch. constructor; [by apply file_title_marker_free|]. constructor; [|done].
    by apply marker_free_element. }
  assert (Hcls : file_class d = spice_file_node \/ file_class d = spice_file_enumerable_node)
    by (unfold file_class; destruct (opt_nonumber d); auto).
  assert (Hfile : Files.is_file s = true).
  { unfold Files.is_file. destruct Hcls as [Hc|Hc]; rewrite Hc in Hinst; rewrite Hinst;
      by rewrite ?orb_true_r. }
  assert (Hsne : node_cls s <> None) by (apply class_of_instance in Hinst; congruence).
  set (m := map_classes (Py.replace "-start" "")
              (spice_file_build h "spice_file" (with_content (content d ++ mid) d) docname serial)).
  assert (Hm : file_merged s "spice_file-start" [file_title_of d]
                 (file_section (content d)) mid = m) by by apply file_merged_is_block.
  assert (Hmfree : marker_free m = true).
  { rewrite <- Hm. by apply file_merged_marker_free. }
  set (parent := Element c a g r (pre ++ s :: mid ++ file_end :: post)).
  set (parent' := Element c a g r (pre ++ m :: post)).
  assert (Hdone : marker_free (fill fs parent') = true).
  { apply fill_marker_free; [done|]. apply marker_free_element.
    - by rewrite (is_marker_children _ _ _ _ _ []).
    - apply Forall_app. split; [done|]. by constructor. }
  (* the markers of the document are the file start and the file end *)
  assert (Hfree : forall p,
            (forall x, p x = true -> is_marker x = true) ->
            p s = false -> p file_end = false ->
            free_of p (fill fs parent) = true).
  { intros p Hp Hps Hpe.
    assert (Hplain : forall l, Forall (fun x => marker_free x = true) l ->
                               Forall (fun x => free_of p x = true) l).
    { intros l Hl. eapply Forall_impl; [exact Hl|]. intros x. by apply free_of_weaken. }
    apply fill_free_of; [done|done|].
    apply plain_parent_free; [done|done|].
    apply Forall_app. split; [by apply Hplain|]. constructor.
    - destruct s as [t|sc sa sg sr scs] eqn:Es; [done|]. apply free_of_element; [done|].
      by apply Hplain.
    - apply Forall_app. split; [by apply Hplain|]. constructor; [|by apply Hplain].
      change (negb (p file_end) && true = true). by rewrite Hpe. }
  assert (Hmerge : forall cls dd, cls = file_class d ->
            node_size (fill fs parent) <= dd ->
            Files.walk cls dd (fill fs parent) = Ok (fill fs parent')).
  { intros cls dd -> Hdd. apply files_walk_fill; try done.
    - apply not_marker_not_gated; [done|]. exact Hparent.
    - intros d1 Hd1. destruct d1 as [|d1]; [simpl in Hd1; lia|].
      unfold parent, parent'. rewrite <- Hm.
      eapply files_walk_one_pair; try done.
      + simpl in Hd1. lia.
      + by rewrite Hlabel. }
  unfold merge_pass. unfold Sims.apply.
  rewrite sims_walk_id; [|apply depth_covers_height|].
  2:{ apply Hfree; [intros x Hx; unfold is_marker; by rewrite Hx| |done].
      apply gated_file_not_sim_start. unfold is_gated_file. by rewrite Hfile, Hgated. }
  cbn [rbind]. unfold Files.apply.
  destruct (opt_nonumber d) eqn:Hnum.
  - rewrite Hmerge; [|unfold file_class; by rewrite Hnum|apply size_le_depth].
    cbn [rbind]. apply files_walk_id; [apply depth_covers_height|].
    apply marker_free_no_gated; [by right|done].
  - rewrite files_walk_id; [|apply depth_covers_height|].
    + cbn [rbind]. apply Hmerge; [unfold file_class; by rewrite Hnum|apply size_le_depth].
    + apply Hfree.
      * intros x Hx. unfold gated_of in Hx. unfold is_marker, is_gated_file, Files.is_file.
        apply andb_true_iff in Hx as [Hx1 Hx2]. rewrite Hx1, Hx2.
        by rewrite orb_true_r.
      * unfold gated_of. unfold file_class in Hinst. rewrite Hnum in Hinst.
        by rewrite (instance_other spice_file_enumerable_node spice_file_node s).
      * done.
Qed.

(** C3, as amended.  A document with one gated pair (a start block built
    by the start directive, sibling elements [mid], the end marker among
    them) and no other marker, the pair lying at any depth below elements
    that are no markers, merges into the document that holds, in place of
    the pair, the block the plain directive builds from the same options,
    but for the class tags, from which "-start" is removed.  The body of
    that block is, for a file block, the body of the start directive
    followed by the siblings, and for a simulation block the siblings
    alone: the merge leaves the start directive's own section out of a
    simulation block.  The label of the file block is carried by no file
    block before it among its siblings. *)
Theorem gated_pair_round_trip h d docname serial fs c a g r pre mid post :
  Forall plain_frame fs ->
  is_marker (Element c a g r []) = false ->
  Forall (fun x => marker_free x = true) pre ->
  Forall (fun x => marker_free x = true) mid ->
  Forall (fun x => is_element x = true) mid ->
  Forall (fun x => marker_free x = true) post ->
  Forall (fun x => marker_free x = true) (content d) ->
  Forall (fun x => marker_free x = true) (subtitle_nodes d) ->
  (Forall (fun x => (Files.is_file x
                     && bool_decide (Some (directive_label "spice_file" d docname serial)
                                     = get_label x)) = false) pre ->
   merge_pass
     (fill fs (Element c a g r
        (pre ++ spice_file_build h "spice_file-start" d docname serial
             :: mid ++ file_end :: post)))
   = Ok (fill fs (Element c a g r
           (pre ++ map_classes (Py.replace "-start" "")
                     (spice_file_build h "spice_file" (with_content (content d ++ mid) d)
                                       docname serial) :: post)))) /\
  (forall target,
   merge_pass
     (fill fs (Element c a g r
        (pre ++ spice_simulation_build h "spice_simulation-start" spice_simulation_start_node
                  d target docname serial :: mid ++ simulation_end :: post)))
   = Ok (fill fs (Element c a g r
           (pre ++ map_classes (Py.replace "spice_simulation-start" "spice_simulation")
                     (spice_simulation_build h "spice_simulation" spice_simulation_node
                        (with_content mid d) target docname serial) :: post)))).
Proof.
  intros Hfs Hparent Hpre Hmid Hel Hpost Hcontent Hsub. split.
  - intros Hlab. by apply file_round_trip_at.
  - intros target. by apply sim_round_trip_at.
Qed.

Lemma gated_pair_round_trip_witness :
  merge_pass
    (example_document
       [paragraph "intro";
        container
          ([paragraph "before"]
           ++ spice_file_build example_host "spice_file-start"
                (example_file_directive "file-a" 1) "index" 0
           :: [paragraph "body"] ++ file_end :: [paragraph "after"])])
  = Ok (example_document
          [paragraph "intro";
           container
             ([paragraph "before"]
              ++ map_classes (Py.replace "-start" "")
                   (spice_file_build example_host "spice_file"
                      (with_content (content (example_file_directive "file-a" 1)
                                     ++ [paragraph "body"])
                                    (example_file_directive "file-a" 1)) "index" 0)
              :: [paragraph "after"])]) /\
  merge_pass
    (example_document
       [paragraph "intro";
        container
          ([paragraph "before"]
           ++ spice_simulation_build example_host "spice_simulation-start"
                spice_simulation_start_node (example_file_directive "file-a" 1)
                "file-a" "index" 0
           :: [paragraph "body"] ++ simulation_end :: [paragraph "after"])])
  = Ok (example_document
          [paragraph "intro";
           container
             ([paragraph "before"]
              ++ map_classes (Py.replace "spice_simulation-start" "spice_simulation")
                   (spice_simulation_build example_host "spice_simulation"
                      spice_simulation_node
                      (with_content [paragraph "body"] (example_file_directive "file-a" 1))
                      "file-a" "index" 0)
              :: [paragraph "after"])]).
Proof.
  assert (Hplain : forall text, Forall (fun x => marker_free x = true) [paragraph text])
    by (intros text; by constructor).
  assert (Hnone : Forall (fun x : node => marker_free x = true) []) by constructor.
  assert (Helem : Forall (fun x => is_element x = true) [paragraph "body"])
    by (by constructor).
  assert (Hfresh : Forall (fun x => (Files.is_file x
                     && bool_decide (Some (directive_label "spice_file"
                                             (example_file_directive "file-a" 1) "index" 0)
                                     = get_label x)) = false) [paragraph "before"])
    by (by constructor).
  set (root := {| f_cls := document; f_attrs := no_attributes; f_gated := false;
                  f_resolved := false; f_before := [paragraph "intro"]; f_after := [] |}).
  assert (Hroot : Forall plain_frame [root]).
  { constructor; [|constructor]. split; [done|]. split; [apply Hplain|constructor]. }
  pose proof (gated_pair_round_trip example_host (example_file_directive "file-a" 1)
                "index" 0 [root] (other_element "container") no_attributes false false
                [paragraph "before"] [paragraph "body"] [paragraph "after"]
                Hroot eq_refl
                (Hplain "before") (Hplain "body") Helem (Hplain "after") Hnone Hnone)
    as [Hfile Hsim].
  split; [exact (Hfile Hfresh)|exact (Hsim "file-a")].
Defined.

(** C3, as stated, fails: with a body of its own on the start directive,
    no one reading of "the same content" fits both kinds.  The merged
    simulation block holds the sibling alone, not the start directive's
    body followed by the sibling; the merged file block holds the start
    directive's body followed by the sibling, not the sibling alone. *)
Lemma start_body_kept_by_file_blocks_only :
  let d := with_content [paragraph "own body"] (example_directive "sim-a" "file-a" 3) in
  let mid := [paragraph "sibling"] in
  let sim_doc :=
    example_document
      (spice_simulation_build example_host "spice_simulation-start"
         spice_simulation_start_node d "file-a" "index" 0
       :: mid ++ [simulation_end]) in
  let file_doc :=
    example_document
      (spice_file_build example_host "spice_file-start" d "index" 0
       :: mid ++ [file_end]) in
  let sim_block body :=
    map_classes (Py.replace "spice_simulation-start" "spice_simulation")
      (spice_simulation_build example_host "spice_simulation" spice_simulation_node
         (with_content body d) "file-a" "index" 0) in
  let file_block body :=
    map_classes (Py.replace "-start" "")
      (spice_file_build example_host "spice_file" (with_content body d) "index" 0) in
  merge_pass sim_doc = Ok (example_document [sim_block mid]) /\
  merge_pass sim_doc <> Ok (example_document [sim_block (content d ++ mid)]) /\
  merge_pass file_doc = Ok (example_document [file_block (content d ++ mid)]) /\
  merge_pass file_doc <> Ok (example_document [file_block mid]).
Proof.
  vm_compute. repeat split; discriminate.
Qed.

(** ** The label registry *)

Lemma append_nonempty s t : t <> "" -> s +:+ t <> "".
Proof. destruct s; simpl; [done|discriminate]. Qed.

Lemma directive_label_nonempty kind d docname serial :
  directive_label kind d docname serial <> "".
Proof.
  unfold directive_label.
  assert (docname +:+ "-" +:+ kind +:+ "-" +:+ Py.str_of_nat serial <> "")
    by (apply append_nonempty; discriminate).
  destruct (opt_label d) as [l|]; [|done].
  destruct (bool_decide (l = "")) eqn:E; [done|]. by apply bool_decide_eq_false in E.
Qed.

Lemma file_run_duplicate h name d e other :
  registry_of e !! directive_label "spice_file" d (env_docname e) (serialno e) = Some other ->
  spice_fileDirective_run h name d e =
  (Ok [], set_log (log e ++ [duplicate_warning h
                     (directive_label "spice_file" d (env_docname e) (serialno e)) other e])
            (set_serialno (S (serialno e)) e)).
Proof.
  intros Hdup.
  pose proof (directive_label_nonempty "spice_file" d (env_docname e) (serialno e)) as Hne.
  destruct e as [dn sn hide reg greg objs eqs lg]. cbn in Hdup, Hne.
  destruct reg as [reg|]; [|cbn in Hdup; by rewrite lookup_empty in Hdup].
  unfold spice_fileDirective_run, bind, new_serialno, init_registry, modify_env, get_env,
    duplicate_labels, ret, logger_warning, registry_of in *.
  cbn in *. rewrite Hdup. rewrite bool_decide_eq_false_2 by done. reflexivity.
Qed.

Lemma simulation_run_duplicate h name cls d e other target rest :
  arguments d = target :: rest ->
  hide_spice_simulations e = false ->
  registry_of e !! directive_label "spice_simulation" d (env_docname e) (serialno e)
    = Some other ->
  spice_simulationDirective_run h name cls d e =
  (Ok [], set_log (log e ++ [duplicate_warning h
                     (directive_label "spice_simulation" d (env_docname e) (serialno e))
                     other e])
            (set_serialno (S (serialno e)) e)).
Proof.
  intros Hargs Hhide Hdup.
  pose proof (directive_label_nonempty "spice_simulation" d (env_docname e) (serialno e)) as Hne.
  destruct e as [dn sn hide reg greg objs eqs lg]. cbn in Hdup, Hne, Hhide. subst hide.
  destruct reg as [reg|]; [|cbn in Hdup; by rewrite lookup_empty in Hdup].
  unfold spice_simulationDirective_run, bind, new_serialno, init_registry, modify_env,
    get_env, duplicate_labels, ret, logger_warning, registry_of in *.
  rewrite Hargs. cbn in *. rewrite Hdup. rewrite bool_decide_eq_false_2 by done. reflexivity.
Qed.

Lemma file_run_fresh h name d e :
  registry_of e !! directive_label "spice_file" d (env_docname e) (serialno e) = None ->
  let label := directive_label "spice_file" d (env_docname e) (serialno e) in
  let built := spice_file_build h name d (env_docname e) (serialno e) in
  spice_fileDirective_run h name d e =
  (Ok (if opt_hidden d then [] else [length (objects e)]),
   registered label
     {| e_type := name; e_docname := env_docname e; e_node := S (length (objects e)) |}
     [built; deepcopy built] e).
Proof.
  intros Hfresh.
  destruct e as [dn sn hide reg greg objs eqs lg]. cbn in Hfresh.
  unfold spice_fileDirective_run, bind, new_serialno, init_registry, modify_env, get_env,
    duplicate_labels, ret, logger_warning, registry_of, alloc, registry_insert, registered in *.
  destruct reg as [reg|]; cbn in *.
  - rewrite Hfresh. cbn. rewrite length_app. cbn. rewrite Nat.add_1_r.
    rewrite <- app_assoc. by destruct (opt_hidden d).
  - rewrite lookup_empty. cbn. rewrite length_app. cbn. rewrite Nat.add_1_r.
    rewrite <- app_assoc. by destruct (opt_hidden d).
Qed.

Lemma simulation_run_fresh h name cls d e target rest :
  arguments d = target :: rest ->
  hide_spice_simulations e = false ->
  registry_of e !! directive_label "spice_simulation" d (env_docname e) (serialno e) = None ->
  let label := directive_label "spice_simulation" d (env_docname e) (serialno e) in
  let built := spice_simulation_build h name cls d target (env_docname e) (serialno e) in
  spice_simulationDirective_run h name cls d e =
  (Ok (if opt_hidden d then [] else [length (objects e)]),
   registered label
     {| e_type := name; e_docname := env_docname e; e_node := length (objects e) |}
     [built] e).
Proof.
  intros Hargs Hhide Hfresh.
  destruct e as [dn sn hide reg greg objs eqs lg]. cbn in Hfresh, Hhide. subst hide.
  unfold spice_simulationDirective_run, bind, new_serialno, init_registry, modify_env,
    get_env, duplicate_labels, ret, logger_warning, registry_of, alloc, registry_insert,
    registered in *.
  rewrite Hargs.
  destruct reg as [reg|]; cbn in *.
  - rewrite Hfresh. cbn. by destruct (opt_hidden d).
  - rewrite lookup_empty. cbn. by destruct (opt_hidden d).
Qed.

Lemma registered_lookup label v cells e f r n :
  r <> e_node v ->
  (objects e ++ cells) !! e_node v = Some n ->
  registry_node (mutate r f (registered label v cells e)) (Some label) = Some n.
Proof.
  intros Hne Hn. unfold registry_node, mutate, registered, registry_of, deref.
  destruct e as [dn sn hide reg greg objs eqs lg]. cbn in *.
  destruct ((objs ++ cells) !! r) as [x|] eqn:Hr; cbn.
  - rewrite lookup_insert_eq. cbn. rewrite list_lookup_insert_ne by done. done.
  - rewrite lookup_insert_eq. cbn. done.
Qed.

Lemma registered_lookup_live label v cells e f n :
  (objects e ++ cells) !! e_node v = Some n ->
  registry_node (mutate (e_node v) f (registered label v cells e)) (Some label) = Some (f n).
Proof.
  intros Hn. unfold registry_node, mutate, registered, registry_of, deref.
  destruct e as [dn sn hide reg greg objs eqs lg]. cbn in *.
  rewrite Hn. cbn. rewrite lookup_insert_eq. cbn.
  apply list_lookup_insert_eq. by eapply lookup_lt_Some.
Qed.

Lemma registered_lookup_plain label v cells e n :
  (objects e ++ cells) !! e_node v = Some n ->
  registry_node (registered label v cells e) (Some label) = Some n.
Proof.
  intros Hn. unfold registry_node, registered, registry_of, deref.
  destruct e as [dn sn hide reg greg objs eqs lg]. cbn in *.
  rewrite lookup_insert_eq. cbn. done.
Qed.

(** C4, as amended.  A file directive that registers its block stores a
    deep copy in a cell of its own: whatever is done in place to the live
    node afterwards, the registry still answers with the copy taken at
    registration.  A simulation directive stores the live node itself:
    what is done in place to the live node is what the registry answers
    with. *)
Theorem registry_snapshot_of_file_blocks h d e :
  (forall name,
     registry_of e !! directive_label "spice_file" d (env_docname e) (serialno e) = None ->
     let label := directive_label "spice_file" d (env_docname e) (serialno e) in
     let built := spice_file_build h name d (env_docname e) (serialno e) in
     let live := length (objects e) in
     exists e',
       spice_fileDirective_run h name d e = (Ok (if opt_hidden d then [] else [live]), e') /\
       deref e' live = Some built /\
       registry_node e' (Some label) = Some (deepcopy built) /\
       forall f, registry_node (mutate live f e') (Some label) = Some (deepcopy built)) /\
  (forall name cls target rest,
     arguments d = target :: rest ->
     hide_spice_simulations e = false ->
     registry_of e !! directive_label "spice_simulation" d (env_docname e) (serialno e) = None ->
     let label := directive_label "spice_simulation" d (env_docname e) (serialno e) in
     let built := spice_simulation_build h name cls d target (env_docname e) (serialno e) in
     let live := length (objects e) in
     exists e',
       spice_simulationDirective_run h name cls d e
         = (Ok (if opt_hidden d then [] else [live]), e') /\
       deref e' live = Some built /\
       registry_node e' (Some label) = Some built /\
       forall f, registry_node (mutate live f e') (Some label) = Some (f built)).
Proof.
  split.
  - intros name Hfresh label built live. eexists. split; [by apply file_run_fresh|].
    assert (Hcopy : (objects e ++ [built; deepcopy built]) !! S (length (objects e))
                    = Some (deepcopy built)).
    { rewrite lookup_app_r by lia. by replace (S (length (objects e)) - length (objects e)) with 1 by lia. }
    repeat split.
    + unfold deref, registered. destruct e; cbn. rewrite lookup_app_r by (cbn; lia).
      cbn. by rewrite Nat.sub_diag.
    + by apply registered_lookup_plain.
    + intros f. apply registered_lookup; [cbn; unfold live; lia|done].
  - intros name cls target rest Hargs Hhide Hfresh label built live.
    eexists. split; [by eapply simulation_run_fresh|].
    assert (Hlive : (objects e ++ [built]) !! length (objects e) = Some built).
    { rewrite lookup_app_r by lia. by rewrite Nat.sub_diag. }
    repeat split.
    + unfold deref, registered. destruct e; cbn in *. done.
    + by apply registered_lookup_plain.
    + intros f. by apply (registered_lookup_live label
        {| e_type := name; e_docname := env_docname e; e_node := length (objects e) |}).
Qed.

Lemma registry_snapshot_of_file_blocks_witness :
  let d := example_file_directive "file-b" 7 in
  let built := spice_file_build example_host "spice_file" d "index" 3 in
  exists e',
    spice_fileDirective_run example_host "spice_file" d env_ghost = (Ok [4], e') /\
    deref e' 4 = Some built /\
    registry_node e' (Some "file-b") = Some (deepcopy built) /\
    forall f, registry_node (mutate 4 f e') (Some "file-b") = Some (deepcopy built).
Proof.
  intros d built.
  apply (proj1 (registry_snapshot_of_file_blocks example_host d env_ghost) "spice_file").
  reflexivity.
Defined.

(** C4, as stated, fails for simulation blocks: the registry holds the
    start node the directive has returned, and the change the merge makes in
    place to that node changes what the registry answers with. *)
Lemma simulation_registry_aliases_live_node :
  registry_node env_split_depth (Some "sim-a") = deref env_split_depth 0 /\
  registry_node (mutate 0 merge_in_place env_split_depth) (Some "sim-a")
  <> registry_node env_split_depth (Some "sim-a").
Proof. split; [reflexivity|]. vm_compute. discriminate. Qed.

(** C7.  A file directive, and a simulation directive that the build does
    not suppress, whose label is registered already returns no node, leaves
    the registry and the registered objects as they are, and logs one
    warning that names the other instance's document and is located at its
    own; it returns normally.  [name] is the directive's own name, so the
    start directives are covered. *)
Theorem first_registration_wins h d e :
  (forall name other,
     registry_of e !! directive_label "spice_file" d (env_docname e) (serialno e) = Some other ->
     exists e',
       spice_fileDirective_run h name d e = (Ok [], e') /\
       sphinx_spice_file_registry e' = sphinx_spice_file_registry e /\
       objects e' = objects e /\
       log e' = log e ++ [duplicate_warning h
                  (directive_label "spice_file" d (env_docname e) (serialno e)) other e]) /\
  (forall name cls other target rest,
     arguments d = target :: rest ->
     hide_spice_simulations e = false ->
     registry_of e !! directive_label "spice_simulation" d (env_docname e) (serialno e)
       = Some other ->
     exists e',
       spice_simulationDirective_run h name cls d e = (Ok [], e') /\
       sphinx_spice_file_registry e' = sphinx_spice_file_registry e /\
       objects e' = objects e /\
       log e' = log e ++ [duplicate_warning h
                  (directive_label "spice_simulation" d (env_docname e) (serialno e)) other e]).
Proof.
  split.
  - intros name other Hdup. eexists. split; [by apply file_run_duplicate|].
    by destruct e.
  - intros name cls other target rest Hargs Hhide Hdup. eexists.
    split; [by eapply simulation_run_duplicate|]. by destruct e.
Qed.

Lemma first_registration_wins_witness :
  let d := example_file_directive "file-a" 20 in
  exists e',
    spice_fileDirective_run example_host "spice_file" d env_ghost = (Ok [], e') /\
    sphinx_spice_file_registry e' = sphinx_spice_file_registry env_ghost /\
    objects e' = objects env_ghost /\
    log e' = log env_ghost ++ [duplicate_warning example_host "file-a" entry_file_a env_ghost].
Proof.
  intros d.
  apply (proj1 (first_registration_wins example_host d env_ghost) "spice_file" entry_file_a).
  reflexivity.
Defined.

(** *** The gated directives' record *)

Lemma recorded_alter f kind e :
  (gm ← Some (alter f (env_docname e) (gated_init kind e)); gm !! env_docname e)
  = Some (f (recorded_or_new kind e)).
Proof.
  unfold gated_init, recorded_or_new, recorded. cbn.
  destruct (sphinx_spice_file_gated_registry e) as [g|]; cbn.
  - destruct (g !! env_docname e) as [r|] eqn:Hr; cbn.
    + rewrite lookup_alter_eq. by rewrite Hr.
    + rewrite lookup_alter_eq. by rewrite lookup_insert_eq.
  - rewrite lookup_empty. rewrite lookup_alter_eq. by rewrite lookup_insert_eq.
Qed.

Lemma file_run_frame h name d e :
  sphinx_spice_file_gated_registry (snd (spice_fileDirective_run h name d e))
    = sphinx_spice_file_gated_registry e /\
  env_docname (snd (spice_fileDirective_run h name d e)) = env_docname e.
Proof.
  destruct e as [dn sn hide reg greg objs eqs lg].
  unfold spice_fileDirective_run, bind, new_serialno, init_registry, modify_env, get_env,
    duplicate_labels, ret, logger_warning, registry_of, alloc, registry_insert.
  destruct reg as [reg|]; cbn.
  - destruct (reg !! _); cbn; [destruct (bool_decide _); cbn|]; by destruct (opt_hidden d).
  - rewrite lookup_empty. cbn. by destruct (opt_hidden d).
Qed.

Lemma simulation_run_frame h name cls d e :
  sphinx_spice_file_gated_registry (snd (spice_simulationDirective_run h name cls d e))
    = sphinx_spice_file_gated_registry e /\
  env_docname (snd (spice_simulationDirective_run h name cls d e)) = env_docname e.
Proof.
  destruct e as [dn sn hide reg greg objs eqs lg].
  unfold spice_simulationDirective_run, bind, new_serialno, init_registry, modify_env,
    get_env, duplicate_labels, ret, logger_warning, registry_of, alloc, registry_insert, raise.
  destruct (arguments d); [done|].
  destruct reg as [reg|]; cbn; destruct hide; cbn; try done.
  - destruct (reg !! _); cbn; [destruct (bool_decide _); cbn|]; by destruct (opt_hidden d).
  - rewrite lookup_empty. cbn. by destruct (opt_hidden d).
Qed.

Lemma recorded_frame e e' :
  sphinx_spice_file_gated_registry e' = sphinx_spice_file_gated_registry e ->
  env_docname e' = env_docname e -> recorded e' = recorded e.
Proof. unfold recorded. by intros -> ->. Qed.

Lemma file_start_recorded h d e :
  recorded (snd (spice_fileStartDirective_run h d e))
  = Some (record_start (lineno d) (start_msg "spice_file" (lineno d))
            (recorded_or_new "spice_file" e)).
Proof.
  unfold spice_fileStartDirective_run, bind, spice_fileStartDirective_record, modify_env.
  destruct (file_run_frame h "spice_file-start" d
    (set_gated_registry
       (Some (alter (record_start (lineno d)
                       ("spice_file-start" +:+ " at line: " +:+ Py.str_of_nat (lineno d)))
                    (env_docname e) (gated_init "spice_file" e))) e)) as [Hg Hd].
  erewrite recorded_frame; [|exact Hg|exact Hd].
  unfold recorded at 1. destruct e; cbn. apply recorded_alter.
Qed.

Lemma simulation_start_recorded h d e :
  recorded (snd (spice_simulationStartDirective_run h d e))
  = Some (record_start (lineno d) (start_msg "spice_simulation" (lineno d))
            (recorded_or_new "spice_simulation" e)).
Proof.
  unfold spice_simulationStartDirective_run, bind, spice_simulationStartDirective_record,
    modify_env.
  destruct (simulation_run_frame h "spice_simulation-start" spice_simulation_start_node d
    (set_gated_registry
       (Some (alter (record_start (lineno d)
                       ("spice_simulation-start at line: " +:+ Py.str_of_nat (lineno d)))
                    (env_docname e) (gated_init "spice_simulation" e))) e)) as [Hg Hd].
  erewrite recorded_frame; [|exact Hg|exact Hd].
  unfold recorded at 1. destruct e; cbn. apply recorded_alter.
Qed.

Lemma file_end_recorded d e :
  recorded (snd (spice_fileEndDirective_run d e))
  = Some (record_end (lineno d) (end_msg "spice_file" (lineno d))
            (recorded_or_new "spice_file" e)).
Proof.
  unfold spice_fileEndDirective_run, bind, spice_fileEndDirective_record, modify_env, alloc, ret.
  unfold recorded at 1. destruct e; cbn. apply recorded_alter.
Qed.

Lemma simulation_end_recorded d e :
  recorded (snd (spice_simulationEndDirective_run d e))
  = Some (record_end (lineno d) (end_msg "spice_simulation" (lineno d))
            (recorded_or_new "spice_simulation" e)).
Proof.
  unfold spice_simulationEndDirective_run, bind, spice_simulationEndDirective_record,
    modify_env, alloc, ret.
  unfold recorded at 1. destruct e; cbn. apply recorded_alter.
Qed.

Lemma recorded_or_new_sequence kind e :
  g_sequence (recorded_or_new kind e) = recorded_sequence e.
Proof. unfold recorded_or_new, recorded_sequence. by destruct (recorded e). Qed.

(** C6, as amended.  The four gated directives append to the one record of
    the current document, whatever their kind: a start of either kind adds
    an ["S"] to the sequence the validator reads, an end of either kind an
    ["E"], and the kind the record is tagged with stays the kind of the
    first marker recorded. *)
Theorem gated_kinds_share_one_sequence h d e :
  recorded_sequence (snd (spice_fileStartDirective_run h d e)) = recorded_sequence e ++ ["S"] /\
  recorded_sequence (snd (spice_simulationStartDirective_run h d e))
    = recorded_sequence e ++ ["S"] /\
  recorded_sequence (snd (spice_fileEndDirective_run d e)) = recorded_sequence e ++ ["E"] /\
  recorded_sequence (snd (spice_simulationEndDirective_run d e)) = recorded_sequence e ++ ["E"] /\
  (forall r, recorded e = Some r ->
     g_type <$> recorded (snd (spice_fileStartDirective_run h d e)) = Some (g_type r) /\
     g_type <$> recorded (snd (spice_simulationStartDirective_run h d e)) = Some (g_type r) /\
     g_type <$> recorded (snd (spice_fileEndDirective_run d e)) = Some (g_type r) /\
     g_type <$> recorded (snd (spice_simulationEndDirective_run d e)) = Some (g_type r)).
Proof.
  unfold recorded_sequence at 1 3 5 7.
  rewrite file_start_recorded, simulation_start_recorded, file_end_recorded,
    simulation_end_recorded.
  cbn [record_start record_end g_sequence]. rewrite !recorded_or_new_sequence.
  repeat split; try done; unfold recorded_or_new; rewrite H; reflexivity.
Qed.

Lemma gated_kinds_share_one_sequence_witness :
  recorded_sequence
    (snd (spice_simulationStartDirective_run example_host (example_directive "sim-b" "file-a" 5)
            env_in_turn))
  = ["S"; "E"; "S"; "E"; "S"].
Proof.
  exact (proj1 (proj2 (gated_kinds_share_one_sequence example_host
                         (example_directive "sim-b" "file-a" 5) env_in_turn))).
Defined.

(** C6, as stated, fails: a file start, a simulation start, a file end and a
    simulation end are recorded as the one sequence [S S E E], which the
    validator rejects as nested; the same four markers one pair after the
    other are accepted. *)
Lemma interleaved_kinds_rejected :
  recorded_sequence env_interleaved = ["S"; "S"; "E"; "E"] /\
  CheckGatedDirectives_apply env_interleaved
  = (Raise (ExtensionError gated_error_msg),
     log_error (nested_msg "index" "spice_file"
                  (structure_of (recorded_or_new "" env_interleaved))) env_interleaved) /\
  fst (CheckGatedDirectives_apply env_in_turn) = Ok tt.
Proof. vm_compute. repeat split. Qed.

(** The records the gated directives build are the well-formed ones. *)
Lemma count_token_app t l1 l2 :
  count_token t (l1 ++ l2) = count_token t l1 + count_token t l2.
Proof. unfold count_token. by rewrite List.filter_app, length_app. Qed.

Lemma record_start_well_formed line msg r :
  well_formed_record r -> well_formed_record (record_start line msg r).
Proof.
  intros [Ht Hs He]. split; cbn [record_start g_sequence g_start g_end].
  - apply Forall_app. split; [done|]. constructor; [by left|done].
  - rewrite length_app, count_token_app, Hs. reflexivity.
  - rewrite count_token_app, He. cbn. lia.
Qed.

Lemma record_end_well_formed line msg r :
  well_formed_record r -> well_formed_record (record_end line msg r).
Proof.
  intros [Ht Hs He]. split; cbn [record_end g_sequence g_start g_end].
  - apply Forall_app. split; [done|]. constructor; [by right|done].
  - rewrite count_token_app, Hs. cbn. lia.
  - rewrite length_app, count_token_app, He. reflexivity.
Qed.

Lemma recorded_or_new_well_formed kind e :
  (forall r, recorded e = Some r -> well_formed_record r) ->
  well_formed_record (recorded_or_new kind e).
Proof.
  intros H. unfold recorded_or_new. destruct (recorded e) as [r|]; [by apply H|].
  by split.
Qed.

(** X7.  The four gated directives keep the record of the document well
    formed: whichever of them runs, every token of the record is an ["S"]
    or an ["E"], with one ["S"] for each recorded start line and one ["E"]
    for each recorded end line. *)
Lemma gated_records_stay_well_formed h d e :
  (forall r, recorded e = Some r -> well_formed_record r) ->
  forall e',
    e' = snd (spice_fileStartDirective_run h d e) \/
    e' = snd (spice_simulationStartDirective_run h d e) \/
    e' = snd (spice_fileEndDirective_run d e) \/
    e' = snd (spice_simulationEndDirective_run d e) ->
    forall r, recorded e' = Some r -> well_formed_record r.
Proof.
  intros Hwf e' He' r.
  destruct He' as [-> | [-> | [-> | ->]]].
  - rewrite file_start_recorded. intros [= <-].
    by apply record_start_well_formed, recorded_or_new_well_formed.
  - rewrite simulation_start_recorded. intros [= <-].
    by apply record_start_well_formed, recorded_or_new_well_formed.
  - rewrite file_end_recorded. intros [= <-].
    by apply record_end_well_formed, recorded_or_new_well_formed.
  - rewrite simulation_end_recorded. intros [= <-].
    by apply record_end_well_formed, recorded_or_new_well_formed.
Qed.

(** ** Title resolution and references *)

Lemma upgrade_walk_id e depth n :
  node_height n <= depth ->
  free_of (is_instance pending_xref) n = true ->
  Upgrade.walk e depth n = Ok n.
Proof.
  revert n. induction depth as [|depth IH]; intros n Hh Hfree.
  - destruct n; simpl in Hh; lia.
  - cbn [Upgrade.walk]. rewrite (free_of_here _ _ Hfree). cbn [rbind].
    destruct n as [t|c a g r cs]; [done|].
    rewrite rmap_id; [done|].
    apply Forall_forall. intros x Hx.
    pose proof (free_of_children _ _ _ _ _ _ Hfree) as Hcs.
    rewrite Forall_forall in Hcs.
    apply IH; [|by apply Hcs]. simpl in Hh. pose proof (height_child x cs Hx). lia.
Qed.

(** C10.  A [pending_xref] that is not a [numref], whose target is
    registered with a numbered file block and whose text the author has
    given, leaves the body of the upgrade loop as it entered it: its
    [reftype] stays, its first child is not replaced.  The traversal goes
    on below it, and returns the node as it was when no other
    [pending_xref] lies below it. *)
Theorem explicit_reference_untouched e node_ target_node :
  is_instance pending_xref node_ = true ->
  reftype (node_attrs node_) <> Some "numref" ->
  registry_node e (reftarget (node_attrs node_)) = Some target_node ->
  is_instance spice_file_enumerable_node target_node = true ->
  truthy (refexplicit (node_attrs node_)) = true ->
  Upgrade.visit e node_ = Ok node_ /\
  (forall depth,
     Upgrade.walk e (S depth) node_ =
     (let* below := rmap (Upgrade.walk e depth) (node_children node_) in
      Ok (set_children below node_))) /\
  (Forall (fun c => free_of (is_instance pending_xref) c = true) (node_children node_) ->
   forall depth, node_height node_ <= depth -> Upgrade.walk e depth node_ = Ok node_).
Proof.
  intros Hx Hty Htarget Henum Hexplicit.
  assert (Hvisit : Upgrade.visit e node_ = Ok node_).
  { unfold Upgrade.visit. rewrite bool_decide_eq_false_2 by done.
    by rewrite Htarget, Henum, Hexplicit. }
  assert (Hstep : forall depth,
            Upgrade.walk e (S depth) node_ =
            (let* below := rmap (Upgrade.walk e depth) (node_children node_) in
             Ok (set_children below node_))).
  { intros depth. cbn [Upgrade.walk]. rewrite Hx, Hvisit. cbn [rbind]. by destruct node_. }
  split; [done|]. split; [done|].
  intros Hbelow depth Hh. destruct depth as [|depth].
  - destruct node_; simpl in Hh; lia.
  - rewrite Hstep. rewrite rmap_id.
    + cbn [rbind]. by destruct node_.
    + apply Forall_forall. intros x Hc. rewrite Forall_forall in Hbelow.
      apply upgrade_walk_id; [|by apply Hbelow].
      destruct node_ as [t|c a g r cs]; [by apply elem_of_nil in Hc|].
      simpl in Hh. pose proof (height_child x cs Hc). lia.
Qed.

Lemma file_title_resolution_idempotent h n n1 :
  FileTitles.resolve_title h n = Ok n1 -> FileTitles.resolve_title h n1 = Ok n1.
Proof.
  unfold FileTitles.resolve_title.
  destruct n as [t|c a g r cs]; [done|]. cbn [node_children].
  destruct cs as [|title_ rest]; [done|].
  destruct (is_instance spice_file_title title_) eqn:Htitle.
  - destruct (is_instance spice_file_enumerable_node (Element c a g r (title_ :: rest))).
    + cbn. intros [= <-]. reflexivity.
    + destruct (node_children title_) as [|first more]; [done|].
      cbn. intros [= <-]. reflexivity.
  - cbn. intros [= <-]. cbn. by rewrite Htitle.
Qed.

Lemma simulation_title_resolution_idempotent h n f e n1 e1 :
  resolve_spice_simulation_title h n f e = (Ok n1, e1) ->
  forall e2, resolve_spice_simulation_title h n1 f e2 = (Ok n1, e2).
Proof.
  unfold resolve_spice_simulation_title, bind, lift, first_child, get_env, ret, raise, modify_env.
  destruct n as [t|c a g r cs]; [done|]. cbn [node_children].
  destruct cs as [|title_ rest]; [done|].
  destruct f as [ft|fc fa fg fr fcs]; [done|]. cbn [node_children].
  destruct fcs as [|file_title more]; [done|].
  destruct (is_instance spice_simulation_title title_) eqn:Htitle.
  - destruct (node_children file_title) as [|prefix pmore] eqn:Hp; [done|].
    destruct (build_reference_node h e (Element fc fa fg fr (file_title :: more)))
      as [wrap| |]; [|done|done].
    cbn [node_attrs]. destruct (title_attr a) as [entry_title|]; [|done].
    destruct pmore as [|subtitle pmore'].
    + intros [= <- <-] e2. reflexivity.
    + destruct (is_instance spice_file_subtitle subtitle).
      * destruct (existsb _ _); intros [= <- <-] e2; reflexivity.
      * intros [= <- <-] e2. reflexivity.
  - intros [= <- <-] e2. cbn. rewrite Htitle. reflexivity.
Qed.

Lemma explicit_reference_untouched_witness :
  Upgrade.visit env_ghost (explicit_xref "file-a" "see this")
  = Ok (explicit_xref "file-a" "see this") /\
  Upgrade.walk env_ghost 3 (explicit_xref "file-a" "see this")
  = Ok (explicit_xref "file-a" "see this").
Proof.
  pose proof (explicit_reference_untouched env_ghost (explicit_xref "file-a" "see this")
                (object_at env_ghost 1) eq_refl ltac:(discriminate) eq_refl eq_refl eq_refl)
    as (Hvisit & _ & Hwalk).
  split; [exact Hvisit|].
  apply Hwalk; [|vm_compute; lia].
  constructor; [reflexivity|constructor].
Defined.

(** C9.  Resolving again the title of a block that a title resolver has
    resolved returns the block as the first run left it, and so its title
    text: for the file-block resolver, and for the simulation-block resolver
    with the same file block, whatever the environment, which the second
    run leaves as it is. *)
Theorem title_resolution_idempotent h :
  (forall n n1,
     FileTitles.resolve_title h n = Ok n1 ->
     FileTitles.resolve_title h n1 = Ok n1) /\
  (forall n f e n1 e1,
     resolve_spice_simulation_title h n f e = (Ok n1, e1) ->
     forall e2, resolve_spice_simulation_title h n1 f e2 = (Ok n1, e2)).
Proof.
  split.
  - apply file_title_resolution_idempotent.
  - apply simulation_title_resolution_idempotent.
Qed.

Lemma title_resolution_idempotent_witness :
  (exists n1,
     FileTitles.resolve_title example_host (object_at env_ghost 0) = Ok n1 /\
     FileTitles.resolve_title example_host n1 = Ok n1) /\
  (exists n1 e1,
     resolve_spice_simulation_title example_host (object_at env_ghost 3)
       (object_at env_ghost 1) env_ghost = (Ok n1, e1) /\
     resolve_spice_simulation_title example_host n1 (object_at env_ghost 1) e1
     = (Ok n1, e1)).
Proof.
  split.
  - eexists.
    assert (Hfirst : FileTitles.resolve_title example_host (object_at env_ghost 0) = Ok _)
      by (vm_compute; reflexivity).
    split; [exact Hfirst|].
    exact (proj1 (title_resolution_idempotent example_host) _ _ Hfirst).
  - do 2 eexists.
    assert (Hfirst : resolve_spice_simulation_title example_host (object_at env_ghost 3)
                       (object_at env_ghost 1) env_ghost = (Ok _, _))
      by (vm_compute; reflexivity).
    split; [exact Hfirst|].
    exact (proj2 (title_resolution_idempotent example_host) _ _ _ _ _ Hfirst _).
Defined.

(** C5, on the code.  The document holds a file block, a simulation of the
    unregistered label "ghost" and a simulation of the file block.  The
    simulation title pass logs one warning and returns the document as it
    was: the simulation after the one with the undefined target is not
    resolved.  Without the simulation of "ghost" before it, the same
    simulation is resolved. *)
Theorem undefined_target_ends_the_pass :
  SimTitles.run example_host doc_ghost env_ghost
  = (Ok doc_ghost, log_warning "undefined label: ghost" "/src/index" env_ghost) /\
  node_resolved_title (object_at env_ghost 3) = false /\
  (exists resolved e',
     SimTitles.run example_host doc_without_ghost env_ghost
     = (Ok (new_element document no_attributes [object_at env_ghost 0; resolved]), e') /\
     node_resolved_title resolved = true /\
     astext (default (Text "") (head (node_children resolved)))
     = "spice_simulation to spice_file 1" /\
     log e' = []).
Proof.
  split; [vm_compute; reflexivity|]. split; [reflexivity|].
  eexists. eexists. split; [vm_compute; reflexivity|]. by vm_compute.
Qed.

Lemma string_app_cons c s t : String c s +:+ t = String c (s +:+ t).
Proof. reflexivity. Qed.

Lemma string_app_nil_l s : "" +:+ s = s.
Proof. reflexivity. Qed.

Lemma string_app_nil_r s : s +:+ "" = s.
Proof. induction s as [|c s IH]; [done|]. by rewrite string_app_cons, IH. Qed.

Lemma string_app_assoc s1 s2 s3 : (s1 +:+ s2) +:+ s3 = s1 +:+ (s2 +:+ s3).
Proof.
  induction s1 as [|c s IH]; [done|]. by rewrite !string_app_cons, IH.
Qed.

Lemma join_cons x l : Py.join "" (x :: l) = x +:+ Py.join "" l.
Proof.
  unfold Py.join. destruct l as [|y l]; simpl; [by rewrite string_app_nil_r|done].
Qed.

Lemma join_app l1 l2 : Py.join "" (l1 ++ l2) = Py.join "" l1 +:+ Py.join "" l2.
Proof.
  induction l1 as [|x l1 IH]; [done|].
  change ((x :: l1) ++ l2) with (x :: (l1 ++ l2)).
  by rewrite !join_cons, IH, string_app_assoc.
Qed.

Lemma join_nil : Py.join "" [] = "".
Proof. reflexivity. Qed.

(** The title text a successful resolution leaves on the simulation node. *)
Lemma resolved_title_text h n f e n1 e1 title_ rest :
  node_children n = title_ :: rest ->
  is_instance spice_simulation_title title_ = true ->
  resolve_spice_simulation_title h n f e = (Ok n1, e1) ->
  exists title1,
    node_children n1 = title1 :: rest /\
    node_resolved_title n1 = true /\
    astext title1 = composed_title_text h n f.
Proof.
  intros Hn Htitle.
  destruct n as [t|c a g r cs]; [done|]. cbn [node_children] in Hn. subst cs.
  destruct f as [ft|fc fa fg fr fcs]; [done|].
  destruct fcs as [|file_title more]; [done|].
  destruct file_title as [tt|tc ta tg tr tcs];
    [unfold resolve_spice_simulation_title, bind, lift, first_child, get_env, ret;
     cbn; by rewrite Htitle|].
  destruct tcs as [|prefix pmore];
    [unfold resolve_spice_simulation_title, bind, lift, first_child, get_env, ret;
     cbn; by rewrite Htitle|].
  unfold resolve_spice_simulation_title, bind, lift, first_child, get_env, ret, raise,
    modify_env, composed_title_text, build_reference_node.
  cbn [node_children node_attrs head default from_option id]. rewrite Htitle.
  destruct (label fa); [|done].
  destruct (title_attr a) as [entry_title|]; [|done]. cbn [default].
  set (number := if is_instance spice_file_enumerable_node _ then _ else _).
  destruct pmore as [|subtitle pmore'].
  - intros [= <- <-]. eexists. split; [reflexivity|]. split; [reflexivity|].
    cbn [astext new_element extend_children append_child set_children
          node_children app map child_text_separator is_text_element].
    repeat (rewrite join_app || rewrite join_cons || rewrite join_nil
            || rewrite string_app_assoc || rewrite string_app_nil_r
            || rewrite string_app_nil_l). reflexivity.
  - destruct (is_instance spice_file_subtitle subtitle).
    + assert (Hsub : forall w,
        astext (new_element title no_attributes
                  [Text entry_title;
                   extend_children ([Text " ("] ++ node_children subtitle ++ [Text ")"])
                     (append_child (Text (" " +:+ astext prefix +:+ number))
                        (new_element reference w []))])
        = entry_title +:+ " " +:+ astext prefix +:+ number +:+
          " (" +:+ Py.join "" (map astext (node_children subtitle)) +:+ ")").
      { intros w. cbn [astext new_element extend_children append_child set_children
          node_children app map child_text_separator is_text_element].
        rewrite map_app. cbn [map astext]. repeat (rewrite join_app || rewrite join_cons || rewrite join_nil
            || rewrite string_app_assoc || rewrite string_app_nil_r
            || rewrite string_app_nil_l). reflexivity. }
      destruct (existsb _ _); intros [= <- <-]; eexists;
        (split; [reflexivity|]); (split; [reflexivity|]); apply Hsub.
    + intros [= <- <-]. eexists. split; [reflexivity|]. split; [reflexivity|].
      cbn [astext new_element extend_children append_child set_children
            node_children app map child_text_separator is_text_element].
      repeat (rewrite join_app || rewrite join_cons || rewrite join_nil
            || rewrite string_app_assoc || rewrite string_app_nil_r
            || rewrite string_app_nil_l). reflexivity.
Qed.

Lemma resolution_frame h n f e n1 e1 :
  resolve_spice_simulation_title h n f e = (Ok n1, e1) ->
  sphinx_spice_file_registry e1 = sphinx_spice_file_registry e /\
  objects e1 = objects e.
Proof.
  unfold resolve_spice_simulation_title, bind, lift, first_child, get_env, ret, raise,
    modify_env.
  destruct (node_children n) as [|title_ rest]; [done|].
  destruct (node_children f) as [|file_title more]; [done|].
  destruct (is_instance spice_simulation_title title_); [|by intros [= <- <-]].
  destruct (node_children file_title) as [|prefix pmore]; [done|].
  destruct (build_reference_node h e f); [|done|done].
  destruct (title_attr (node_attrs n)); [|done].
  destruct pmore as [|subtitle pmore']; [by intros [= <- <-]|].
  destruct (is_instance spice_file_subtitle subtitle); [|by intros [= <- <-]].
  destruct (existsb _ _); intros [= <- <-]; by destruct e.
Qed.

Lemma resolution_succeeds h n f e title_ rest file_title more prefix pmore entry lf :
  node_children n = title_ :: rest ->
  node_children f = file_title :: more ->
  node_children file_title = prefix :: pmore ->
  title_attr (node_attrs n) = Some entry ->
  label (node_attrs f) = Some lf ->
  exists n1 e1, resolve_spice_simulation_title h n f e = (Ok n1, e1).
Proof.
  intros Hn Hf Ht Hentry Hlabel.
  unfold resolve_spice_simulation_title, bind, lift, first_child, get_env, ret, raise,
    modify_env, build_reference_node.
  rewrite Hn, Hf, Ht, Hentry, Hlabel.
  destruct (is_instance spice_simulation_title title_); [|by eauto].
  destruct pmore as [|subtitle pmore']; [by eauto|].
  destruct (is_instance spice_file_subtitle subtitle); [|by eauto].
  destruct (existsb _ _); by eauto.
Qed.

(** Where the lookup of the simulation's own target succeeds.  For a
    reference whose first child is an element and whose [refid] is
    registered with a simulation block: when the block is resolved, the body
    of the loop puts the text of the block's title in place of the content
    of the first child; when it is not and the label the simulation targets
    is registered with a block that has a title and a label, the body
    resolves the simulation first, in the registry, and puts the composed
    title in place of the content. *)
Lemma link_text_is_composed_title h e node_ l target t inline_ rest title_ more :
  refid (node_attrs node_) = Some l ->
  registry_of e !! l = Some target ->
  deref e (e_node target) = Some t ->
  is_instance spice_simulation_node t = true ->
  node_children node_ = inline_ :: rest ->
  node_cls inline_ <> None ->
  node_children t = title_ :: more ->
  (node_resolved_title t = true ->
     LinkText.visit h node_ e = (Ok (with_link_text (astext title_) node_ inline_ rest), e)) /\
  (node_resolved_title t = false ->
     is_instance spice_simulation_title title_ = true ->
     forall f file_title fmore prefix pmore entry lf,
       registry_node e (target_label (node_attrs t)) = Some f ->
       node_children f = file_title :: fmore ->
       node_children file_title = prefix :: pmore ->
       title_attr (node_attrs t) = Some entry ->
       label (node_attrs f) = Some lf ->
       exists t' e',
         LinkText.visit h node_ e
         = (Ok (with_link_text (composed_title_text h t f) node_ inline_ rest), e') /\
         registry_node e' (Some l) = Some t' /\
         node_resolved_title t' = true /\
         astext (default (Text "") (head (node_children t'))) = composed_title_text h t f).
Proof.
  intros Hrefid Htarget Hderef Hsim Hkids Hinline Htitle.
  assert (Henum : is_instance spice_file_enumerable_node t = false)
    by (eapply instance_other; eauto; done).
  assert (Hlink : forall text,
            LinkText.set_link_text text node_ = Ok (with_link_text text node_ inline_ rest)).
  { intros text. unfold LinkText.set_link_text, with_link_text. rewrite Hkids.
    by destruct inline_. }
  split.
  - intros Hres. unfold LinkText.visit, bind, get_env, lift, ret, first_child.
    rewrite Hrefid, Htarget, Hderef, Henum, Hsim, Hres, andb_false_r. cbn.
    rewrite Htitle. by rewrite Hlink.
  - intros Hres Htitle_cls f file_title fmore prefix pmore entry lf Hf Hfk Htk Hentry Hlf.
    destruct (resolution_succeeds h t f e title_ more file_title fmore prefix pmore entry lf)
      as (t' & e1 & Hrun); try done.
    destruct (resolved_title_text h t f e t' e1 title_ more) as (title1 & Hk1 & Hr1 & Htext);
      try done.
    destruct (resolution_frame h t f e t' e1 Hrun) as [Hreg1 Hobj1].
    exists t', (mutate (e_node target) (fun _ => t') e1). repeat split.
    + unfold LinkText.visit, bind, get_env, lift, ret, first_child, registry_get_node,
        modify_env.
      rewrite Hrefid, Htarget, Hderef, Henum, Hsim, Hres, andb_false_r. cbn [negb].
      unfold bind, get_env, ret. cbv beta. rewrite Hf. cbv beta iota. rewrite Hrun. cbv beta iota.
      rewrite Hk1. rewrite Hlink. by rewrite Htext.
    + unfold registry_node, mutate, registry_of, deref in *. rewrite Hobj1, Hderef.
      cbn. destruct e1; cbn in *. subst. rewrite Htarget. cbn.
      apply list_lookup_insert_eq. by eapply lookup_lt_Some.
    + done.
    + by rewrite Hk1.
Qed.

Example link_text_of_forward_reference :
  exists t' e',
    LinkText.visit example_host (reference_to "sim-a" "see") env_ghost
    = (Ok (with_link_text
             (composed_title_text example_host (object_at env_ghost 3) (object_at env_ghost 1))
             (reference_to "sim-a" "see")
             (new_element inline (set_classes ["std"; "std-ref"] no_attributes) [Text "see"])
             []), e') /\
    registry_node e' (Some "sim-a") = Some t' /\
    node_resolved_title t' = true /\
    astext (default (Text "") (head (node_children t')))
    = composed_title_text example_host (object_at env_ghost 3) (object_at env_ghost 1).
Proof.
  assert (H1 : registry_of env_ghost !! "sim-a" = Some entry_sim_a)
    by (vm_compute; reflexivity).
  assert (H2 : deref env_ghost (e_node entry_sim_a) = Some (object_at env_ghost 3))
    by (vm_compute; reflexivity).
  assert (H3 : is_instance spice_simulation_node (object_at env_ghost 3) = true)
    by (vm_compute; reflexivity).
  assert (H4 : node_children (object_at env_ghost 3)
               = new_element spice_simulation_title no_attributes [Text "spice_simulation to"]
                 :: [new_element section
                       (set_ids ["spice_simulation-content"] no_attributes) []])
    by (vm_compute; reflexivity).
  assert (H5 : node_resolved_title (object_at env_ghost 3) = false)
    by (vm_compute; reflexivity).
  assert (H6 : registry_node env_ghost (target_label (node_attrs (object_at env_ghost 3)))
               = Some (object_at env_ghost 1))
    by (vm_compute; reflexivity).
  assert (H7 : node_children (object_at env_ghost 1)
               = new_element spice_file_title no_attributes [Text "spice_file"]
                 :: [file_section []])
    by (vm_compute; reflexivity).
  assert (H8 : title_attr (node_attrs (object_at env_ghost 3)) = Some "spice_simulation to")
    by (vm_compute; reflexivity).
  assert (H9 : label (node_attrs (object_at env_ghost 1)) = Some "file-a")
    by (vm_compute; reflexivity).
  assert (H10 : node_cls (new_element inline (set_classes ["std"; "std-ref"] no_attributes)
                            [Text "see"]) <> None) by discriminate.
  exact (proj2 (link_text_is_composed_title example_host env_ghost
                  (reference_to "sim-a" "see") "sim-a" entry_sim_a (object_at env_ghost 3)
                  _ [] _ _ eq_refl H1 H2 H3 eq_refl H10 H4)
               H5 eq_refl (object_at env_ghost 1) _ _ (Text "spice_file") [] _ _
               H6 H7 eq_refl H8 H9).
Qed.

Example composed_title_of_the_example :
  composed_title_text example_host (object_at env_ghost 3) (object_at env_ghost 1)
  = "spice_simulation to spice_file 1".
Proof. vm_compute. reflexivity. Qed.

(** C8, on the code.  The document holds the simulation "sim-ghost", whose
    target "ghost" is not registered, and a reference to "sim-ghost".  The
    title pass logs its warning and leaves the simulation unresolved; the
    link-text pass finds the simulation in the registry, looks its target
    up to resolve it, and raises the lookup error: the pass ends there and
    the text of the reference is not replaced. *)
Theorem dangling_simulation_target_raises :
  let e1 := log_warning "undefined label: ghost" "/src/index" env_ghost in
  SimTitles.run example_host doc_reference_to_ghost env_ghost
  = (Ok doc_reference_to_ghost, e1) /\
  registry_node e1 (Some "sim-ghost") = Some (object_at env_ghost 2) /\
  is_instance spice_simulation_node (object_at env_ghost 2) = true /\
  node_resolved_title (object_at env_ghost 2) = false /\
  registry_node e1 (target_label (node_attrs (object_at env_ghost 2))) = None /\
  LinkText.visit example_host (reference_to "sim-ghost" "see") e1
  = (Raise (KeyError "ghost"), e1) /\
  LinkText.run example_host doc_reference_to_ghost e1 = (Raise (KeyError "ghost"), e1).
Proof. vm_compute. repeat split. Qed.

(** * Further properties of the code *)

Lemma rfind_from_no_dot s i last :
  no_dot s = true -> Py.rfind_from "." s i last = last.
Proof.
  revert i last. induction s as [|c r IH]; intros i last H; [done|].
  simpl in H. apply andb_true_iff in H as [Hc Hr].
  cbn [Py.rfind_from]. destruct (Ascii.eqb c "."); [done|]. by apply IH.
Qed.

Lemma rfind_from_app base rest i last :
  Py.rfind_from "." (base +:+ rest) i last
  = Py.rfind_from "." rest (i + String.length base) (Py.rfind_from "." base i last).
Proof.
  revert i last. induction base as [|c r IH]; intros i last.
  - rewrite string_app_nil_l. simpl. by rewrite Nat.add_0_r.
  - rewrite string_app_cons. cbn [Py.rfind_from String.length]. rewrite IH.
    by replace (S i + String.length r) with (i + S (String.length r)) by lia.
Qed.

Lemma substring_prefix base rest :
  String.substring 0 (String.length base) (base +:+ rest) = base.
Proof.
  induction base as [|c r IH].
  - rewrite string_app_nil_l. by destruct rest.
  - rewrite string_app_cons. simpl. by rewrite IH.
Qed.

(** X1.  The location of a warning is the path of the document without its
    suffix: what follows the last dot is cut off with the dot.  A path
    without any dot loses its last character ([rfind] gives [-1]). *)
Theorem strip_suffix_of_path base ext :
  no_dot ext = true ->
  strip_suffix (base +:+ "." +:+ ext) = base /\
  strip_suffix ext = String.substring 0 (String.length ext - 1) ext.
Proof.
  intros Hext. split.
  - unfold strip_suffix, Py.rfind.
    rewrite rfind_from_app, string_app_cons, string_app_nil_l.
    cbn [Py.rfind_from]. simpl (Ascii.eqb _ _). cbn iota.
    rewrite rfind_from_no_dot by done.
    unfold Py.slice_to. simpl (0 + _).
    destruct (Z.leb_spec 0 (Z.of_nat (String.length base))); [|lia].
    rewrite Nat2Z.id. apply substring_prefix.
  - unfold strip_suffix, Py.rfind. rewrite rfind_from_no_dot by done.
    unfold Py.slice_to. simpl (0 <=? -1)%Z. cbn iota.
    f_equal. lia.
Qed.

Lemma strip_suffix_of_path_witness :
  strip_suffix ("/src/index" +:+ "." +:+ "rst") = "/src/index" /\
  strip_suffix "rst" = "rs".
Proof. apply (strip_suffix_of_path "/src/index" "rst"). reflexivity. Defined.

(** ** Registration *)

(** X3.  A block with the [hidden] flag yields no node for the document, and its
    label is registered all the same, with the node the directive built: a
    copy for a file block, the node itself for a simulation block.  The
    file directive needs no argument; the simulation directive has its
    target as argument and runs in a build that does not hide the
    simulation blocks. *)
Theorem hidden_block_is_registered h fname sname cls d e :
  opt_hidden d = true ->
  (registry_of e !! directive_label "spice_file" d (env_docname e) (serialno e) = None ->
   let file_built := spice_file_build h fname d (env_docname e) (serialno e) in
   fst (spice_fileDirective_run h fname d e) = Ok [] /\
   registry_node (snd (spice_fileDirective_run h fname d e))
     (Some (directive_label "spice_file" d (env_docname e) (serialno e)))
   = Some (deepcopy file_built) /\
   hidden (node_attrs (deepcopy file_built)) = Some true) /\
  (forall target rest,
   arguments d = target :: rest ->
   hide_spice_simulations e = false ->
   registry_of e !! directive_label "spice_simulation" d (env_docname e) (serialno e) = None ->
   let sim_built := spice_simulation_build h sname cls d target (env_docname e) (serialno e) in
   fst (spice_simulationDirective_run h sname cls d e) = Ok [] /\
   registry_node (snd (spice_simulationDirective_run h sname cls d e))
     (Some (directive_label "spice_simulation" d (env_docname e) (serialno e)))
   = Some sim_built /\
   hidden (node_attrs sim_built) = Some true).
Proof.
  intros Hh. split.
  - intros Hf file_built.
    rewrite file_run_fresh by done. rewrite Hh. cbn [fst snd]. repeat split.
    + apply registered_lookup_plain. cbn [e_node].
      rewrite lookup_app_r by lia.
      by replace (S (length (objects e)) - length (objects e)) with 1 by lia.
    + unfold file_built, spice_file_build. rewrite Hh.
      by destruct (opt_nonumber d), (bool_decide (fname = "spice_file-start")).
  - intros target rest Hargs Hhide Hs sim_built.
    rewrite (simulation_run_fresh h sname cls d e target rest) by done.
    rewrite Hh. cbn [fst snd]. repeat split.
    + apply registered_lookup_plain. cbn [e_node].
      rewrite lookup_app_r by lia. by rewrite Nat.sub_diag.
    + unfold sim_built, spice_simulation_build. by rewrite Hh.
Qed.

Lemma hidden_block_is_registered_witness :
  let df := hidden_file_directive "a" in
  let ds := hidden_directive "b" "file-a" in
  let file_built := spice_file_build example_host "spice_file" df "index" 0 in
  let sim_built :=
    spice_simulation_build example_host "spice_simulation" spice_simulation_node ds
      "file-a" "index" 0 in
  (fst (spice_fileDirective_run example_host "spice_file" df fresh_env) = Ok [] /\
   registry_node (snd (spice_fileDirective_run example_host "spice_file" df fresh_env))
     (Some "a") = Some (deepcopy file_built) /\
   hidden (node_attrs (deepcopy file_built)) = Some true) /\
  (fst (spice_simulationDirective_run example_host "spice_simulation"
          spice_simulation_node ds fresh_env) = Ok [] /\
   registry_node (snd (spice_simulationDirective_run example_host "spice_simulation"
                         spice_simulation_node ds fresh_env))
     (Some "b") = Some sim_built /\
   hidden (node_attrs sim_built) = Some true).
Proof.
  intros df ds. split.
  - apply (proj1 (hidden_block_is_registered example_host "spice_file" "spice_simulation"
                    spice_simulation_node df fresh_env eq_refl)).
    reflexivity.
  - apply (proj2 (hidden_block_is_registered example_host "spice_file" "spice_simulation"
                    spice_simulation_node ds fresh_env eq_refl) "file-a" []);
      reflexivity.
Defined.

Lemma simulation_run_hidden h name cls d e target rest :
  arguments d = target :: rest ->
  hide_spice_simulations e = true ->
  spice_simulationDirective_run h name cls d e
  = (Ok [], set_registry (Some (registry_of e)) (set_serialno (S (serialno e)) e)).
Proof.
  intros Hargs Hhide.
  unfold spice_simulationDirective_run. rewrite Hargs.
  unfold bind, new_serialno, init_registry, modify_env, get_env, ret, registry_of.
  cbn. destruct (sphinx_spice_file_registry e) as [r|] eqn:Hr; cbn; rewrite Hhide.
  - f_equal. destruct e. simpl in *. by subst.
  - reflexivity.
Qed.

(** X4.  With the build-wide [hide_spice_simulations] flag a simulation directive
    yields no node, registers no label, allocates no object and logs
    nothing, whatever its label: it takes a serial number and makes sure
    the registry exists, nothing else. *)
Theorem hidden_simulations_register_nothing h name cls d e target rest :
  arguments d = target :: rest ->
  hide_spice_simulations e = true ->
  spice_simulationDirective_run h name cls d e
  = (Ok [], set_registry (Some (registry_of e)) (set_serialno (S (serialno e)) e)).
Proof. apply simulation_run_hidden. Qed.

Lemma hidden_simulations_register_nothing_witness :
  let e :=
    {| env_docname := "index"; serialno := 4; hide_spice_simulations := true;
       sphinx_spice_file_registry := Some {[ "sim-a" := entry_sim_a ]};
       sphinx_spice_file_gated_registry := None; objects := []; has_equations := ∅;
       log := [] |} in
  spice_simulationDirective_run example_host "spice_simulation" spice_simulation_node
    (example_directive "sim-a" "file-a" 3) e
  = (Ok [], set_registry (Some (registry_of e)) (set_serialno 5 e)).
Proof.
  intros e.
  apply (hidden_simulations_register_nothing example_host _ _ _ e "file-a" []);
    reflexivity.
Defined.

(** ** Start directives that yield no node *)

(** X6.  A start directive records its ["S"] before the block is built, so it
    is counted by the validator also when the block is dropped: a gated
    file block whose label is registered already, a gated simulation block
    whose label is registered already or whose kind the build hides.  Each
    returns no node and leaves one more ["S"] in the document's record. *)
Theorem dropped_start_is_counted h d e :
  (is_Some (registry_of e !! directive_label "spice_file" d (env_docname e) (serialno e)) ->
   fst (spice_fileStartDirective_run h d e) = Ok [] /\
   recorded_sequence (snd (spice_fileStartDirective_run h d e))
   = recorded_sequence e ++ ["S"]) /\
  (forall target rest,
   arguments d = target :: rest ->
   hide_spice_simulations e = true \/
   is_Some (registry_of e !! directive_label "spice_simulation" d (env_docname e)
              (serialno e)) ->
   fst (spice_simulationStartDirective_run h d e) = Ok [] /\
   recorded_sequence (snd (spice_simulationStartDirective_run h d e))
   = recorded_sequence e ++ ["S"]).
Proof.
  split.
  - intros [other Hother]. split.
    + unfold spice_fileStartDirective_run, spice_fileStartDirective_record, bind, modify_env.
      cbv beta iota. erewrite file_run_duplicate; [done|exact Hother].
    + unfold recorded_sequence at 1. rewrite file_start_recorded.
      cbn [g_sequence record_start]. by rewrite recorded_or_new_sequence.
  - intros target rest Hargs Hdrop. split.
    + unfold spice_simulationStartDirective_run, spice_simulationStartDirective_record,
        bind, modify_env. cbv beta iota.
      destruct (hide_spice_simulations e) eqn:Hhide.
      * by erewrite simulation_run_hidden.
      * destruct Hdrop as [|[other' Hother']]; [done|].
        erewrite simulation_run_duplicate; [done|exact Hargs|done|exact Hother'].
    + unfold recorded_sequence at 1. rewrite simulation_start_recorded.
      cbn [g_sequence record_start]. by rewrite recorded_or_new_sequence.
Qed.

Lemma dropped_start_is_counted_witness :
  let df := example_file_directive "file-a" 7 in
  let ds := example_directive "sim-z" "file-a" 3 in
  (fst (spice_fileStartDirective_run example_host df env_ghost) = Ok [] /\
   recorded_sequence (snd (spice_fileStartDirective_run example_host df env_ghost))
   = recorded_sequence env_ghost ++ ["S"]) /\
  (fst (spice_simulationStartDirective_run example_host ds env_hiding) = Ok [] /\
   recorded_sequence (snd (spice_simulationStartDirective_run example_host ds env_hiding))
   = recorded_sequence env_hiding ++ ["S"]).
Proof.
  intros df ds. split.
  - apply (proj1 (dropped_start_is_counted example_host df env_ghost)). by eexists.
  - apply (proj2 (dropped_start_is_counted example_host ds env_hiding) "file-a" []).
    + reflexivity.
    + by left.
Defined.

(** ** What a directive leaves of the registry *)

(** X5.  No directive overwrites or removes a registration, and none changes an
    object that exists: a label registered before a directive runs resolves
    to the same entry and the same node after it, whatever the directive
    returns. *)
Theorem directives_keep_registrations h name cls d e l v n :
  registry_of e !! l = Some v ->
  deref e (e_node v) = Some n ->
  forall e',
    e' = snd (spice_fileDirective_run h name d e) \/
    e' = snd (spice_simulationDirective_run h name cls d e) \/
    e' = snd (spice_fileStartDirective_run h d e) \/
    e' = snd (spice_simulationStartDirective_run h d e) \/
    e' = snd (spice_fileEndDirective_run d e) \/
    e' = snd (spice_simulationEndDirective_run d e) ->
    registry_of e' !! l = Some v /\ registry_node e' (Some l) = Some n.
Proof.
  intros Hl Hn.
  assert (Hfile : forall name0 e0,
            registry_of e0 = registry_of e -> objects e0 = objects e ->
            let e' := snd (spice_fileDirective_run h name0 d e0) in
            registry_of e' !! l = Some v /\ registry_node e' (Some l) = Some n).
  { intros name0 e0 Hreg Hobj.
    destruct (registry_of e0 !! directive_label "spice_file" d (env_docname e0) (serialno e0))
      as [other|] eqn:Hdup.
    - rewrite (file_run_duplicate _ _ _ _ _ Hdup). cbn [snd].
      unfold registry_node, registry_of, deref in *. cbn. rewrite Hreg, Hobj.
      split; [done|]. cbn. by rewrite Hl.
    - rewrite (file_run_fresh _ _ _ _ Hdup). cbn [snd].
      assert (Hne : directive_label "spice_file" d (env_docname e0) (serialno e0) <> l).
      { intros Heq. rewrite <- Heq, <- Hreg, Hdup in Hl. done. }
      unfold registry_node, registered, registry_of, deref in *. cbn.
      rewrite lookup_insert_ne by done. rewrite Hreg, Hobj, Hl. split; [done|]. cbn.
      apply lookup_app_l_Some. done. }
  assert (Hsim : forall name0 cls0 e0,
            registry_of e0 = registry_of e -> objects e0 = objects e ->
            let e' := snd (spice_simulationDirective_run h name0 cls0 d e0) in
            registry_of e' !! l = Some v /\ registry_node e' (Some l) = Some n).
  { intros name0 cls0 e0 Hreg Hobj.
    destruct (arguments d) as [|target rest] eqn:Hargs.
    { unfold spice_simulationDirective_run. rewrite Hargs. cbn.
      unfold registry_node, deref. rewrite Hreg, Hobj. split; [done|]. cbn. by rewrite Hl. }
    destruct (hide_spice_simulations e0) eqn:Hhide.
    { rewrite (simulation_run_hidden _ _ _ _ _ _ _ Hargs Hhide). cbn [snd].
      unfold registry_node, registry_of, deref in *. cbn.
      destruct (sphinx_spice_file_registry e0); cbn in *; rewrite Hreg, Hobj;
        (split; [done|]); cbn; by rewrite Hl. }
    destruct (registry_of e0 !! directive_label "spice_simulation" d (env_docname e0)
                (serialno e0)) as [other|] eqn:Hdup.
    - rewrite (simulation_run_duplicate _ _ _ _ _ _ _ _ Hargs Hhide Hdup). cbn [snd].
      unfold registry_node, registry_of, deref in *. cbn. rewrite Hreg, Hobj.
      split; [done|]. cbn. by rewrite Hl.
    - rewrite (simulation_run_fresh _ _ _ _ _ _ _ Hargs Hhide Hdup). cbn [snd].
      assert (Hne : directive_label "spice_simulation" d (env_docname e0) (serialno e0) <> l).
      { intros Heq. rewrite <- Heq, <- Hreg, Hdup in Hl. done. }
      unfold registry_node, registered, registry_of, deref in *. cbn.
      rewrite lookup_insert_ne by done. rewrite Hreg, Hobj, Hl. split; [done|]. cbn.
      apply lookup_app_l_Some. done. }
  intros e' [->|[->|[->|[->|[->| ->]]]]].
  - by apply Hfile.
  - by apply Hsim.
  - unfold spice_fileStartDirective_run, spice_fileStartDirective_record, bind, modify_env.
    cbv beta iota. by apply Hfile.
  - unfold spice_simulationStartDirective_run, spice_simulationStartDirective_record,
      bind, modify_env. cbv beta iota. by apply Hsim.
  - unfold spice_fileEndDirective_run, spice_fileEndDirective_record, bind, modify_env,
      alloc, ret. cbv beta iota. cbn [snd].
    unfold registry_node, registry_of, deref in *. cbn. rewrite Hl. split; [done|]. cbn.
    by apply lookup_app_l_Some.
  - unfold spice_simulationEndDirective_run, spice_simulationEndDirective_record, bind,
      modify_env, alloc, ret. cbv beta iota. cbn [snd].
    unfold registry_node, registry_of, deref in *. cbn. rewrite Hl. split; [done|]. cbn.
    by apply lookup_app_l_Some.
Qed.

Lemma directives_keep_registrations_witness :
  let e' := snd (spice_fileDirective_run example_host "spice_file"
                   (example_file_directive "file-b" 11) env_ghost) in
  registry_of e' !! "file-a" = Some entry_file_a /\
  registry_node e' (Some "file-a") = Some (object_at env_ghost 1).
Proof.
  intros e'.
  apply (directives_keep_registrations example_host "spice_file" spice_simulation_node
           (example_file_directive "file-b" 11) env_ghost "file-a" entry_file_a
           (object_at env_ghost 1)).
  - reflexivity.
  - reflexivity.
  - by left.
Defined.

(** ** Labels the directives generate *)

Lemma string_app_inj_prefix p s t : p +:+ s = p +:+ t -> s = t.
Proof.
  induction p as [|c p IH]; [by rewrite !string_app_nil_l|].
  rewrite !string_app_cons. intros [=]. by apply IH.
Qed.

(** X2.  The label of a block without a [label] option is made of the document
    name, the kind and the serial number of the directive: two such blocks
    of one document never collide.  Run one after the other on an
    environment that knows neither label, two file directives both register
    their blocks and none logs a warning. *)
Theorem generated_labels_do_not_collide h name1 name2 d1 d2 e :
  default "" (opt_label d1) = "" ->
  default "" (opt_label d2) = "" ->
  let l1 := directive_label "spice_file" d1 (env_docname e) (serialno e) in
  let l2 := directive_label "spice_file" d2 (env_docname e) (S (serialno e)) in
  registry_of e !! l1 = None ->
  registry_of e !! l2 = None ->
  let e1 := snd (spice_fileDirective_run h name1 d1 e) in
  let e2 := snd (spice_fileDirective_run h name2 d2 e1) in
  l1 <> l2 /\
  registry_node e2 (Some l1)
    = Some (deepcopy (spice_file_build h name1 d1 (env_docname e) (serialno e))) /\
  registry_node e2 (Some l2)
    = Some (deepcopy (spice_file_build h name2 d2 (env_docname e) (S (serialno e)))) /\
  log e2 = log e.
Proof.
  intros H1 H2 l1 l2 Hf1 Hf2 e1 e2.
  assert (Hl1 : l1 = env_docname e +:+ "-" +:+ "spice_file" +:+ "-" +:+ Py.str_of_nat (serialno e)).
  { unfold l1, directive_label. destruct (opt_label d1) as [l|]; [|done].
    simpl in H1. subst l. done. }
  assert (Hl2 : l2 = env_docname e +:+ "-" +:+ "spice_file" +:+ "-"
                     +:+ Py.str_of_nat (S (serialno e))).
  { unfold l2, directive_label. destruct (opt_label d2) as [l|]; [|done].
    simpl in H2. subst l. done. }
  assert (Hne : l1 <> l2).
  { rewrite Hl1, Hl2. intros Heq.
    do 4 apply string_app_inj_prefix in Heq.
    unfold Py.str_of_nat in Heq. apply (inj pretty) in Heq. lia. }
  assert (He1 : e1 = registered l1
            {| e_type := name1; e_docname := env_docname e; e_node := S (length (objects e)) |}
            [spice_file_build h name1 d1 (env_docname e) (serialno e);
             deepcopy (spice_file_build h name1 d1 (env_docname e) (serialno e))] e).
  { unfold e1. by rewrite file_run_fresh. }
  assert (Hf2' : registry_of e1 !! directive_label "spice_file" d2 (env_docname e1) (serialno e1)
                 = None).
  { rewrite He1. unfold registered, registry_of. cbn.
    fold l2. rewrite lookup_insert_ne by done. exact Hf2. }
  split; [done|].
  unfold e2. rewrite (file_run_fresh _ _ _ _ Hf2'). cbn [snd].
  rewrite He1. unfold registered at 1 3 5. cbn [env_docname serialno set_registry set_objects set_serialno].
  fold l2.
  repeat split.
  - unfold registry_node, registry_of, registered, deref. cbn.
    rewrite lookup_insert_ne by done. rewrite lookup_insert_eq. cbn.
    rewrite lookup_app_l by (rewrite length_app; simpl; lia).
    rewrite lookup_app_r by lia.
    by replace (S (length (objects e)) - length (objects e)) with 1 by lia.
  - unfold registry_node, registry_of, registered, deref. cbn.
    rewrite lookup_insert_eq. cbn.
    rewrite lookup_app_r by lia.
    by replace (S (length (objects e ++ _)) - length (objects e ++ _)) with 1 by lia.
Qed.

Lemma generated_labels_do_not_collide_witness :
  let d1 := unlabelled_directive 1 in
  let d2 := unlabelled_directive 5 in
  let e1 := snd (spice_fileDirective_run example_host "spice_file" d1 fresh_env) in
  let e2 := snd (spice_fileDirective_run example_host "spice_file" d2 e1) in
  "index-spice_file-0" <> "index-spice_file-1" /\
  registry_node e2 (Some "index-spice_file-0")
    = Some (deepcopy (spice_file_build example_host "spice_file" d1 "index" 0)) /\
  registry_node e2 (Some "index-spice_file-1")
    = Some (deepcopy (spice_file_build example_host "spice_file" d2 "index" 1)) /\
  log e2 = [].
Proof.
  intros d1 d2 e1 e2.
  apply (generated_labels_do_not_collide example_host "spice_file" "spice_file" d1 d2 fresh_env);
    reflexivity.
Defined.

(** ** The validator's outcome *)

(** X9.  Whatever the record holds, the validator either accepts and leaves the
    environment as it is, or logs one error, about the current document,
    and raises [ExtensionError]; a document without a record is accepted. *)
Theorem validator_reports_once e :
  (recorded e = None -> CheckGatedDirectives_apply e = (Ok tt, e)) /\
  (CheckGatedDirectives_apply e = (Ok tt, e) \/
   exists r, recorded e = Some r /\
     exists msg,
       msg ∈ [missing_end_msg (env_docname e) (g_type r) (structure_of r);
              missing_start_msg (env_docname e) (g_type r) (structure_of r);
              nested_msg (env_docname e) (g_type r) (structure_of r)] /\
       CheckGatedDirectives_apply e
       = (Raise (ExtensionError gated_error_msg), log_error msg e)).
Proof.
  unfold recorded, CheckGatedDirectives_apply, check_structure, bind, get_env, when, ret,
    raise, logger_error, modify_env, log_error, structure_of.
  destruct (sphinx_spice_file_gated_registry e) as [registry|]; simpl; [|by split; [|left]].
  destruct (registry !! env_docname e) as [r|] eqn:Hr; simpl; [|by split; [|left]].
  split; [done|].
  destruct (Nat.ltb_spec (length (g_end r)) (length (g_start r))) as [H1|H1]; simpl.
  { destruct (Nat.ltb_spec (length (g_start r)) (length (g_end r))); [lia|].
    destruct (Nat.eqb_spec (length (g_start r)) (length (g_end r))); [lia|]. simpl.
    right. exists r. split; [done|]. eexists. split; [|reflexivity].
    set_solver. }
  destruct (Nat.ltb_spec (length (g_start r)) (length (g_end r))) as [H2|H2]; simpl.
  { destruct (Nat.eqb_spec (length (g_start r)) (length (g_end r))); [lia|]. simpl.
    right. exists r. split; [done|]. eexists. split; [|reflexivity].
    set_solver. }
  destruct (Nat.eqb_spec (length (g_start r)) (length (g_end r))); [|lia]. simpl.
  destruct (negb _); simpl; [|by left].
  right. exists r. split; [done|]. eexists. split; [|reflexivity].
  set_solver.
Qed.

(** ** [find_nodes] *)

Lemma index_where_Some {A} (p : A -> bool) l i :
  index_where p l = Some i ->
  (exists x, l !! i = Some x /\ p x = true) /\
  (forall j x, j < i -> l !! j = Some x -> p x = false).
Proof.
  revert i. induction l as [|a l IH]; intros i H; [done|].
  simpl in H. destruct (p a) eqn:Hpa.
  - injection H as <-. split; [by exists a|]. intros j x Hj. lia.
  - destruct (index_where p l) as [i'|] eqn:Hi; [|done]. injection H as <-.
    destruct (IH i' eq_refl) as [Hx Hbefore]. split; [done|].
    intros [|j] x Hj Hlook; [by injection Hlook as <-|].
    simpl in Hlook. eapply Hbefore; [|done]. lia.
Qed.

Lemma index_where_None {A} (p : A -> bool) l :
  index_where p l = None -> Forall (fun x => p x = false) l.
Proof.
  induction l as [|a l IH]; intros H; [constructor|].
  simpl in H. destruct (p a) eqn:Hpa; [done|].
  destruct (index_where p l); [done|]. constructor; [done|by apply IH].
Qed.

Lemma found_pair_of (is_start is_end : node -> bool) cs :
  (forall x, is_start x = true -> is_end x = false) ->
  found_pair is_start is_end cs
    match index_where is_start cs with
    | Some idx1 =>
        (Some idx1,
         match index_where is_end (drop idx1 cs) with
         | Some idx2 => Some (idx1 + idx2)
         | None => None
         end)
    | None => (None, None)
    end.
Proof.
  intros Hdistinct.
  destruct (index_where is_start cs) as [s|] eqn:Hs; [|by apply index_where_None].
  destruct (index_where_Some _ _ _ Hs) as [(x & Hx & Hpx) Hbefore].
  destruct (index_where is_end (drop s cs)) as [k|] eqn:He.
  - destruct (index_where_Some _ _ _ He) as [(y & Hy & Hpy) Hmid].
    rewrite lookup_drop in Hy.
    assert (Hk : k <> 0).
    { intros ->. rewrite Nat.add_0_r in Hy. rewrite Hx in Hy. injection Hy as <-.
      rewrite (Hdistinct _ Hpx) in Hpy. done. }
    simpl. repeat split.
    + lia.
    + by apply lookup_lt_Some in Hy.
    + by exists x.
    + done.
    + by exists y.
    + intros j z [Hj1 Hj2] Hz. apply (Hmid (j - s) z); [lia|].
      rewrite lookup_drop. by replace (s + (j - s)) with j by lia.
  - simpl. repeat split; [by exists x|done|].
    intros j z Hj Hz. apply index_where_None in He.
    rewrite Forall_forall in He. apply He.
    apply list_elem_of_lookup. exists (j - s).
    rewrite lookup_drop. by replace (s + (j - s)) with j by lia.
Qed.

(** X10.  Both [find_nodes] return the index of the first sibling that is a start
    node with the label asked for and the index of the first end node of
    the kind from there on.  An end index lies after the start index, so
    it is never [0], which the callers would take for no end at all; there
    is no end index without a start index. *)
Theorem find_nodes_bounds label cs :
  found_pair (fun c => is_sim_start c && bool_decide (label = get_label c)) is_sim_end cs
             (Sims.find_nodes label cs) /\
  found_pair (fun c => Files.is_file c && bool_decide (label = get_label c)) is_file_end cs
             (Files.find_nodes label cs).
Proof.
  split.
  - apply found_pair_of. intros x Hx. apply andb_true_iff in Hx as [Hx _].
    unfold is_sim_start, is_sim_end in *. by eapply instance_other.
  - apply found_pair_of. intros x Hx. apply andb_true_iff in Hx as [Hx _].
    unfold Files.is_file, is_file_end in *. apply orb_true_iff in Hx as [Hx|Hx];
      by eapply instance_other.
Qed.

(** ** Documents without start markers, documents without end markers *)

Lemma gated_of_is_gated_file cls x : gated_of cls x = true -> cls = spice_file_node \/ cls = spice_file_enumerable_node -> is_gated_file x = true.
Proof.
  unfold gated_of, is_gated_file, Files.is_file. intros H [-> | ->];
    apply andb_true_iff in H as [-> ->]; by rewrite ?orb_true_r.
Qed.

Lemma merge_pass_plain doc : marker_free doc = true -> merge_pass doc = Ok doc.
Proof.
  intros Hfree. unfold merge_pass, Sims.apply, Files.apply.
  rewrite sims_walk_id;
    [|apply depth_covers_height|by apply marker_free_no_sim_start]. cbn [rbind].
  rewrite files_walk_id;
    [|apply depth_covers_height|apply marker_free_no_gated; [by left|done]]. cbn [rbind].
  apply files_walk_id; [apply depth_covers_height|].
  apply marker_free_no_gated; [by right|done].
Qed.

(** X11.  A document that holds no start marker (no simulation start node, no
    file block flagged [gated]) comes out of the merge pass as it went in:
    an end marker whose start directive yielded no node stays in the
    tree. *)
Theorem merge_keeps_stray_end_markers doc :
  free_of is_sim_start doc = true ->
  free_of is_gated_file doc = true ->
  merge_pass doc = Ok doc.
Proof.
  intros Hs Hg. unfold merge_pass, Sims.apply, Files.apply.
  rewrite sims_walk_id; [|apply depth_covers_height|done]. cbn [rbind].
  rewrite files_walk_id; [|apply depth_covers_height|].
  - cbn [rbind]. apply files_walk_id; [apply depth_covers_height|].
    eapply free_of_weaken; [|exact Hg]. intros x Hx.
    eapply gated_of_is_gated_file; [exact Hx|by right].
  - eapply free_of_weaken; [|exact Hg]. intros x Hx.
    eapply gated_of_is_gated_file; [exact Hx|by left].
Qed.

Lemma merge_keeps_stray_end_markers_witness :
  let doc := example_document [paragraph "body"; simulation_end; file_end] in
  merge_pass doc = Ok doc.
Proof.
  intros doc. apply (merge_keeps_stray_end_markers doc); reflexivity.
Defined.

(** *** No end marker: nothing is merged, the flags are cleared *)

Lemma index_where_none_of {A} (p : A -> bool) l :
  Forall (fun x => p x = false) l -> index_where p l = None.
Proof.
  induction 1 as [|x l Hx _ IH]; [done|]. simpl. by rewrite Hx, IH.
Qed.

Lemma sims_find_no_end label cs :
  Forall (fun c => is_sim_end c = false) cs -> snd (Sims.find_nodes label cs) = None.
Proof.
  intros H. unfold Sims.find_nodes. destruct (index_where _ cs) as [s|]; [|done].
  simpl. rewrite index_where_none_of; [done|]. by apply Forall_drop.
Qed.

Lemma files_find_no_end label cs :
  Forall (fun c => is_file_end c = false) cs -> snd (Files.find_nodes label cs) = None.
Proof.
  intros H. unfold Files.find_nodes. destruct (index_where _ cs) as [s|]; [|done].
  simpl. rewrite index_where_none_of; [done|]. by apply Forall_drop.
Qed.

Lemma sims_loop_no_end rec k i cs :
  Forall (fun c => is_sim_end c = false /\ rec c = Ok c) cs ->
  Sims.loop rec k i cs = Ok cs.
Proof.
  revert i cs. induction k as [|k IH]; intros i cs H; [done|].
  simpl. destruct (cs !! i) as [c|] eqn:E; [|done].
  assert (Hc : rec c = Ok c).
  { rewrite Forall_forall in H. apply H. by eapply list_elem_of_lookup_2. }
  assert (Hnone : snd (Sims.find_nodes (get_label c) cs) = None).
  { apply sims_find_no_end. eapply Forall_impl; [exact H|]. by intros x [? _]. }
  destruct (Sims.find_nodes (get_label c) cs) as [ps pe]. simpl in Hnone. subst pe.
  destruct (is_instance spice_simulation_start_node c).
  - destruct ps; rewrite Hc; cbn [rbind]; rewrite list_insert_id by done; by apply IH.
  - rewrite Hc. cbn [rbind]. rewrite list_insert_id by done. by apply IH.
Qed.

Lemma sims_walk_no_end d t :
  node_height t <= d -> free_of is_sim_end t = true -> Sims.walk d t = Ok t.
Proof.
  revert t. induction d as [|d IH]; intros t Hh Hf.
  - destruct t; simpl in Hh; lia.
  - destruct t as [s|c a g r cs]; [done|]. simpl.
    rewrite sims_loop_no_end; [done|].
    apply Forall_forall. intros x Hx.
    pose proof (free_of_children _ _ _ _ _ _ Hf) as Hcs.
    rewrite Forall_forall in Hcs. specialize (Hcs x Hx). split.
    + by apply free_of_here.
    + apply IH; [|done]. simpl in Hh. pose proof (height_child x cs Hx). lia.
Qed.

Lemma clear_where_class p n : node_cls (clear_where p n) = node_cls n.
Proof. by destruct n. Qed.

Lemma clear_where_height p n : node_height (clear_where p n) = node_height n.
Proof.
  induction n as [s|c a g r cs IH] using node_ind_children; [done|].
  simpl. f_equal. f_equal. rewrite map_map. apply map_ext_Forall. done.
Qed.

Lemma clear_where_free p q n :
  (forall x, q (clear_where p x) = q x) ->
  free_of q (clear_where p n) = free_of q n.
Proof.
  intros Hq. induction n as [s|c a g r cs IH] using node_ind_children; [done|].
  change (free_of q (clear_where p (Element c a g r cs)))
    with (negb (q (clear_where p (Element c a g r cs)))
          && forallb (free_of q) (map (clear_where p) cs)).
  rewrite Hq. cbn [free_of]. f_equal.
  induction IH as [|x l Hx _ IHl]; [done|]. simpl. by rewrite Hx, IHl.
Qed.

(** The tree with the flag cleared below the root only: what the walk of
    the file merge returns for a tree without end markers. *)
Lemma files_loop_no_end cls rec todo : forall done k,
  length todo <= k ->
  Forall (fun c => is_file_end c = false) (done ++ todo) ->
  Forall (fun c => rec (if is_instance cls c then set_gated false c else c)
                   = Ok (clear_where (is_instance cls) c)) todo ->
  Files.loop cls rec k (length done) (done ++ todo)
  = Ok (done ++ map (clear_where (is_instance cls)) todo).
Proof.
  induction todo as [|c todo IH]; intros done k Hk Hend Hrec.
  - simpl. rewrite app_nil_r. destruct k; [done|].
    simpl. by rewrite lookup_ge_None_2.
  - simpl in Hk. destruct k as [|k]; [lia|].
    inversion Hrec as [|? ? Hc Hrec']; subst.
    cbn [Files.loop]. rewrite lookup_middle.
    assert (Hnext : Files.loop cls rec k (S (length done))
                      (done ++ clear_where (is_instance cls) c :: todo)
                    = Ok (done ++ map (clear_where (is_instance cls)) (c :: todo))).
    { specialize (IH (done ++ [clear_where (is_instance cls) c]) k).
      rewrite length_app, Nat.add_1_r, <- !app_assoc in IH. apply IH; [lia| |done].
      apply Forall_app in Hend as [Hd Ht]. inversion Ht; subst.
      apply Forall_app. split; [done|]. constructor; [|done].
      unfold is_file_end, is_instance in *. by rewrite clear_where_class. }
    destruct (is_instance cls c) eqn:Hi.
    + assert (Hmerge : (if node_gated c
                        then Files.merge_nodes (length done) c (done ++ c :: todo)
                        else Ok (done ++ c :: todo, length done))
                       = Ok (done ++ c :: todo, length done)).
      { destruct (node_gated c); [|done]. unfold Files.merge_nodes.
        pose proof (files_find_no_end (get_label c) _ Hend) as Hnone.
        destruct (Files.find_nodes (get_label c) (done ++ c :: todo)) as [ps pe].
        simpl in Hnone. subst pe. by destruct ps. }
      rewrite Hmerge. cbn [rbind]. rewrite lookup_middle, Hc. cbn [rbind].
      rewrite insert_middle. exact Hnext.
    + rewrite Hc. cbn [rbind]. rewrite insert_middle. exact Hnext.
Qed.

Lemma files_walk_no_end cls d t :
  node_height t <= d -> free_of is_file_end t = true ->
  Files.walk cls d t = Ok (set_children (map (clear_where (is_instance cls)) (node_children t)) t).
Proof.
  revert t. induction d as [|d IH]; intros t Hh Hf.
  - destruct t; simpl in Hh; lia.
  - destruct t as [s|c a g r cs]; [done|]. rewrite files_walk_S.
    pose proof (free_of_children _ _ _ _ _ _ Hf) as Hcs.
    rewrite (files_loop_no_end cls _ cs [] (length cs)); [done|done| |].
    + eapply Forall_impl; [exact Hcs|]. intros x. apply free_of_here.
    + apply Forall_forall. intros x Hx.
      rewrite Forall_forall in Hcs. specialize (Hcs x Hx).
      assert (Hhx : node_height x <= d).
      { simpl in Hh. pose proof (height_child x cs Hx). lia. }
      destruct x as [s|xc xa xg xr xcs]; [by destruct d; [simpl in Hhx; lia|]|].
      destruct (is_instance cls (Element xc xa xg xr xcs)) eqn:Hi.
      * cbn [set_gated]. rewrite IH; [|done|done].
        cbn [set_children node_children clear_where]. 
        replace (is_instance cls (Element xc xa xg xr xcs)) with true. done.
      * rewrite IH; [|done|done].
        cbn [set_children node_children clear_where]. by rewrite Hi.
Qed.

Lemma clear_gated_twice n :
  clear_where (is_instance spice_file_enumerable_node)
    (clear_where (is_instance spice_file_node) n) = clear_gated n.
Proof.
  unfold clear_gated.
  induction n as [s|c a g r cs IH] using node_ind_children; [done|].
  cbn [clear_where]. f_equal.
  - unfold Files.is_file, is_instance. cbn [node_cls].
    repeat case_bool_decide; simplify_eq; done.
  - rewrite map_map. by apply map_ext_Forall.
Qed.

(** X12.  A document that holds no end marker comes out of the merge pass with
    nothing merged: the simulation start nodes stay as they are, and the
    file blocks too, save that each has its [gated] flag cleared. *)
Theorem merge_without_end_markers doc :
  Files.is_file doc = false ->
  free_of is_sim_end doc = true ->
  free_of is_file_end doc = true ->
  merge_pass doc = Ok (clear_gated doc).
Proof.
  intros Hroot Hs Hf. unfold merge_pass, Sims.apply, Files.apply.
  rewrite sims_walk_no_end; [|apply depth_covers_height|done]. cbn [rbind].
  assert (Hnot : forall cls, cls = spice_file_node \/ cls = spice_file_enumerable_node ->
            forall t, Files.is_file t = false ->
            set_children (map (clear_where (is_instance cls)) (node_children t)) t
            = clear_where (is_instance cls) t).
  { intros cls Hcls [s|c a g r cs] Ht; [done|]. cbn [set_children node_children clear_where].
    replace (is_instance cls (Element c a g r cs)) with false; [done|].
    unfold Files.is_file in Ht. apply orb_false_iff in Ht as [H1 H2].
    by destruct Hcls as [-> | ->]. }
  rewrite files_walk_no_end; [|apply depth_covers_height|done]. cbn [rbind].
  rewrite Hnot; [|by left|done].
  rewrite files_walk_no_end; [|apply depth_covers_height|].
  - rewrite Hnot; [|by right|].
    + by rewrite clear_gated_twice.
    + unfold Files.is_file, is_instance in *. by rewrite clear_where_class.
  - rewrite clear_where_free; [done|]. intros x.
    unfold is_file_end, is_instance. by rewrite clear_where_class.
Qed.

Lemma merge_without_end_markers_witness :
  let doc :=
    example_document
      [object_at env_interleaved 0; paragraph "body"; object_at env_interleaved 2] in
  merge_pass doc = Ok (clear_gated doc).
Proof.
  intros doc. apply (merge_without_end_markers doc); reflexivity.
Defined.

(** ** Merging twice *)

(** X13.  The merge pass is idempotent on a document whose gated pairs lie flat:
    a second run returns the tree the first has returned. *)
Theorem merge_pass_idempotent c a g r cs :
  is_marker (Element c a g r cs) = false ->
  flat cs ->
  NoDup (file_labels cs) ->
  exists doc',
    merge_pass (Element c a g r cs) = Ok doc' /\ merge_pass doc' = Ok doc'.
Proof.
  intros Hroot Hflat Hnd.
  destruct (merge_pass_flat c a g r cs Hroot Hflat Hnd) as (cs' & Hrun & Hfree).
  exists (Element c a g r cs'). split; [done|]. by apply merge_pass_plain.
Qed.

Lemma merge_pass_idempotent_witness :
  exists doc',
    merge_pass (example_document doc_same_depth) = Ok doc' /\ merge_pass doc' = Ok doc'.
Proof.
  apply (merge_pass_idempotent document no_attributes false false doc_same_depth).
  - reflexivity.
  - apply flat_plain; [reflexivity|].
    apply flat_nested; [reflexivity|apply NoDup_nil_2| |].
    + apply (flat_sim (object_at env_split_depth 0) [paragraph "body"]
               (object_at env_split_depth 1) []).
      * reflexivity.
      * vm_compute. repeat constructor.
      * repeat constructor.
      * repeat constructor.
      * reflexivity.
      * constructor.
      * constructor.
    + apply flat_plain; [reflexivity|constructor].
  - apply NoDup_nil_2.
Defined.

(** ** From the directives to the validator *)

Lemma flat_pairs_snoc n : flat_pairs n ++ ["S"; "E"] = flat_pairs (S n).
Proof.
  induction n as [|n IH]; [done|].
  change (flat_pairs (S (S n))) with ("S" :: "E" :: flat_pairs (S n)).
  change (flat_pairs (S n) ++ ["S"; "E"]) with ("S" :: "E" :: (flat_pairs n ++ ["S"; "E"])).
  by rewrite IH.
Qed.

Lemma after_app steps1 steps2 e : after (steps1 ++ steps2) e = after steps2 (after steps1 e).
Proof. unfold after. apply foldl_app. Qed.

Lemma gated_pair_recorded h of_file s t e n :
  (forall kind, paired_record n (recorded_or_new kind e)) ->
  exists r, recorded (after (gated_pair h of_file s t) e) = Some r /\ paired_record (S n) r.
Proof.
  intros Hinv. unfold gated_pair, after.
  destruct of_file; cbn [foldl].
  - rewrite file_end_recorded. eexists. split; [reflexivity|].
    unfold recorded_or_new at 1. rewrite file_start_recorded. cbn [default].
    destruct (Hinv "spice_file") as (Hseq & Hs & He).
    unfold paired_record. cbn [record_end record_start g_sequence g_start g_end id].
    rewrite Hseq, <- app_assoc, !length_app, Hs, He. cbn [app length].
    split; [apply flat_pairs_snoc|lia].
  - rewrite simulation_end_recorded. eexists. split; [reflexivity|].
    unfold recorded_or_new at 1. rewrite simulation_start_recorded. cbn [default].
    destruct (Hinv "spice_simulation") as (Hseq & Hs & He).
    unfold paired_record. cbn [record_end record_start g_sequence g_start g_end id].
    rewrite Hseq, <- app_assoc, !length_app, Hs, He. cbn [app length].
    split; [apply flat_pairs_snoc|lia].
Qed.

Lemma gated_pairs_recorded h pairs : forall e n,
  (forall kind, paired_record n (recorded_or_new kind e)) ->
  forall kind, paired_record (n + length pairs)
                 (recorded_or_new kind (after (gated_pairs h pairs) e)).
Proof.
  induction pairs as [|[[k s] t] pairs IH]; intros e n Hinv kind.
  - rewrite Nat.add_0_r. apply Hinv.
  - unfold gated_pairs. cbn [flat_map fst snd]. rewrite after_app.
    destruct (gated_pair_recorded h k s t e n Hinv) as (r & Hr & Hp).
    cbn [length]. replace (n + S (length pairs)) with (S n + length pairs) by lia.
    apply IH. intros kind'. unfold recorded_or_new. by rewrite Hr.
Qed.

Lemma paired_record_accepted e n :
  (forall kind, paired_record n (recorded_or_new kind e)) ->
  CheckGatedDirectives_apply e = (Ok tt, e).
Proof.
  intros Hinv. specialize (Hinv "spice_file"). unfold recorded_or_new, recorded in Hinv.
  unfold CheckGatedDirectives_apply, check_structure, bind, get_env, when, ret,
    raise, logger_error, modify_env.
  destruct (sphinx_spice_file_gated_registry e) as [registry|]; simpl in *; [|done].
  destruct (registry !! env_docname e) as [r|] eqn:Hr; simpl in *; [|done].
  destruct Hinv as (Hseq & Hs & He).
  destruct (Nat.ltb_spec (length (g_end r)) (length (g_start r))); [lia|].
  destruct (Nat.ltb_spec (length (g_start r)) (length (g_end r))); [lia|].
  destruct (Nat.eqb_spec (length (g_start r)) (length (g_end r))); [|lia]. simpl.
  rewrite Hseq, Hs. destruct (flat_pairs_counts n) as (_ & _ & _ & ->).
  by rewrite Nat.eqb_refl.
Qed.

(** X8.  A document whose gated directives come as pairs, each start directive
    followed by its end directive before the next pair begins, passes the
    validator, file pairs and simulation pairs alike and whatever the
    directives return: the record then reads [S E S E ...], one pair per
    pair of directives. *)
Theorem paired_directives_pass_validation h pairs e :
  recorded e = None ->
  let e' := after (gated_pairs h pairs) e in
  recorded_sequence e' = flat_pairs (length pairs) /\
  CheckGatedDirectives_apply e' = (Ok tt, e').
Proof.
  intros Hnone e'.
  assert (Hinv : forall kind, paired_record 0 (recorded_or_new kind e)).
  { intros kind. unfold recorded_or_new. rewrite Hnone. by repeat split. }
  pose proof (gated_pairs_recorded h pairs e 0 Hinv) as Hall. fold e' in Hall.
  split.
  - rewrite <- (recorded_or_new_sequence "spice_file"). apply (Hall "spice_file").
  - by eapply paired_record_accepted.
Qed.

Lemma paired_directives_pass_validation_witness :
  let pairs :=
    [(true, example_file_directive "file-a" 1, example_file_directive "" 4);
     (false, example_directive "sim-a" "file-a" 6, example_file_directive "" 9)] in
  let e' := after (gated_pairs example_host pairs) fresh_env in
  recorded_sequence e' = flat_pairs 2 /\
  CheckGatedDirectives_apply e' = (Ok tt, e').
Proof.
  intros pairs e'.
  apply (paired_directives_pass_validation example_host pairs fresh_env). reflexivity.
Defined.

(** ** Upgrading references to numbered file blocks *)

Lemma list_remove_Some x l : x ∈ l -> exists r, list_remove x l = Ok r.
Proof.
  induction l as [|y l IH]; intros H; [by apply elem_of_nil in H|].
  simpl. case_bool_decide; [by eexists|].
  apply elem_of_cons in H as [->|H]; [done|].
  destruct (IH H) as [r ->]. by eexists.
Qed.

Lemma list_remove_None x l : x ∉ l -> list_remove x l = Raise ValueError.
Proof.
  induction l as [|y l IH]; intros H; [done|].
  simpl. case_bool_decide; [subst; exfalso; apply H; by left|].
  rewrite IH; [done|]. intros Hin. apply H. by right.
Qed.

(** X14.  The body of the upgrade loop either returns the node as it is, or the
    node is a reference that is no [numref] yet, without text of the
    author's, to a label registered with a numbered file block: then the
    node leaves as a [numref] whose first child is a [literal] with the
    children of the former first child and its class tags, ["std-ref"]
    taken out once and ["std-numref"] added; target and other children
    stay. *)
Theorem upgrade_changes_only_plain_references e n n' :
  Upgrade.visit e n = Ok n' ->
  n' = n \/
  (reftype (node_attrs n) <> Some "numref" /\
   truthy (refexplicit (node_attrs n)) = false /\
   (exists t, registry_node e (reftarget (node_attrs n)) = Some t /\
              is_instance spice_file_enumerable_node t = true) /\
   node_attrs n' = set_reftype "numref" (node_attrs n) /\
   exists k ia g r ics rest removed,
     node_children n = Element k ia g r ics :: rest /\
     list_remove "std-ref" (classes ia) = Ok removed /\
     node_children n'
     = new_element literal (set_classes (removed ++ ["std-numref"]) no_attributes) ics
       :: rest).
Proof.
  unfold Upgrade.visit.
  case_bool_decide as Hnum; [intros [= <-]; by left|].
  destruct (registry_node e (reftarget (node_attrs n))) as [t|] eqn:Ht;
    [|intros [= <-]; by left].
  destruct (is_instance spice_file_enumerable_node t) eqn:Hen; [|intros [= <-]; by left].
  destruct (truthy (refexplicit (node_attrs n))) eqn:Hex; [intros [= <-]; by left|].
  destruct n as [s|c a g r cs]; [done|]. cbn [node_children node_attrs] in *.
  destruct cs as [|[s|k ia ig ir ics] rest]; [done|done|].
  destruct (list_remove "std-ref" (classes ia)) as [removed| |] eqn:Hrem; [|done|done].
  cbn. intros [= <-]. right. repeat split; try done.
  - by exists t.
  - by exists k, ia, ig, ir, ics, rest, removed.
Qed.

Lemma upgrade_changes_only_plain_references_witness :
  let n := plain_xref "file-a" "see" in
  let n' := set_children
              [new_element literal (set_classes ["xref"; "std"; "std-numref"] no_attributes)
                 [Text "see"]]
              (set_attrs (set_reftype "numref" (node_attrs n)) n) in
  n' = n \/
  (reftype (node_attrs n) <> Some "numref" /\
   truthy (refexplicit (node_attrs n)) = false /\
   (exists t, registry_node env_ghost (reftarget (node_attrs n)) = Some t /\
              is_instance spice_file_enumerable_node t = true) /\
   node_attrs n' = set_reftype "numref" (node_attrs n) /\
   exists k ia g r ics rest removed,
     node_children n = Element k ia g r ics :: rest /\
     list_remove "std-ref" (classes ia) = Ok removed /\
     node_children n'
     = new_element literal (set_classes (removed ++ ["std-numref"]) no_attributes) ics
       :: rest).
Proof.
  intros n n'. apply (upgrade_changes_only_plain_references env_ghost n n'). reflexivity.
Defined.

(** X16.  The upgrade fails on a reference it would convert whose first child
    does not carry the class tag ["std-ref"], as the cross-reference of
    another role does: [list.remove] raises [ValueError], and the pass
    ends with it. *)
Theorem upgrade_needs_the_std_ref_tag e n t k ia g r ics rest :
  is_instance pending_xref n = true ->
  reftype (node_attrs n) <> Some "numref" ->
  registry_node e (reftarget (node_attrs n)) = Some t ->
  is_instance spice_file_enumerable_node t = true ->
  truthy (refexplicit (node_attrs n)) = false ->
  node_children n = Element k ia g r ics :: rest ->
  "std-ref" ∉ classes ia ->
  Upgrade.visit e n = Raise ValueError /\
  forall depth, Upgrade.walk e (S depth) n = Raise ValueError.
Proof.
  intros Hx Hnum Ht Hen Hex Hcs Hno.
  assert (Hvisit : Upgrade.visit e n = Raise ValueError).
  { unfold Upgrade.visit. rewrite bool_decide_eq_false_2 by done.
    rewrite Ht, Hen, Hex, Hcs. by rewrite list_remove_None. }
  split; [done|]. intros depth. cbn [Upgrade.walk]. by rewrite Hx, Hvisit.
Qed.

Lemma upgrade_needs_the_std_ref_tag_witness :
  Upgrade.visit env_ghost (term_xref "file-a" "see") = Raise ValueError /\
  forall depth, Upgrade.walk env_ghost (S depth) (term_xref "file-a" "see") = Raise ValueError.
Proof.
  eapply (upgrade_needs_the_std_ref_tag env_ghost (term_xref "file-a" "see")).
  - reflexivity.
  - discriminate.
  - reflexivity.
  - reflexivity.
  - reflexivity.
  - reflexivity.
  - cbn. intros Hin.
    repeat (apply elem_of_cons in Hin as [Hin|Hin]; [discriminate|]).
    by apply elem_of_nil in Hin.
Defined.

(** X15.  The upgrade keeps the text of the reference: where the first child is
    a text element, as the [inline] of a cross-reference is, the node the
    body of the loop returns reads as the node it was given. *)
Theorem upgrade_keeps_the_text e n n' :
  has_text_head n ->
  Upgrade.visit e n = Ok n' ->
  astext n' = astext n.
Proof.
  unfold has_text_head, Upgrade.visit.
  case_bool_decide as Hnum; [by intros _ [= <-]|].
  destruct (registry_node e (reftarget (node_attrs n))) as [t|]; [|by intros _ [= <-]].
  destruct (is_instance spice_file_enumerable_node t); [|by intros _ [= <-]].
  destruct (truthy (refexplicit (node_attrs n))); [by intros _ [= <-]|].
  destruct n as [s|c a g r cs]; [done|]. cbn [node_children node_attrs].
  destruct cs as [|[s|k ia ig ir ics] rest]; [done|done|].
  destruct (list_remove "std-ref" (classes ia)) as [removed| |]; [|done|done].
  intros Hhead [= <-].
  cbn [rbind set_children set_attrs astext map new_element]. f_equal. f_equal.
  unfold child_text_separator. by rewrite Hhead.
Qed.

Lemma upgrade_keeps_the_text_witness :
  let n := plain_xref "file-a" "see" in
  let n' := set_children
              [new_element literal (set_classes ["xref"; "std"; "std-numref"] no_attributes)
                 [Text "see"]]
              (set_attrs (set_reftype "numref" (node_attrs n)) n) in
  astext n' = astext n.
Proof.
  intros n n'. apply (upgrade_keeps_the_text env_ghost n n'); reflexivity.
Defined.

(** *** Running the upgrade again *)

Lemma upgrade_visit_stable e n n1 cs' :
  Upgrade.visit e n = Ok n1 ->
  Upgrade.visit e (set_children cs' n1) = Ok (set_children cs' n1).
Proof.
  unfold Upgrade.visit.
  case_bool_decide as Hnum.
  { intros [= <-]. destruct n; [done|]. cbn [set_children node_attrs] in *.
    by rewrite bool_decide_eq_true_2. }
  destruct (registry_node e (reftarget (node_attrs n))) as [t|] eqn:Ht.
  2:{ intros [= <-]. destruct n; [done|]. cbn [set_children node_attrs] in *.
      rewrite bool_decide_eq_false_2 by done. by rewrite Ht. }
  destruct (is_instance spice_file_enumerable_node t) eqn:Hen.
  2:{ intros [= <-]. destruct n; [done|]. cbn [set_children node_attrs] in *.
      rewrite bool_decide_eq_false_2 by done. by rewrite Ht, Hen. }
  destruct (truthy (refexplicit (node_attrs n))) eqn:Hex.
  { intros [= <-]. destruct n; [done|]. cbn [set_children node_attrs] in *.
    rewrite bool_decide_eq_false_2 by done. by rewrite Ht, Hen, Hex. }
  destruct n as [s|c a g r cs]; [done|]. cbn [node_children node_attrs].
  destruct cs as [|[s|k ia ig ir ics] rest]; [done|done|].
  destruct (list_remove "std-ref" (classes ia)) as [removed| |]; [|done|done].
  intros [= <-]. cbn [rbind set_children set_attrs node_attrs set_reftype reftype].
  by rewrite bool_decide_eq_true_2.
Qed.

Lemma upgrade_visit_class e n n1 : Upgrade.visit e n = Ok n1 -> node_cls n1 = node_cls n.
Proof.
  unfold Upgrade.visit.
  case_bool_decide as Hnum; [by intros [= <-]|].
  destruct (registry_node e (reftarget (node_attrs n))) as [t|]; [|by intros [= <-]].
  destruct (is_instance spice_file_enumerable_node t); [|by intros [= <-]].
  destruct (truthy (refexplicit (node_attrs n))); [by intros [= <-]|].
  destruct n as [s|c a g r cs]; [done|]. cbn [node_children node_attrs].
  destruct cs as [|[s|k ia ig ir ics] rest]; [done|done|].
  destruct (list_remove "std-ref" (classes ia)) as [removed| |]; [|done|done].
  by intros [= <-].
Qed.

Lemma rmap_Ok_inv {A B} (f : A -> result B) l l' :
  rmap f l = Ok l' -> Forall2 (fun x y => f x = Ok y) l l'.
Proof.
  revert l'. induction l as [|x l IH]; intros l'; simpl.
  - intros [= <-]. constructor.
  - destruct (f x) as [y| |] eqn:Hx; [|done|done]. cbn [rbind].
    destruct (rmap f l) as [ys| |]; [|done|done]. cbn [rbind].
    intros [= <-]. constructor; [done|by apply IH].
Qed.

Lemma upgrade_walk_stable e depth : forall n n',
  Upgrade.walk e depth n = Ok n' ->
  forall depth', node_height n' <= depth' -> Upgrade.walk e depth' n' = Ok n'.
Proof.
  induction depth as [|depth IH]; intros n n'; [done|].
  cbn [Upgrade.walk].
  destruct (if is_instance pending_xref n then Upgrade.visit e n else Ok n)
    as [n1| |] eqn:Hn1; [|done|done].
  cbn [rbind]. destruct n1 as [s|c a g r cs].
  - intros [= <-] [|depth'] Hh; [simpl in Hh; lia|]. cbn.
    replace (is_instance pending_xref (Text s)) with false by done. done.
  - destruct (rmap (Upgrade.walk e depth) cs) as [cs'| |] eqn:Hcs; [|done|done].
    cbn [rbind]. intros [= <-] [|depth'] Hh; [simpl in Hh; lia|].
    assert (Hsame : is_instance pending_xref (Element c a g r cs')
                    = is_instance pending_xref n).
    { destruct (is_instance pending_xref n) eqn:Hx.
      - apply upgrade_visit_class in Hn1. unfold is_instance in *.
        cbn [node_cls] in *. by rewrite Hn1.
      - injection Hn1 as ->. exact Hx. }
    assert (Hvisit : (if is_instance pending_xref (Element c a g r cs')
                      then Upgrade.visit e (Element c a g r cs')
                      else Ok (Element c a g r cs')) = Ok (Element c a g r cs')).
    { rewrite Hsame. destruct (is_instance pending_xref n); [|done].
      apply (upgrade_visit_stable e n (Element c a g r cs) cs' Hn1). }
    cbn [Upgrade.walk]. rewrite Hvisit. cbn [rbind].
    rewrite rmap_id; [done|].
    apply rmap_Ok_inv in Hcs.
    assert (Hall : Forall (fun y => node_height y <= depth') cs').
    { apply Forall_forall. intros y Hy. simpl in Hh.
      pose proof (height_child y cs' Hy). lia. }
    clear -Hcs IH Hall.
    induction Hcs as [|x y l l' Hxy _ IHl]; [constructor|].
    inversion Hall; subst. constructor; [by eapply IH|by apply IHl].
Qed.

(** X17.  The upgrade is idempotent: run again on the tree it has returned, it
    returns that tree. *)
Theorem upgrade_is_idempotent doc doc' e e' :
  Upgrade.run doc e = (Ok doc', e') ->
  Upgrade.run doc' e' = (Ok doc', e').
Proof.
  unfold Upgrade.run, bind, get_env, ret, lift.
  destruct (sphinx_spice_file_registry e) eqn:Hreg.
  - destruct (Upgrade.walk e (S (node_height doc)) doc) as [d| |] eqn:Hwalk; [|done|done].
    intros [= <- <-]. rewrite Hreg.
    by rewrite (upgrade_walk_stable _ _ _ _ Hwalk) by lia.
  - intros [= <- <-]. by rewrite Hreg.
Qed.

Lemma upgrade_is_idempotent_witness :
  let doc := example_document [container [plain_xref "file-a" "see"]] in
  let doc' :=
    example_document
      [container
         [set_children
            [new_element literal (set_classes ["xref"; "std"; "std-numref"] no_attributes)
               [Text "see"]]
            (set_attrs (set_reftype "numref" (node_attrs (plain_xref "file-a" "see")))
                       (plain_xref "file-a" "see"))]] in
  Upgrade.run doc' env_ghost = (Ok doc', env_ghost).
Proof.
  intros doc doc'. apply (upgrade_is_idempotent doc doc' env_ghost env_ghost). reflexivity.
Defined.

(** ** The title of a file block *)

(** X18.  On the block the file directive builds, title resolution succeeds: it
    puts a docutils [title] in place of the first child, leaves the content
    section and the attributes, and marks the block resolved.  The title
    reads as [file_title_text] says; for a numbered block it carries the
    number format as its ["title"]. *)
Theorem built_file_title_resolves h name d docname serial :
  let n := spice_file_build h name d docname serial in
  exists title1,
    FileTitles.resolve_title h n
    = Ok (set_resolved_title true (set_children [title1; file_section (content d)] n)) /\
    is_instance title title1 = true /\
    astext title1 = file_title_text h d n /\
    title_attr (node_attrs title1)
    = (if opt_nonumber d then None else Some (numfig_format h)).
Proof.
  intros n. unfold FileTitles.resolve_title.
  assert (Hcs : node_children n = [file_title_of d; file_section (content d)])
    by apply file_build_children.
  rewrite Hcs.
  assert (Hen : is_instance spice_file_enumerable_node n = negb (opt_nonumber d)).
  { unfold n, spice_file_build.
    by destruct (opt_nonumber d), (bool_decide (name = "spice_file-start")). }
  assert (Htitle : is_instance spice_file_title (file_title_of d) = true).
  { unfold file_title_of. by destruct (arguments d). }
  rewrite Htitle, Hen. unfold file_title_text.
  assert (Hsub : Py.join "" (map astext (FileTitles.subtitle_part (file_title_of d)))
                 = match arguments d with
                   | [] => ""
                   | _ :: _ => " (" +:+ Py.join "" (map astext (subtitle_nodes d)) +:+ ")"
                   end).
  { unfold FileTitles.subtitle_part, file_title_of.
    destruct (arguments d); [done|].
    cbn [append_child new_element set_children node_children app is_instance node_cls].
    change (is_instance spice_file_subtitle
              (new_element spice_file_subtitle no_attributes (subtitle_nodes d))) with true.
    cbn iota. rewrite map_cons, !map_app. cbn [map astext].
    by rewrite join_cons, join_app, join_cons, join_nil, string_app_nil_r. }
  destruct (opt_nonumber d); cbn [negb].
  - assert (Hfirst : exists more, node_children (file_title_of d) = Text "spice_file" :: more).
    { unfold file_title_of. destruct (arguments d); by eexists. }
    destruct Hfirst as [more ->]. cbn [rbind].
    eexists. split; [reflexivity|]. split; [done|]. split; [|done].
    cbn [astext extend_children new_element set_children node_children
         child_text_separator is_text_element app].
    rewrite map_cons, join_cons. cbn [astext]. by rewrite Hsub.
  - cbn [rbind]. eexists. split; [reflexivity|]. split; [done|]. split; [|done].
    cbn [astext extend_children new_element set_children node_children
         child_text_separator is_text_element].
    rewrite map_app, join_app, Hsub.
    case_bool_decide; cbn [map astext];
      by rewrite ?join_cons, ?join_nil, ?string_app_nil_r.
Qed.

(** ** Resolving a simulation title *)

Lemma resolution_env h n f e n1 e1 :
  resolve_spice_simulation_title h n f e = (Ok n1, e1) ->
  e1 = (if needs_mathjax n f
        then set_has_equations ({[env_docname e]} ∪ has_equations e) e
        else e).
Proof.
  unfold resolve_spice_simulation_title, needs_mathjax, bind, lift, first_child, get_env,
    ret, raise, modify_env.
  destruct (node_children n) as [|title_ rest]; [done|].
  destruct (node_children f) as [|file_title more]; [done|].
  destruct (is_instance spice_simulation_title title_); [|by intros [= <- <-]].
  destruct (node_children file_title) as [|prefix pmore]; [done|].
  destruct (build_reference_node h e f); [|done|done].
  destruct (title_attr (node_attrs n)); [|done].
  destruct pmore as [|subtitle pmore']; [by intros [= <- <-]|].
  destruct (is_instance spice_file_subtitle subtitle); [|by intros [= <- <-]].
  destruct (existsb _ _); by intros [= <- <-].
Qed.

Lemma resolution_resolved h n f e n1 e1 :
  resolve_spice_simulation_title h n f e = (Ok n1, e1) -> node_resolved_title n1 = true.
Proof.
  unfold resolve_spice_simulation_title, bind, lift, first_child, get_env,
    ret, raise, modify_env.
  destruct n as [s|c a g r cs]; [done|]. cbn [node_children node_attrs].
  destruct cs as [|title_ rest]; [done|].
  destruct (node_children f) as [|file_title more]; [done|].
  destruct (is_instance spice_simulation_title title_); [|by intros [= <- <-]].
  destruct (node_children file_title) as [|prefix pmore]; [done|].
  destruct (build_reference_node h e _); [|done|done].
  destruct (title_attr a); [|done].
  destruct pmore as [|subtitle pmore']; [by intros [= <- <-]|].
  destruct (is_instance spice_file_subtitle subtitle); [|by intros [= <- <-]].
  destruct (existsb _ _); by intros [= <- <-].
Qed.

(** X19.  Resolving a simulation title changes one thing in the environment and
    only when it copies a subtitle with a [math] node into the title: the
    current document is then marked as having equations.  Registry,
    objects, log and serial number stay as they are. *)
Theorem title_resolution_marks_equations h n f e n1 e1 :
  resolve_spice_simulation_title h n f e = (Ok n1, e1) ->
  e1 = (if needs_mathjax n f
        then set_has_equations ({[env_docname e]} ∪ has_equations e) e
        else e).
Proof. apply resolution_env. Qed.

Lemma title_resolution_marks_equations_witness :
  exists n1 e1,
    resolve_spice_simulation_title example_host (object_at env_math 2) (object_at env_math 1)
      env_math = (Ok n1, e1) /\
    e1 = set_has_equations ({["index"]} ∪ has_equations env_math) env_math.
Proof.
  do 2 eexists.
  assert (Hrun : resolve_spice_simulation_title example_host (object_at env_math 2)
                   (object_at env_math 1) env_math = (Ok _, _))
    by (vm_compute; reflexivity).
  split; [exact Hrun|].
  exact (title_resolution_marks_equations example_host _ _ _ _ _ Hrun).
Defined.

(** ** The simulation title pass, where the target is registered *)

(** X20.  For a simulation block whose target label is registered with a block
    that has a title and a label, and whose own label is registered, the
    body of the loop of the title pass resolves the title, logs nothing and
    goes on; it stores the resolved node in the registry under the
    simulation's label, in place of the node registered before, and keeps
    the entry's type and document. *)
Theorem resolved_simulation_is_registered
    h e n f l v title_ rest file_title more prefix pmore entry lf :
  registry_node e (target_label (node_attrs n)) = Some f ->
  get_label n = Some l ->
  registry_of e !! l = Some v ->
  node_children n = title_ :: rest ->
  node_children f = file_title :: more ->
  node_children file_title = prefix :: pmore ->
  title_attr (node_attrs n) = Some entry ->
  label (node_attrs f) = Some lf ->
  exists n1 e1,
    SimTitles.visit h n e = (Ok (n1, false), e1) /\
    node_resolved_title n1 = true /\
    registry_node e1 (Some l) = Some n1 /\
    registry_of e1
    = <[l := {| e_type := e_type v; e_docname := e_docname v;
                e_node := length (objects e) |}]> (registry_of e) /\
    log e1 = log e.
Proof.
  intros Hf Hl Hv Hn Hfc Htc Hentry Hlf.
  destruct (resolution_succeeds h n f e title_ rest file_title more prefix pmore entry lf)
    as (n1 & e0 & Hrun); try done.
  pose proof (resolution_env _ _ _ _ _ _ Hrun) as He0.
  pose proof (resolution_resolved _ _ _ _ _ _ Hrun) as Hres.
  assert (Hreg0 : registry_of e0 = registry_of e /\ objects e0 = objects e /\ log e0 = log e).
  { rewrite He0. by destruct (needs_mathjax n f). }
  destruct Hreg0 as (Hreg0 & Hobj0 & Hlog0).
  exists n1.
  eexists. split.
  - unfold SimTitles.visit, registry_get_node, bind, get_env, ret.
    rewrite Hf. cbv beta iota. rewrite Hrun. cbv beta iota.
    unfold registry_set_node, bind, get_env, alloc, registry_insert, modify_env.
    rewrite Hl. cbv beta iota. rewrite Hreg0, Hv. cbv beta iota. reflexivity.
  - split; [done|].
    unfold registry_node, registry_of, deref. cbn.
    fold (registry_of e0). rewrite Hreg0, Hobj0, Hlog0.
    rewrite lookup_insert_eq. cbn.
    by rewrite lookup_app_r, Nat.sub_diag.
Qed.

Lemma resolved_simulation_is_registered_witness :
  exists n1 e1,
    SimTitles.visit example_host (object_at env_ghost 3) env_ghost = (Ok (n1, false), e1) /\
    node_resolved_title n1 = true /\
    registry_node e1 (Some "sim-a") = Some n1 /\
    registry_of e1
    = <["sim-a" := {| e_type := e_type entry_sim_a; e_docname := e_docname entry_sim_a;
                      e_node := length (objects env_ghost) |}]> (registry_of env_ghost) /\
    log e1 = log env_ghost.
Proof.
  eapply (resolved_simulation_is_registered example_host env_ghost (object_at env_ghost 3)
            (object_at env_ghost 1) "sim-a" entry_sim_a); reflexivity.
Defined.

(** ** References that do not lead to a simulation block *)

(** X22.  The link-text pass changes neither the attributes nor the children of a
    reference whose [refid] is not registered with a simulation block, and
    nothing in the environment.  The node stays as it is, except under
    the LaTeX builder for a reference to a numbered file block, which
    becomes a [spice_file_latex_number_reference]. *)
Theorem other_references_keep_their_content h e node_ :
  (forall t, registry_node e (refid (node_attrs node_)) = Some t ->
             is_instance spice_simulation_node t = false) ->
  exists n',
    LinkText.visit h node_ e = (Ok n', e) /\
    node_attrs n' = node_attrs node_ /\
    node_children n' = node_children node_ /\
    (n' = node_ \/
     (builder_format h = "latex" /\
      is_instance spice_file_latex_number_reference n' = true /\
      exists t, registry_node e (refid (node_attrs node_)) = Some t /\
                is_instance spice_file_enumerable_node t = true)).
Proof.
  intros Hnot. unfold LinkText.visit, bind, get_env, ret.
  unfold registry_node in Hnot.
  destruct (refid (node_attrs node_)) as [l|] eqn:Hrefid; [|exists node_; by auto].
  cbn in Hnot.
  destruct (registry_of e !! l) as [target|] eqn:Hl; [|exists node_; by auto].
  cbn in Hnot.
  destruct (deref e (e_node target)) as [t|] eqn:Ht; [|exists node_; by auto].
  rewrite (Hnot t eq_refl).
  destruct (bool_decide (builder_format h = "latex")) eqn:Hlatex; cbn [andb];
    [|exists node_; by auto].
  destruct (is_instance spice_file_enumerable_node t) eqn:Hen; [|exists node_; by auto].
  eexists. split; [reflexivity|]. repeat split.
  right. apply bool_decide_eq_true in Hlatex. repeat split; [done|].
  exists t. split; [|done]. unfold registry_node. cbn. rewrite Hl. cbn. done.
Qed.

Lemma other_references_keep_their_content_witness :
  let node_ := reference_to "file-a" "see" in
  exists n',
    LinkText.visit example_host node_ env_ghost = (Ok n', env_ghost) /\
    node_attrs n' = node_attrs node_ /\
    node_children n' = node_children node_ /\
    (n' = node_ \/
     (builder_format example_host = "latex" /\
      is_instance spice_file_latex_number_reference n' = true /\
      exists t, registry_node env_ghost (refid (node_attrs node_)) = Some t /\
                is_instance spice_file_enumerable_node t = true)).
Proof.
  intros node_. apply (other_references_keep_their_content example_host env_ghost node_).
  intros t Ht. vm_compute in Ht. by injection Ht as <-.
Defined.

(** ** From the title pass to the link text *)

Lemma resolution_class h n f e n1 e1 :
  resolve_spice_simulation_title h n f e = (Ok n1, e1) -> node_cls n1 = node_cls n.
Proof.
  unfold resolve_spice_simulation_title, bind, lift, first_child, get_env,
    ret, raise, modify_env.
  destruct n as [s|c a g r cs]; [done|]. cbn [node_children node_attrs].
  destruct cs as [|title_ rest]; [done|].
  destruct (node_children f) as [|file_title more]; [done|].
  destruct (is_instance spice_simulation_title title_); [|by intros [= <- <-]].
  destruct (node_children file_title) as [|prefix pmore]; [done|].
  destruct (build_reference_node h e _); [|done|done].
  destruct (title_attr a); [|done].
  destruct pmore as [|subtitle pmore']; [by intros [= <- <-]|].
  destruct (is_instance spice_file_subtitle subtitle); [|by intros [= <- <-]].
  destruct (existsb _ _); by intros [= <- <-].
Qed.

(** X21.  Once the title pass has resolved a simulation block, the link-text pass
    gives a reference to the block the text of the resolved title: the
    simulation's own title, then the title of the file block, its number
    and its subtitle.  It reads the title from the registry and resolves
    nothing again; the first child of the reference keeps its attributes,
    the environment stays as the title pass has left it. *)
Theorem link_text_after_title_pass
    h e n f l v title_ rest file_title more prefix pmore entry lf ref inline_ others :
  is_instance spice_simulation_node n = true ->
  registry_node e (target_label (node_attrs n)) = Some f ->
  get_label n = Some l ->
  registry_of e !! l = Some v ->
  node_children n = title_ :: rest ->
  is_instance spice_simulation_title title_ = true ->
  node_children f = file_title :: more ->
  node_children file_title = prefix :: pmore ->
  title_attr (node_attrs n) = Some entry ->
  label (node_attrs f) = Some lf ->
  refid (node_attrs ref) = Some l ->
  node_children ref = inline_ :: others ->
  node_cls inline_ <> None ->
  exists n1 e1,
    SimTitles.visit h n e = (Ok (n1, false), e1) /\
    LinkText.visit h ref e1
    = (Ok (with_link_text (composed_title_text h n f) ref inline_ others), e1).
Proof.
  intros Hsim Hf Hl Hv Hn Htitle Hfc Htc Hentry Hlf Hrefid Href Hinline.
  destruct (resolution_succeeds h n f e title_ rest file_title more prefix pmore entry lf)
    as (n1 & e0 & Hrun); try done.
  pose proof (resolution_env _ _ _ _ _ _ Hrun) as He0.
  pose proof (resolution_resolved _ _ _ _ _ _ Hrun) as Hres.
  pose proof (resolution_class _ _ _ _ _ _ Hrun) as Hcls.
  destruct (resolved_title_text h n f e n1 e0 title_ rest Hn Htitle Hrun)
    as (title1 & Hn1 & _ & Htext).
  assert (Hreg0 : registry_of e0 = registry_of e /\ objects e0 = objects e).
  { rewrite He0. by destruct (needs_mathjax n f). }
  destruct Hreg0 as (Hreg0 & Hobj0).
  exists n1. eexists. split.
  - unfold SimTitles.visit, registry_get_node, bind, get_env, ret.
    rewrite Hf. cbv beta iota. rewrite Hrun. cbv beta iota.
    unfold registry_set_node, bind, get_env, alloc, registry_insert, modify_env.
    rewrite Hl. cbv beta iota. rewrite Hreg0, Hv. cbv beta iota. reflexivity.
  - rewrite <- Htext.
    eapply (proj1 (link_text_is_composed_title h _ ref l _ n1 inline_ others title1 rest
                     Hrefid _ _ _ Href Hinline Hn1)); [exact Hres].
    Unshelve.
    + exact {| e_type := e_type v; e_docname := e_docname v; e_node := length (objects e0) |}.
    + unfold registry_of. cbn. by rewrite lookup_insert_eq.
    + unfold deref. cbn. by rewrite lookup_app_r, Nat.sub_diag.
    + unfold is_instance in *. by rewrite Hcls.
Qed.

Lemma link_text_after_title_pass_witness :
  exists n1 e1,
    SimTitles.visit example_host (object_at env_ghost 3) env_ghost = (Ok (n1, false), e1) /\
    LinkText.visit example_host (reference_to "sim-a" "see") e1
    = (Ok (with_link_text
             (composed_title_text example_host (object_at env_ghost 3) (object_at env_ghost 1))
             (reference_to "sim-a" "see")
             (new_element inline (set_classes ["std"; "std-ref"] no_attributes) [Text "see"])
             []), e1).
Proof.
  eapply (link_text_after_title_pass example_host env_ghost (object_at env_ghost 3)
            (object_at env_ghost 1) "sim-a" entry_sim_a);
    try reflexivity; discriminate.
Defined.

(** ** The record of the gated directives *)

Lemma gated_records_stay_well_formed_witness :
  exists r,
    recorded (snd (spice_simulationEndDirective_run (example_file_directive "" 9)
                     env_split_depth)) = Some r /\
    well_formed_record r.
Proof.
  eexists.
  assert (Hrec : recorded (snd (spice_simulationEndDirective_run (example_file_directive "" 9)
                                  env_split_depth)) = Some _)
    by (vm_compute; reflexivity).
  split; [exact Hrec|].
  refine (gated_records_stay_well_formed example_host (example_file_directive "" 9)
            env_split_depth _ _ _ _ Hrec).
  - intros r H. vm_compute in H. injection H as <-.
    split; [|reflexivity|reflexivity].
    constructor; [by left|]. constructor; [by right|]. constructor.
  - do 3 right. reflexivity.
Defined.

(** ** What the title passes leave *)

Lemma resolve_title_result h n n1 :
  FileTitles.resolve_title h n = Ok n1 ->
  node_resolved_title n1 = true /\ node_cls n1 = node_cls n.
Proof.
  unfold FileTitles.resolve_title.
  destruct n as [t|c a g r cs]; [done|]. cbn [node_children].
  destruct cs as [|title_ rest]; [done|].
  destruct (is_instance spice_file_title title_).
  - destruct (is_instance spice_file_enumerable_node (Element c a g r (title_ :: rest))).
    + cbn. by intros [= <-].
    + destruct (node_children title_) as [|first more]; [done|].
      cbn. by intros [= <-].
  - cbn. by intros [= <-].
Qed.

Lemma file_titles_walk_resolves h depth : forall n n',
  FileTitles.walk h depth n = Ok n' -> free_of unresolved_file n' = true.
Proof.
  induction depth as [|depth IH]; intros n n'; [done|].
  cbn [FileTitles.walk].
  destruct (if is_spice_file_node n then FileTitles.resolve_title h n else Ok n)
    as [n1| |] eqn:Hn1; [|done|done].
  cbn [rbind]. destruct n1 as [s|c a g r cs]; [by intros [= <-]|].
  destruct (rmap (FileTitles.walk h depth) cs) as [cs'| |] eqn:Hcs; [|done|done].
  cbn [rbind]. intros [= <-]. apply free_of_element.
  - unfold unresolved_file, is_spice_file_node, is_instance. cbn [node_cls node_resolved_title].
    destruct (is_spice_file_node n) eqn:Hfile.
    + destruct (resolve_title_result _ _ _ Hn1) as [Hres _]. cbn in Hres. subst r.
      by rewrite andb_false_r.
    + injection Hn1 as ->. unfold is_spice_file_node, is_instance in Hfile.
      cbn [node_cls] in Hfile. by rewrite Hfile.
  - apply rmap_Ok_inv in Hcs. clear -Hcs IH.
    induction Hcs as [|x y l l' Hxy _ IHl]; [constructor|].
    constructor; [by eapply IH|done].
Qed.

(** X23.  After the file title pass no file block of the tree is left
    unresolved, at whatever depth: where the pass returns, each carries
    the mark [resolved_title]. *)
Theorem file_title_pass_resolves_every_block h doc e doc' e' :
  sphinx_spice_file_registry e <> None ->
  FileTitles.run h doc e = (Ok doc', e') ->
  free_of unresolved_file doc' = true /\ e' = e.
Proof.
  intros Hreg. unfold FileTitles.run, bind, get_env, ret, lift.
  destruct (sphinx_spice_file_registry e); [|done].
  destruct (FileTitles.walk h (S (node_height doc)) doc) as [d| |] eqn:Hwalk; [|done|done].
  intros [= <- <-]. split; [|done]. by eapply file_titles_walk_resolves.
Qed.

Lemma file_title_pass_resolves_every_block_witness :
  exists doc' e',
    FileTitles.run example_host
      (example_document [container [object_at env_ghost 0]; object_at env_math 0]) env_ghost
    = (Ok doc', e') /\
    free_of unresolved_file doc' = true /\ e' = env_ghost.
Proof.
  do 2 eexists.
  assert (Hrun : FileTitles.run example_host
                   (example_document [container [object_at env_ghost 0]; object_at env_math 0])
                   env_ghost = (Ok _, _)) by (vm_compute; reflexivity).
  split; [exact Hrun|].
  refine (file_title_pass_resolves_every_block example_host _ env_ghost _ _ _ Hrun).
  discriminate.
Defined.

(** *** The simulation title pass *)

Lemma resolution_log h n f e r e1 :
  resolve_spice_simulation_title h n f e = (r, e1) -> log e1 = log e.
Proof.
  unfold resolve_spice_simulation_title, bind, lift, first_child, get_env,
    ret, raise, modify_env.
  destruct (node_children n) as [|title_ rest]; [by intros [= <- <-]|].
  destruct (node_children f) as [|file_title more]; [by intros [= <- <-]|].
  destruct (is_instance spice_simulation_title title_); [|by intros [= <- <-]].
  destruct (node_children file_title) as [|prefix pmore]; [by intros [= <- <-]|].
  destruct (build_reference_node h e f); [|by intros [= <- <-]|by intros [= <- <-]].
  destruct (title_attr (node_attrs n)); [|by intros [= <- <-]].
  destruct pmore as [|subtitle pmore']; [by intros [= <- <-]|].
  destruct (is_instance spice_file_subtitle subtitle); [|by intros [= <- <-]].
  destruct (existsb _ _); by intros [= <- <-].
Qed.

Lemma registry_set_node_log l n e r e1 :
  registry_set_node l n e = (r, e1) -> log e1 = log e.
Proof.
  unfold registry_set_node, bind, get_env, raise, alloc, registry_insert, modify_env.
  destruct l as [l|]; [|by intros [= <- <-]].
  destruct (registry_of e !! l); by intros [= <- <-].
Qed.

Lemma sim_visit_result h n e n1 b e1 :
  SimTitles.visit h n e = (Ok (n1, b), e1) ->
  length (log e1) = length (log e) + (if b then 1 else 0) /\
  (b = false -> node_resolved_title n1 = true /\ node_cls n1 = node_cls n).
Proof.
  unfold SimTitles.visit, registry_get_node, bind, get_env, ret, raise.
  destruct (registry_node e (target_label (node_attrs n))) as [f|].
  - destruct (resolve_spice_simulation_title h n f e) as [[resolved|x|] e0] eqn:Hrun.
    + pose proof (resolution_log _ _ _ _ _ _ Hrun) as Hlog0.
      destruct (registry_set_node (get_label n) resolved e0) as [[u|x|] e2] eqn:Hset;
        pose proof (registry_set_node_log _ _ _ _ _ Hset) as Hlog2.
      * intros [= <- <- <-]. split; [rewrite Hlog2, Hlog0; lia|]. intros _.
        split; [by eapply resolution_resolved|by eapply resolution_class].
      * unfold logger_warning, modify_env. intros [= <- <- <-]. split; [|done].
        cbn. rewrite length_app, Hlog2, Hlog0. reflexivity.
      * unfold logger_warning, modify_env. intros [= <- <- <-]. split; [|done].
        cbn. rewrite length_app, Hlog2, Hlog0. reflexivity.
    + pose proof (resolution_log _ _ _ _ _ _ Hrun) as Hlog0.
      unfold logger_warning, modify_env. intros [= <- <- <-]. split; [|done].
      cbn. rewrite length_app, Hlog0. reflexivity.
    + done.
  - unfold logger_warning, modify_env. cbv beta iota. intros [= <- <- <-]. split; [|done].
    cbn. by rewrite length_app.
Qed.

Lemma sim_walk_children_result (rec : node -> M (node * bool)) :
  (forall c e c' b e', rec c e = (Ok (c', b), e') ->
     length (log e') = length (log e) + (if b then 1 else 0) /\
     (b = false -> free_of unresolved_simulation c' = true)) ->
  forall cs e cs' b e',
    SimTitles.walk_children rec cs e = (Ok (cs', b), e') ->
    length (log e') = length (log e) + (if b then 1 else 0) /\
    (b = false -> Forall (fun c => free_of unresolved_simulation c = true) cs').
Proof.
  intros Hrec. induction cs as [|c cs IH]; intros e cs' b e'.
  - cbn. intros [= <- <- <-]. split; [lia|]. by constructor.
  - cbn [SimTitles.walk_children]. unfold bind, ret.
    destruct (rec c e) as [[[c1 b1]|x|] e1] eqn:Hc; [|done|done].
    destruct (Hrec _ _ _ _ _ Hc) as [Hlog1 Hfree1]. cbn [fst snd].
    destruct b1.
    + intros [= <- <- <-]. split; [done|done].
    + destruct (SimTitles.walk_children rec cs e1) as [[[cs2 b2]|x|] e2] eqn:Hcs;
        [|done|done].
      destruct (IH _ _ _ _ Hcs) as [Hlog2 Hfree2]. cbn [fst snd].
      intros [= <- <- <-]. split; [lia|]. intros Hb. constructor; auto.
Qed.

Lemma sim_walk_result h depth : forall n e n' b e',
  SimTitles.walk h depth n e = (Ok (n', b), e') ->
  length (log e') = length (log e) + (if b then 1 else 0) /\
  (b = false -> free_of unresolved_simulation n' = true).
Proof.
  induction depth as [|depth IH]; intros n e n' b e'; [done|].
  cbn [SimTitles.walk]. unfold bind at 1.
  destruct ((if is_instance spice_simulation_node n then SimTitles.visit h n
             else ret (n, false)) e) as [[[n1 b1]|x|] e1] eqn:Hn1; [|done|done].
  assert (Hhead : length (log e1) = length (log e) + (if b1 then 1 else 0) /\
                  (b1 = false ->
                   unresolved_simulation n1 = false /\
                   (forall cs, unresolved_simulation (set_children cs n1) = false))).
  { destruct (is_instance spice_simulation_node n) eqn:Hsim.
    - destruct (sim_visit_result _ _ _ _ _ _ Hn1) as [Hlog Hres]. split; [done|].
      intros Hb. destruct (Hres Hb) as [Hr _]. unfold unresolved_simulation.
      split; [by rewrite Hr, andb_false_r|]. intros cs.
      destruct n1; cbn in *; [done|]. subst. by rewrite andb_false_r.
    - unfold ret in Hn1. injection Hn1 as <- <- <-. split; [lia|]. intros _.
      unfold unresolved_simulation. split; [by rewrite Hsim|]. intros cs.
      destruct n; [done|]. unfold is_instance in *. cbn [set_children node_cls] in *.
      by rewrite Hsim. }
  destruct Hhead as [Hlog1 Hhead]. cbn [fst snd].
  destruct b1; [unfold ret; intros [= <- <- <-]; by split|].
  destruct (Hhead eq_refl) as [Hn1free Hn1set].
  destruct n1 as [s|c a g r cs].
  - unfold ret. intros [= <- <- <-]. split; [done|]. intros _. cbn. by rewrite Hn1free.
  - unfold bind, ret.
    destruct (SimTitles.walk_children (SimTitles.walk h depth) cs e1)
      as [[[cs2 b2]|x|] e2] eqn:Hcs; [|done|done].
    destruct (sim_walk_children_result _ (IH) _ _ _ _ _ Hcs) as [Hlog2 Hfree2].
    cbn [fst snd]. intros [= <- <- <-]. split; [lia|]. intros Hb.
    apply free_of_element; [apply (Hn1set cs2)|by apply Hfree2].
Qed.

(** X24.  When the simulation title pass returns and has logged no warning,
    no simulation block of the tree is left unresolved, at whatever
    depth. *)
Theorem quiet_title_pass_resolves_every_simulation h doc e doc' e' :
  sphinx_spice_file_registry e <> None ->
  SimTitles.run h doc e = (Ok doc', e') ->
  log e' = log e ->
  free_of unresolved_simulation doc' = true.
Proof.
  intros Hreg. unfold SimTitles.run, bind, get_env, ret.
  destruct (sphinx_spice_file_registry e); [|done].
  destruct (SimTitles.walk h (post_depth e doc) doc e) as [[[d b]|x|] e1] eqn:Hwalk;
    [|done|done].
  cbn [fst]. intros [= <- <-] Hlog.
  destruct (sim_walk_result _ _ _ _ _ _ _ Hwalk) as [Hlen Hfree].
  apply Hfree. destruct b; [|done]. rewrite Hlog in Hlen. lia.
Qed.

Lemma quiet_title_pass_resolves_every_simulation_witness :
  exists doc' e',
    SimTitles.run example_host doc_without_ghost env_ghost = (Ok doc', e') /\
    free_of unresolved_simulation doc' = true.
Proof.
  do 2 eexists.
  assert (Hrun : SimTitles.run example_host doc_without_ghost env_ghost = (Ok _, _))
    by (vm_compute; reflexivity).
  split; [exact Hrun|].
  refine (quiet_title_pass_resolves_every_simulation example_host _ env_ghost _ _ _ Hrun _);
    [discriminate|reflexivity].
Defined.
